(** * Speech-to-text orchestration core: a shallow embedding

    The development follows the TypeScript services of the application:

    - [DataView] and [Wav]: the [float32ToWav] encoder shared by the Whisper
      and AssemblyAI-Nano services;
    - [Float64]: the Numbers of JavaScript, and [Vad]: the volume
      computations of the services' [processAudioData];
    - one module per service ([WebSpeech], [Realtime], [AssemblyAI],
      [Whisper], [Nano], [Google]);
    - [Orchestrator]: [SpeechRecognitionService.ts], the factory that owns
      the current service, and [OrchestratorSession]: its sessions, with
      the events the platform delivers to the instances it created;
    - [WebSpeechResults]: the [onresult] handler of the Web Speech service;
    - [Display]: [formatDuration] and the audio level of the chat
      component;
    - [EventStream] and [OpenAIRoute]: the reader of the streamed
      completion in [ChatGPTService.ts] and the route that writes the
      stream;
    - [ChatGPT] and [ChatGPTSession]: the state of the ChatGPT service.

    Conventions of the embedding.

    - A Float32Array element is a finite sample, modelled as the rational
      [Q] it is equal to (NaN and the infinities are not samples).  The
      products [sample * 0x8000] and [sample * 0x7FFF] of the encoder are
      exact in binary64 for every float32 sample and are computed on
      rationals.  The volume computations are not exact: they are computed
      in [Float64], the binary64 arithmetic of IEEE 754 with rounding to
      nearest, ties to even, as the specification of the Standard Library
      ([SpecFloat]) has it; [Float64.ofQ] is the Number a sample is read
      as.
    - JavaScript is single threaded: a function body runs to its first
      [await] without interleaving.  A service is a state record, a method
      is a state transformer that also returns the list of effects it had on
      the platform ([Effect]); the part of an [async] function after an
      [await] is a handler of its own, run when the platform delivers the
      awaited event.  [start] is the exception: its awaits (microphone
      permission, connection handshake) are answered by a [Platform] record
      and the method is run as one step.
    - [Date.now()] is an argument [now] of the methods that read the clock.
    - [console.log] and [console.warn] are not recorded; [console.error]
      is.
    - A duration is a whole number of milliseconds, as differences of
      [Date.now()] are.
    - Text is a [string] that holds the UTF-8 encoding of the text.
      Splitting at ['-'] or at line feeds, testing a prefix and testing
      for the empty string are the same on the encoding as on the text;
      [trim] removes the encodings of the white space and line
      terminators of ECMAScript.
    - [JSON.parse] and [JSON.stringify] are parameters of the stream
      reader and of the route, and the AbortControllers of the ChatGPT
      service are numbered in the order of their creation. *)

From Stdlib Require Import ZArith QArith Qminmax Qabs Qreals Reals.
From Stdlib Require Import Lia Lra String Ascii.
From Stdlib Require Lqa DecimalString.
From Stdlib Require Import SpecFloat.
From stdpp Require Import base option list.

Set Default Proof Using "Type".

(** ** DataView over an ArrayBuffer *)

Module DataView.

(** The bytes of an ArrayBuffer, each in [0, 255]. *)
Abbreviation ArrayBuffer := (list Z).

(** [new ArrayBuffer(byteLength)]: zero filled. *)
Definition newArrayBuffer (byteLength : nat) : ArrayBuffer :=
  replicate byteLength 0%Z.

(** The setters raise RangeError ([None]) when the value does not fit
    between [byteOffset] and the end of the buffer, and then write
    nothing.  Integer arguments are reduced modulo the width of the
    field (ToUint8, ToUint16, ToUint32). *)
Definition setUint8 (view : ArrayBuffer) (byteOffset : nat) (value : Z)
  : option ArrayBuffer :=
  if (byteOffset + 1 <=? length view)%nat
  then Some (<[byteOffset := (value mod 256)%Z]> view)
  else None.

(** [view.setUint16(byteOffset, value, true)]: little endian. *)
Definition setUint16 (view : ArrayBuffer) (byteOffset : nat) (value : Z)
  : option ArrayBuffer :=
  if (byteOffset + 2 <=? length view)%nat
  then
    let v := (value mod 65536)%Z in
    Some (<[byteOffset + 1 := (v / 256)%Z]> (<[byteOffset := (v mod 256)%Z]> view))
  else None.

(** [view.setUint32(byteOffset, value, true)]: little endian. *)
Definition setUint32 (view : ArrayBuffer) (byteOffset : nat) (value : Z)
  : option ArrayBuffer :=
  if (byteOffset + 4 <=? length view)%nat
  then
    let v := (value mod 4294967296)%Z in
    Some (<[byteOffset + 3 := (v / 16777216)%Z]>
         (<[byteOffset + 2 := (v / 65536 mod 256)%Z]>
         (<[byteOffset + 1 := (v / 256 mod 256)%Z]>
         (<[byteOffset := (v mod 256)%Z]> view))))
  else None.

(** ToIntegerOrInfinity on a finite number: truncation towards zero. *)
Definition truncate (x : Q) : Z := Z.quot (Qnum x) (Z.pos (Qden x)).

(** [view.setInt16(byteOffset, value, true)] with a number argument:
    ToInt16 truncates, then reduces modulo 2^16; the two's complement
    bytes are those of the reduced value. *)
Definition setInt16 (view : ArrayBuffer) (byteOffset : nat) (value : Q)
  : option ArrayBuffer :=
  setUint16 view byteOffset (truncate value).

(** The getters, little endian; [None] is RangeError. *)
Definition getUint8 (view : ArrayBuffer) (byteOffset : nat) : option Z :=
  view !! byteOffset.

Definition getUint16 (view : ArrayBuffer) (byteOffset : nat) : option Z :=
  match view !! byteOffset, view !! (byteOffset + 1)%nat with
  | Some b0, Some b1 => Some (b0 + 256 * b1)%Z
  | _, _ => None
  end.

Definition getUint32 (view : ArrayBuffer) (byteOffset : nat) : option Z :=
  match view !! byteOffset, view !! (byteOffset + 1)%nat,
        view !! (byteOffset + 2)%nat, view !! (byteOffset + 3)%nat with
  | Some b0, Some b1, Some b2, Some b3 =>
      Some (b0 + 256 * b1 + 65536 * b2 + 16777216 * b3)%Z
  | _, _, _, _ => None
  end.

Definition getInt16 (view : ArrayBuffer) (byteOffset : nat) : option Z :=
  match getUint16 view byteOffset with
  | Some u => Some (if (u <? 32768)%Z then u else u - 65536)%Z
  | None => None
  end.

(** [string.charCodeAt(i)] of an ASCII string. *)
Definition charCode (c : ascii) : Z := Z.of_nat (nat_of_ascii c).

End DataView.

(** ** The WAV encoder *)

Module Wav.
Import DataView.

(** [writeString(view, offset, string)]: one [setUint8] per character. *)
Fixpoint writeString (view : ArrayBuffer) (offset : nat) (s : string)
  : option ArrayBuffer :=
  match s with
  | EmptyString => Some view
  | String c rest =>
      view ← setUint8 view offset (charCode c);
      writeString view (offset + 1)%nat rest
  end.

(** [Math.max(-1, Math.min(1, x))]. *)
Definition clampSample (x : Q) : Q := Qmax (-1) (Qmin 1 x).

(** [sample < 0 ? sample * 0x8000 : sample * 0x7FFF]. *)
Definition scaleSample (sample : Q) : Q :=
  if Qlt_le_dec sample 0 then sample * 32768 else sample * 32767.

(** The loop [for (let i = 0; i < samples.length; i++)] from index [i]
    on, [samples] being the samples not yet written. *)
Fixpoint writeSamples (view : ArrayBuffer) (i : nat) (samples : list Q)
  : option ArrayBuffer :=
  match samples with
  | [] => Some view
  | x :: rest =>
      let sample := clampSample x in
      view ← setInt16 view (44 + i * 2)%nat (scaleSample sample);
      writeSamples view (S i) rest
  end.

(** [float32ToWav(samples, sampleRate)]. *)
Definition float32ToWav (samples : list Q) (sampleRate : Z)
  : option ArrayBuffer :=
  let n := length samples in
  let view := newArrayBuffer (44 + n * 2) in
  (* RIFF identifier *)
  view ← writeString view 0 "RIFF";
  (* File length *)
  view ← setUint32 view 4 (36 + Z.of_nat n * 2);
  (* RIFF type *)
  view ← writeString view 8 "WAVE";
  (* Format chunk identifier *)
  view ← writeString view 12 "fmt ";
  (* Format chunk length *)
  view ← setUint32 view 16 16;
  (* Sample format (1 is PCM) *)
  view ← setUint16 view 20 1;
  (* Channel count *)
  view ← setUint16 view 22 1;
  (* Sample rate *)
  view ← setUint32 view 24 sampleRate;
  (* Byte rate (sample rate * block align) *)
  view ← setUint32 view 28 (sampleRate * 2);
  (* Block align (channel count * bytes per sample) *)
  view ← setUint16 view 32 2;
  (* Bits per sample *)
  view ← setUint16 view 34 16;
  (* Data chunk identifier *)
  view ← writeString view 36 "data";
  (* Data chunk length *)
  view ← setUint32 view 40 (Z.of_nat n * 2);
  (* Write the PCM samples *)
  writeSamples view 0 samples.

(** Reading the header back. *)
Definition readString (view : ArrayBuffer) (offset len : nat) : list Z :=
  take len (drop offset view).

Definition codes (s : string) : list Z :=
  map charCode (list_ascii_of_string s).

End Wav.

(** The layout of the file [float32ToWav] produces, as lists of bytes. *)
Module WavSpec.
Import DataView Wav.
Definition le16 (value : Z) : list Z :=
  let v := (value mod 65536)%Z in [(v mod 256)%Z; (v / 256)%Z].
Definition le32 (value : Z) : list Z :=
  let v := (value mod 4294967296)%Z in
  [(v mod 256)%Z; (v / 256 mod 256)%Z; (v / 65536 mod 256)%Z; (v / 16777216)%Z].
Definition header (n : nat) (sampleRate : Z) : list Z :=
  codes "RIFF" ++ le32 (36 + Z.of_nat n * 2) ++ codes "WAVE" ++
  codes "fmt " ++ le32 16 ++ le16 1 ++ le16 1 ++
  le32 sampleRate ++ le32 (sampleRate * 2) ++ le16 2 ++ le16 16 ++
  codes "data" ++ le32 (Z.of_nat n * 2).
Definition pcm16 (x : Q) : Z := truncate (scaleSample (clampSample x)).
Fixpoint pcmBytes (samples : list Q) : list Z :=
  match samples with
  | [] => []
  | x :: rest => le16 (pcm16 x) ++ pcmBytes rest
  end.
End WavSpec.

(** ** Effects and the method monad *)

Module Js.

(** What a service does to the platform and to its caller. *)
Inductive Effect : Type :=
| GetUserMedia                      (* getUserMedia resolved: a live microphone stream *)
| TrackStop                         (* every track of the stream stopped *)
| NewAudioContext (sampleRate : Z)
| AudioContextClose
| Connect                           (* source -> processor -> destination *)
| Disconnect
| Fetch (url : string) (audio : list Z) (language : option string)
| OnTranscriptUpdate (text : string)
| OnTranscriptionStart
| OnDurationUpdate (durationMs : Z)
| ConsoleError (message : string)
| SetTimeout (ms : Z)
| ClearTimeout
| SetInterval (ms : Z)
| ClearInterval
| RecorderStart                     (* new MediaRecorder(...).start() *)
| RecorderStop                      (* mediaRecorder.stop() *)
| TranscriberConnect
| TranscriberClose
| SendAudio (pcm : list Z)
| RecognitionStart                  (* recognition.start() *)
| RecognitionStop.                  (* recognition.stop() *)

(** A method of an object with state [S]: the value it returns, the state
    it leaves and the effects it had, in order. *)
Definition M (S A : Type) : Type := S -> A * S * list Effect.

Definition ret {S A} (a : A) : M S A := fun s => (a, s, []).

Definition bind {S A B} (m : M S A) (f : A -> M S B) : M S B :=
  fun s =>
    let '(a, s1, e1) := m s in
    let '(b, s2, e2) := f a s1 in
    (b, s2, e1 ++ e2).

Definition get {S} : M S S := fun s => (s, s, []).
Definition modify {S} (f : S -> S) : M S unit := fun s => (tt, f s, []).
Definition emit {S} (e : Effect) : M S unit := fun s => (tt, s, [e]).
Definition when {S} (b : bool) (m : M S unit) : M S unit :=
  if b then m else ret tt.

#[global] Instance M_ret {S} : MRet (M S) := fun A => @ret S A.
#[global] Instance M_bind {S} : MBind (M S) := fun A B f m => bind m f.

(** The three projections of a run. *)
Definition result {S A} (r : A * S * list Effect) : A := r.1.1.
Definition state {S A} (r : A * S * list Effect) : S := r.1.2.
Definition effects {S A} (r : A * S * list Effect) : list Effect := r.2.

(** How a promise settles. *)
Inductive Outcome : Type :=
| Resolved
| Rejected (reason : string).

(** [String.prototype.trim] removes the white space and the line
    terminators of ECMAScript from both ends.  In UTF-8 they are
    - one byte: U+0009 to U+000D (tab, line feed, vertical tab, form
      feed, carriage return) and U+0020 (space);
    - two bytes, C2 A0: U+00A0 (no-break space);
    - three bytes: E1 9A 80 (U+1680), E2 80 80 to E2 80 8A (U+2000 to
      U+200A), E2 80 A8 and E2 80 A9 (U+2028, U+2029), E2 80 AF
      (U+202F), E2 81 9F (U+205F), E3 80 80 (U+3000) and EF BB BF
      (U+FEFF). *)
Definition isWhiteSpace (c : ascii) : bool :=
  let n := nat_of_ascii c in
  ((9 <=? n) && (n <=? 13) || (n =? 32))%nat.

Definition isWhiteSpace2 (c1 c2 : ascii) : bool :=
  ((nat_of_ascii c1 =? 194) && (nat_of_ascii c2 =? 160))%nat.

Definition isWhiteSpace3 (c1 c2 c3 : ascii) : bool :=
  let n1 := nat_of_ascii c1 in
  let n2 := nat_of_ascii c2 in
  let n3 := nat_of_ascii c3 in
  ((n1 =? 225) && (n2 =? 154) && (n3 =? 128)
   || (n1 =? 226) && (n2 =? 128)
      && ((128 <=? n3) && (n3 <=? 138) || (n3 =? 168) || (n3 =? 169)
          || (n3 =? 175))
   || (n1 =? 226) && (n2 =? 129) && (n3 =? 159)
   || (n1 =? 227) && (n2 =? 128) && (n3 =? 128)
   || (n1 =? 239) && (n2 =? 187) && (n3 =? 191))%nat.

Fixpoint trimStart (s : string) : string :=
  match s with
  | EmptyString => EmptyString
  | String c1 rest1 =>
      if isWhiteSpace c1 then trimStart rest1 else
      match rest1 with
      | EmptyString => s
      | String c2 rest2 =>
          if isWhiteSpace2 c1 c2 then trimStart rest2 else
          match rest2 with
          | EmptyString => s
          | String c3 rest3 =>
              if isWhiteSpace3 c1 c2 c3 then trimStart rest3 else s
          end
      end
  end.

(** A string of white space only, and the string without the white
    space it ends with. *)
Definition isBlank (s : string) : bool :=
  match trimStart s with EmptyString => true | _ => false end.

Fixpoint trimEnd (s : string) : string :=
  match s with
  | EmptyString => EmptyString
  | String c rest => if isBlank s then EmptyString else String c (trimEnd rest)
  end.

Definition trim (s : string) : string := trimEnd (trimStart s).

(** Truthiness of a string: [if (text)]. *)
Definition truthy (s : string) : bool :=
  match s with EmptyString => false | _ => true end.

(** The handles a service keeps; the objects behind them belong to the
    platform. *)
Variant MediaStream : Type := mediaStreamHandle.
Variant AudioNode : Type := audioNodeHandle.
(** [audioContext.state]. *)
Variant AudioContext : Type := Running | Closed.

(** [if (x)] on a variable that holds an object or [null]. *)
Definition nonNull {A} (x : option A) : bool :=
  match x with Some _ => true | None => false end.

(** [audioContext && audioContext.state !== 'closed']. *)
Definition notClosed (x : option AudioContext) : bool :=
  match x with Some Running => true | Some Closed | None => false end.

(** The answers of the platform to the awaits of a [start]. *)
Record Platform : Type := {
  getUserMedia : bool;        (* the microphone stream is granted *)
  audioContextCtor : bool;    (* [new AudioContext({sampleRate})] returns *)
  tokenFetch : bool;          (* GET /api/assemblyai/token gives a token *)
  transcriberConnect : bool;  (* [transcriber.connect()] resolves *)
  speechRecognition : bool;   (* the Web Speech API is present *)
  recognitionStarts : bool;   (* the recogniser fires [start], not [error] *)
  mediaRecorderCtor : bool    (* [new MediaRecorder(...)] returns *)
}.

(** How an awaited [fetch] of a transcription settles. *)
Inductive FetchResult : Type :=
| FetchRejected                   (* the request itself fails *)
| NotOk (statusText : string)     (* [!response.ok] *)
| JsonRejected                    (* [response.json()] rejects *)
| Json (text : option string).    (* the parsed body and its [text] field *)

End Js.

(** ** Numbers *)

(** A Number of JavaScript is a binary64 value of IEEE 754: a zero, an
    infinity, NaN, or a finite [m * 2^e] with a sign.  The operations
    round to nearest, ties to even. *)
Module Float64.

Definition t : Type := spec_float.

Definition prec : Z := 53.
Definition emax : Z := 1024.

(** The literal [0]. *)
Definition zero : t := S754_zero false.

(** [x + y], [x * y], [x / y], [Math.sqrt(x)] and [Math.abs(x)]. *)
Definition add : t -> t -> t := SFadd prec emax.
Definition mul : t -> t -> t := SFmul prec emax.
Definition div : t -> t -> t := SFdiv prec emax.
Definition sqrt : t -> t := SFsqrt prec emax.
Definition abs : t -> t := SFabs.

(** [x > y]: false when one of them is NaN. *)
Definition gtb (x y : t) : bool := SFltb y x.

(** The Number of an integer (exact up to 2^53). *)
Definition ofZ (n : Z) : t := binary_normalize prec emax n 0 false.

(** The Number of a rational: the quotient, in binary64, of the
    numerator and the denominator of its lowest terms.  It is the value
    itself for every float32 sample, whose numerator and denominator are
    Numbers, and the Number of a decimal literal such as [0.01], the
    Number nearest to 1/100. *)
Definition ofQ (q : Q) : t :=
  let q := Qred q in
  div (ofZ (Qnum q)) (ofZ (Zpos (Qden q))).

End Float64.

Arguments Float64.add : simpl never.
Arguments Float64.mul : simpl never.
Arguments Float64.div : simpl never.
Arguments Float64.sqrt : simpl never.
Arguments Float64.abs : simpl never.
Arguments Float64.gtb : simpl never.
Arguments Float64.ofZ : simpl never.
Arguments Float64.ofQ : simpl never.

(** ** Volume of a frame *)

Module Vad.

(** [buffer.length] as a Number. *)
Definition len (buffer : list Q) : Float64.t :=
  Float64.ofZ (Z.of_nat (length buffer)).

(** [calculateVolume] of the Whisper, AssemblyAI-Nano and Google
    services:
    [let sum = 0; for (...) sum += buffer[i] * buffer[i];
     return Math.sqrt(sum / buffer.length)]. *)
Definition calculateVolume (buffer : list Q) : Float64.t :=
  let sum :=
    fold_left (fun sum x =>
                 Float64.add sum (Float64.mul (Float64.ofQ x) (Float64.ofQ x)))
              buffer Float64.zero in
  Float64.sqrt (Float64.div sum (len buffer)).

(** The volume of the Realtime service's [processAudioData]:
    [sum += Math.abs(inputData[i]); average = sum / inputData.length]. *)
Definition average (inputData : list Q) : Float64.t :=
  let sum :=
    fold_left (fun sum x => Float64.add sum (Float64.abs (Float64.ofQ x)))
              inputData Float64.zero in
  Float64.div sum (len inputData).

End Vad.

(** ** AssemblyAINanoService.ts *)

Module Nano.
Import Js Vad.

Record Options : Type := {
  onTranscriptionStart : bool;   (* the optional callback is present *)
  language : string;
  sampleRate : Z;
  bufferSize : Z
}.

Record SpeechState : Type := {
  isSpeaking : bool;
  lastSpeechTime : Z;
  currentSentence : string;
  silenceStart : option Z
}.

Record State : Type := {
  audioContext : option AudioContext;
  mediaStream : option MediaStream;
  processor : option AudioNode;
  input : option AudioNode;
  isCurrentlyListening : bool;
  audioChunks : list (list Q);
  speechState : SpeechState
}.

(** Assignments to the variables of the closure. *)
Definition set_audioContext v (s : State) : State :=
  {| audioContext := v; mediaStream := mediaStream s;
     processor := processor s; input := input s;
     isCurrentlyListening := isCurrentlyListening s;
     audioChunks := audioChunks s; speechState := speechState s |}.
Definition set_mediaStream v (s : State) : State :=
  {| audioContext := audioContext s; mediaStream := v;
     processor := processor s; input := input s;
     isCurrentlyListening := isCurrentlyListening s;
     audioChunks := audioChunks s; speechState := speechState s |}.
Definition set_processor v (s : State) : State :=
  {| audioContext := audioContext s; mediaStream := mediaStream s;
     processor := v; input := input s;
     isCurrentlyListening := isCurrentlyListening s;
     audioChunks := audioChunks s; speechState := speechState s |}.
Definition set_input v (s : State) : State :=
  {| audioContext := audioContext s; mediaStream := mediaStream s;
     processor := processor s; input := v;
     isCurrentlyListening := isCurrentlyListening s;
     audioChunks := audioChunks s; speechState := speechState s |}.
Definition set_isCurrentlyListening v (s : State) : State :=
  {| audioContext := audioContext s; mediaStream := mediaStream s;
     processor := processor s; input := input s; isCurrentlyListening := v;
     audioChunks := audioChunks s; speechState := speechState s |}.
Definition set_audioChunks v (s : State) : State :=
  {| audioContext := audioContext s; mediaStream := mediaStream s;
     processor := processor s; input := input s;
     isCurrentlyListening := isCurrentlyListening s; audioChunks := v;
     speechState := speechState s |}.
Definition set_speechState v (s : State) : State :=
  {| audioContext := audioContext s; mediaStream := mediaStream s;
     processor := processor s; input := input s;
     isCurrentlyListening := isCurrentlyListening s;
     audioChunks := audioChunks s; speechState := v |}.
Definition set_isSpeaking v (s : State) : State :=
  let t := speechState s in
  set_speechState
    {| isSpeaking := v; lastSpeechTime := lastSpeechTime t;
       currentSentence := currentSentence t;
       silenceStart := silenceStart t |} s.
Definition set_lastSpeechTime v (s : State) : State :=
  let t := speechState s in
  set_speechState
    {| isSpeaking := isSpeaking t; lastSpeechTime := v;
       currentSentence := currentSentence t;
       silenceStart := silenceStart t |} s.
Definition set_currentSentence v (s : State) : State :=
  let t := speechState s in
  set_speechState
    {| isSpeaking := isSpeaking t; lastSpeechTime := lastSpeechTime t;
       currentSentence := v; silenceStart := silenceStart t |} s.
Definition set_silenceStart v (s : State) : State :=
  let t := speechState s in
  set_speechState
    {| isSpeaking := isSpeaking t; lastSpeechTime := lastSpeechTime t;
       currentSentence := currentSentence t; silenceStart := v |} s.

(** The state [createAssemblyAINanoService] starts from. *)
Definition create : State :=
  {| audioContext := None; mediaStream := None; processor := None;
     input := None; isCurrentlyListening := false; audioChunks := [];
     speechState := {| isSpeaking := false; lastSpeechTime := 0;
                       currentSentence := ""; silenceStart := None |} |}.

(** Constants for speech detection. *)
Definition noiseThreshold : Float64.t := Float64.ofQ (1 # 100).
Definition silenceThreshold : Z := 1500.

(** [finalizeSentence], up to its [await fetch(...)].  A RangeError of
    the encoder would reject the promise before anything is sent. *)
Definition finalizeSentence (o : Options) : M State unit :=
  s ← get;
  if (length (audioChunks s) =? 0)%nat then mret tt else
  (* Reset speech state *)
  modify (set_isSpeaking false);;
  modify (set_silenceStart None);;
  (* Convert audio chunks to a single buffer *)
  let audioBuffer := concat (audioChunks s) in
  (* Clear audio chunks *)
  modify (set_audioChunks []);;
  (* Convert to WAV format *)
  match Wav.float32ToWav audioBuffer (sampleRate o) with
  | None => mret tt
  | Some wavBuffer =>
      (* Notify that transcription is starting *)
      when (onTranscriptionStart o) (emit OnTranscriptionStart);;
      (* Send to server for AssemblyAI Nano API processing *)
      emit (Fetch "/api/assemblyai/transcribe" wavBuffer None)
  end.

(** The rest of [finalizeSentence], run when the fetch settles. *)
Definition fetchSettled (r : FetchResult) : M State unit :=
  match r with
  | Json (Some text) =>
      if truthy text then
        s ← get;
        let sentence := (currentSentence (speechState s) ++ text ++ " ")%string in
        modify (set_currentSentence sentence);;
        emit (OnTranscriptUpdate (trim sentence))
      else mret tt
  | Json None => mret tt
  | FetchRejected | NotOk _ | JsonRejected =>
      emit (ConsoleError "Error transcribing audio with AssemblyAI Nano:")
  end.

(** [processAudioData(inputData)] at time [now]. *)
Definition processAudioData (o : Options) (inputData : list Q) (now : Z)
  : M State unit :=
  (* Add the audio chunk to the buffer *)
  modify (fun s => set_audioChunks (audioChunks s ++ [inputData]) s);;
  (* Is the user speaking? *)
  let volume := calculateVolume inputData in
  if Float64.gtb volume noiseThreshold then
    (* User is speaking *)
    modify (set_isSpeaking true);;
    modify (set_lastSpeechTime now);;
    modify (set_silenceStart None)
  else
    s ← get;
    if isSpeaking (speechState s) then
      (* User was speaking but has stopped *)
      match silenceStart (speechState s) with
      | None => modify (set_silenceStart (Some now))
      | Some since =>
          if (now - since >? silenceThreshold)%Z
          then finalizeSentence o   (* Silence has been detected for long enough *)
          else mret tt
      end
    else mret tt.

(** [start()]. *)
Definition start (o : Options) (p : Platform) : M State Outcome :=
  s ← get;
  if isCurrentlyListening s then mret Resolved else
  (* Request microphone access *)
  if negb (getUserMedia p) then
    emit (ConsoleError "Error starting AssemblyAI Nano service:");;
    mret (Rejected "getUserMedia")
  else
    modify (set_mediaStream (Some mediaStreamHandle));;
    emit GetUserMedia;;
    (* Create audio context *)
    if negb (audioContextCtor p) then
      emit (ConsoleError "Error starting AssemblyAI Nano service:");;
      mret (Rejected "AudioContext")
    else
      modify (set_audioContext (Some Running));;
      emit (NewAudioContext (sampleRate o));;
      (* Create audio source, create script processor *)
      modify (set_input (Some audioNodeHandle));;
      modify (set_processor (Some audioNodeHandle));;
      (* Connect nodes *)
      emit Connect;;
      (* Update state *)
      modify (set_isCurrentlyListening true);;
      modify (set_currentSentence "");;
      mret Resolved.

(** [stop()]. *)
Definition stop (o : Options) : M State unit :=
  s ← get;
  if negb (isCurrentlyListening s) then mret tt else
  (* Disconnect and clean up *)
  when (nonNull (processor s) && nonNull (input s)) (emit Disconnect);;
  when (nonNull (mediaStream s)) (emit TrackStop);;
  (* Close audio context *)
  when (notClosed (audioContext s)) (emit AudioContextClose);;
  (* Reset state *)
  modify (set_audioContext None);;
  modify (set_mediaStream None);;
  modify (set_processor None);;
  modify (set_input None);;
  modify (set_isCurrentlyListening false);;
  modify (set_audioChunks []);;
  (* Finalize any remaining audio *)
  s ← get;
  when (isSpeaking (speechState s)) (finalizeSentence o).

Definition isListening (s : State) : bool := isCurrentlyListening s.

End Nano.

(** ** WhisperService.ts *)

Module Whisper.
Import Js Vad.

Record Options : Type := {
  onTranscriptionStart : bool;   (* the optional callback is present *)
  apiKey : string;
  language : string;
  sampleRate : Z;
  bufferSize : Z;
  debug : bool
}.

Record SpeechState : Type := {
  isSpeaking : bool;
  lastSpeechTime : Z;
  currentSentence : string;
  silenceStart : option Z
}.

(** [finalizationTimer] holds the handle of the last [setTimeout]; the
    handle stays in the variable after the timer has fired. *)
Variant Timeout : Type := timeoutHandle.

Record State : Type := {
  audioContext : option AudioContext;
  mediaStream : option MediaStream;
  processor : option AudioNode;
  input : option AudioNode;
  isCurrentlyListening : bool;
  audioChunks : list (list Q);
  finalizationTimer : option Timeout;
  currentLanguage : string;
  speechState : SpeechState
}.

(** Assignments to the variables of the closure. *)
Definition set_audioContext v (s : State) : State :=
  {| audioContext := v; mediaStream := mediaStream s;
     processor := processor s; input := input s;
     isCurrentlyListening := isCurrentlyListening s;
     audioChunks := audioChunks s; finalizationTimer := finalizationTimer s;
     currentLanguage := currentLanguage s; speechState := speechState s |}.
Definition set_mediaStream v (s : State) : State :=
  {| audioContext := audioContext s; mediaStream := v;
     processor := processor s; input := input s;
     isCurrentlyListening := isCurrentlyListening s;
     audioChunks := audioChunks s; finalizationTimer := finalizationTimer s;
     currentLanguage := currentLanguage s; speechState := speechState s |}.
Definition set_processor v (s : State) : State :=
  {| audioContext := audioContext s; mediaStream := mediaStream s;
     processor := v; input := input s;
     isCurrentlyListening := isCurrentlyListening s;
     audioChunks := audioChunks s; finalizationTimer := finalizationTimer s;
     currentLanguage := currentLanguage s; speechState := speechState s |}.
Definition set_input v (s : State) : State :=
  {| audioContext := audioContext s; mediaStream := mediaStream s;
     processor := processor s; input := v;
     isCurrentlyListening := isCurrentlyListening s;
     audioChunks := audioChunks s; finalizationTimer := finalizationTimer s;
     currentLanguage := currentLanguage s; speechState := speechState s |}.
Definition set_isCurrentlyListening v (s : State) : State :=
  {| audioContext := audioContext s; mediaStream := mediaStream s;
     processor := processor s; input := input s; isCurrentlyListening := v;
     audioChunks := audioChunks s; finalizationTimer := finalizationTimer s;
     currentLanguage := currentLanguage s; speechState := speechState s |}.
Definition set_audioChunks v (s : State) : State :=
  {| audioContext := audioContext s; mediaStream := mediaStream s;
     processor := processor s; input := input s;
     isCurrentlyListening := isCurrentlyListening s; audioChunks := v;
     finalizationTimer := finalizationTimer s;
     currentLanguage := currentLanguage s; speechState := speechState s |}.
Definition set_finalizationTimer v (s : State) : State :=
  {| audioContext := audioContext s; mediaStream := mediaStream s;
     processor := processor s; input := input s;
     isCurrentlyListening := isCurrentlyListening s;
     audioChunks := audioChunks s; finalizationTimer := v;
     currentLanguage := currentLanguage s; speechState := speechState s |}.
Definition set_currentLanguage v (s : State) : State :=
  {| audioContext := audioContext s; mediaStream := mediaStream s;
     processor := processor s; input := input s;
     isCurrentlyListening := isCurrentlyListening s;
     audioChunks := audioChunks s; finalizationTimer := finalizationTimer s;
     currentLanguage := v; speechState := speechState s |}.
Definition set_speechState v (s : State) : State :=
  {| audioContext := audioContext s; mediaStream := mediaStream s;
     processor := processor s; input := input s;
     isCurrentlyListening := isCurrentlyListening s;
     audioChunks := audioChunks s; finalizationTimer := finalizationTimer s;
     currentLanguage := currentLanguage s; speechState := v |}.
Definition set_isSpeaking v (s : State) : State :=
  let t := speechState s in
  set_speechState
    {| isSpeaking := v; lastSpeechTime := lastSpeechTime t;
       currentSentence := currentSentence t;
       silenceStart := silenceStart t |} s.
Definition set_lastSpeechTime v (s : State) : State :=
  let t := speechState s in
  set_speechState
    {| isSpeaking := isSpeaking t; lastSpeechTime := v;
       currentSentence := currentSentence t;
       silenceStart := silenceStart t |} s.
Definition set_currentSentence v (s : State) : State :=
  let t := speechState s in
  set_speechState
    {| isSpeaking := isSpeaking t; lastSpeechTime := lastSpeechTime t;
       currentSentence := v; silenceStart := silenceStart t |} s.
Definition set_silenceStart v (s : State) : State :=
  let t := speechState s in
  set_speechState
    {| isSpeaking := isSpeaking t; lastSpeechTime := lastSpeechTime t;
       currentSentence := currentSentence t; silenceStart := v |} s.

(** The state [createWhisperService] starts from. *)
Definition create (o : Options) : State :=
  {| audioContext := None; mediaStream := None; processor := None;
     input := None; isCurrentlyListening := false; audioChunks := [];
     finalizationTimer := None; currentLanguage := language o;
     speechState := {| isSpeaking := false; lastSpeechTime := 0;
                       currentSentence := ""; silenceStart := None |} |}.

(** Constants for speech detection. *)
Definition noiseThreshold : Float64.t := Float64.ofQ (5 # 1000).
Definition silenceThreshold : Z := 1000.
Definition maxRecordingTime : Z := 3000.

(** [finalizeSentence], up to its [await fetch(...)]. *)
Definition finalizeSentence (o : Options) : M State unit :=
  s ← get;
  if (length (audioChunks s) =? 0)%nat then mret tt else
  (* Reset speech state *)
  modify (set_isSpeaking false);;
  modify (set_silenceStart None);;
  (* Convert audio chunks to a single buffer *)
  let audioBuffer := concat (audioChunks s) in
  (* Clear audio chunks *)
  modify (set_audioChunks []);;
  (* Convert to WAV format *)
  match Wav.float32ToWav audioBuffer (sampleRate o) with
  | None => mret tt
  | Some wavBuffer =>
      (* Notify that transcription is starting *)
      when (onTranscriptionStart o) (emit OnTranscriptionStart);;
      (* Send to server for Whisper API processing *)
      emit (Fetch "/api/whisper" wavBuffer (Some (currentLanguage s)))
  end.

(** The rest of [finalizeSentence], run when the fetch settles. *)
Definition fetchSettled (r : FetchResult) : M State unit :=
  match r with
  | Json (Some text) =>
      if truthy text then
        s ← get;
        let sentence := (currentSentence (speechState s) ++ text ++ " ")%string in
        modify (set_currentSentence sentence);;
        emit (OnTranscriptUpdate (trim sentence))
      else mret tt
  | Json None => mret tt
  | FetchRejected | NotOk _ | JsonRejected =>
      emit (ConsoleError "Error transcribing audio with Whisper:")
  end.

(** [processAudioData(inputData)] at time [now]. *)
Definition processAudioData (o : Options) (inputData : list Q) (now : Z)
  : M State unit :=
  (* Add the audio chunk to the buffer *)
  modify (fun s => set_audioChunks (audioChunks s ++ [inputData]) s);;
  s ← get;
  (* Enough audio collected to force finalization? *)
  if (50 <? length (audioChunks s))%nat then finalizeSentence o else
  (* Is the user speaking? *)
  let volume := calculateVolume inputData in
  if Float64.gtb volume noiseThreshold then
    (* User is speaking *)
    modify (set_isSpeaking true);;
    modify (set_lastSpeechTime now);;
    modify (set_silenceStart None)
  else
    if isSpeaking (speechState s) then
      (* User was speaking but has stopped *)
      match silenceStart (speechState s) with
      | None => modify (set_silenceStart (Some now))
      | Some since =>
          if (now - since >? silenceThreshold)%Z
          then finalizeSentence o   (* Silence has been detected for long enough *)
          else mret tt
      end
    else mret tt.

(** The callback of [setTimeout(..., maxRecordingTime)]. *)
Definition timerFired (o : Options) : M State unit :=
  s ← get;
  when (0 <? length (audioChunks s))%nat (finalizeSentence o).

(** [start()]. *)
Definition start (o : Options) (p : Platform) : M State Outcome :=
  s ← get;
  if isCurrentlyListening s then mret Resolved else
  (* Request microphone access *)
  if negb (getUserMedia p) then
    emit (ConsoleError "Error starting Whisper service:");;
    mret (Rejected "getUserMedia")
  else
    modify (set_mediaStream (Some mediaStreamHandle));;
    emit GetUserMedia;;
    (* Create audio context *)
    if negb (audioContextCtor p) then
      emit (ConsoleError "Error starting Whisper service:");;
      mret (Rejected "AudioContext")
    else
      modify (set_audioContext (Some Running));;
      emit (NewAudioContext (sampleRate o));;
      (* Create audio source, create script processor *)
      modify (set_input (Some audioNodeHandle));;
      modify (set_processor (Some audioNodeHandle));;
      (* Connect nodes *)
      emit Connect;;
      (* Update state *)
      modify (set_isCurrentlyListening true);;
      modify (set_currentSentence "");;
      modify (set_audioChunks []);;
      (* Set up a timer to force finalization after maxRecordingTime *)
      when (nonNull (finalizationTimer s)) (emit ClearTimeout);;
      modify (set_finalizationTimer (Some timeoutHandle));;
      emit (SetTimeout maxRecordingTime);;
      mret Resolved.

(** [stop()]. *)
Definition stop (o : Options) : M State unit :=
  s ← get;
  if negb (isCurrentlyListening s) then mret tt else
  (* Clear the finalization timer *)
  when (nonNull (finalizationTimer s))
       (emit ClearTimeout;; modify (set_finalizationTimer None));;
  (* Finalize any remaining audio *)
  when (0 <? length (audioChunks s))%nat (finalizeSentence o);;
  (* Disconnect and clean up *)
  when (nonNull (processor s) && nonNull (input s)) (emit Disconnect);;
  (* Stop the media stream *)
  when (nonNull (mediaStream s)) (emit TrackStop);;
  (* Close the audio context *)
  when (notClosed (audioContext s)) (emit AudioContextClose);;
  (* Reset state *)
  modify (set_processor None);;
  modify (set_input None);;
  modify (set_mediaStream None);;
  modify (set_audioContext None);;
  modify (set_isCurrentlyListening false).

Definition isListening (s : State) : bool := isCurrentlyListening s.

Definition updateLanguage (newLanguage : string) : M State unit :=
  modify (set_currentLanguage newLanguage).

End Whisper.

(** ** GoogleSpeechService.ts *)

Module Google.
Import Js Vad.

Record Options : Type := {
  language : string;
  sampleRate : Z;
  bufferSize : Z
}.

Record SpeechState : Type := {
  isSpeaking : bool;
  lastSpeechTime : Z;
  currentSentence : string;
  silenceStart : option Z;
  isRecording : bool
}.

(** [mediaRecorder.state] of the recorder the variable refers to. *)
Variant MediaRecorder : Type := Recording | Inactive.

Record State : Type := {
  audioContext : option AudioContext;
  mediaStream : option MediaStream;
  processor : option AudioNode;
  input : option AudioNode;
  isCurrentlyListening : bool;
  audioChunks : list (list Q);
  mediaRecorder : option MediaRecorder;
  recordedChunks : list (list Z);      (* Blob[]: the bytes of each blob *)
  speechState : SpeechState
}.

(** Assignments to the variables of the closure. *)
Definition set_audioContext v (s : State) : State :=
  {| audioContext := v; mediaStream := mediaStream s;
     processor := processor s; input := input s;
     isCurrentlyListening := isCurrentlyListening s;
     audioChunks := audioChunks s; mediaRecorder := mediaRecorder s;
     recordedChunks := recordedChunks s; speechState := speechState s |}.
Definition set_mediaStream v (s : State) : State :=
  {| audioContext := audioContext s; mediaStream := v;
     processor := processor s; input := input s;
     isCurrentlyListening := isCurrentlyListening s;
     audioChunks := audioChunks s; mediaRecorder := mediaRecorder s;
     recordedChunks := recordedChunks s; speechState := speechState s |}.
Definition set_processor v (s : State) : State :=
  {| audioContext := audioContext s; mediaStream := mediaStream s;
     processor := v; input := input s;
     isCurrentlyListening := isCurrentlyListening s;
     audioChunks := audioChunks s; mediaRecorder := mediaRecorder s;
     recordedChunks := recordedChunks s; speechState := speechState s |}.
Definition set_input v (s : State) : State :=
  {| audioContext := audioContext s; mediaStream := mediaStream s;
     processor := processor s; input := v;
     isCurrentlyListening := isCurrentlyListening s;
     audioChunks := audioChunks s; mediaRecorder := mediaRecorder s;
     recordedChunks := recordedChunks s; speechState := speechState s |}.
Definition set_isCurrentlyListening v (s : State) : State :=
  {| audioContext := audioContext s; mediaStream := mediaStream s;
     processor := processor s; input := input s; isCurrentlyListening := v;
     audioChunks := audioChunks s; mediaRecorder := mediaRecorder s;
     recordedChunks := recordedChunks s; speechState := speechState s |}.
Definition set_audioChunks v (s : State) : State :=
  {| audioContext := audioContext s; mediaStream := mediaStream s;
     processor := processor s; input := input s;
     isCurrentlyListening := isCurrentlyListening s; audioChunks := v;
     mediaRecorder := mediaRecorder s; recordedChunks := recordedChunks s;
     speechState := speechState s |}.
Definition set_mediaRecorder v (s : State) : State :=
  {| audioContext := audioContext s; mediaStream := mediaStream s;
     processor := processor s; input := input s;
     isCurrentlyListening := isCurrentlyListening s;
     audioChunks := audioChunks s; mediaRecorder := v;
     recordedChunks := recordedChunks s; speechState := speechState s |}.
Definition set_recordedChunks v (s : State) : State :=
  {| audioContext := audioContext s; mediaStream := mediaStream s;
     processor := processor s; input := input s;
     isCurrentlyListening := isCurrentlyListening s;
     audioChunks := audioChunks s; mediaRecorder := mediaRecorder s;
     recordedChunks := v; speechState := speechState s |}.
Definition set_speechState v (s : State) : State :=
  {| audioContext := audioContext s; mediaStream := mediaStream s;
     processor := processor s; input := input s;
     isCurrentlyListening := isCurrentlyListening s;
     audioChunks := audioChunks s; mediaRecorder := mediaRecorder s;
     recordedChunks := recordedChunks s; speechState := v |}.
Definition set_isSpeaking v (s : State) : State :=
  let t := speechState s in
  set_speechState
    {| isSpeaking := v; lastSpeechTime := lastSpeechTime t;
       currentSentence := currentSentence t; silenceStart := silenceStart t;
       isRecording := isRecording t |} s.
Definition set_lastSpeechTime v (s : State) : State :=
  let t := speechState s in
  set_speechState
    {| isSpeaking := isSpeaking t; lastSpeechTime := v;
       currentSentence := currentSentence t; silenceStart := silenceStart t;
       isRecording := isRecording t |} s.
Definition set_currentSentence v (s : State) : State :=
  let t := speechState s in
  set_speechState
    {| isSpeaking := isSpeaking t; lastSpeechTime := lastSpeechTime t;
       currentSentence := v; silenceStart := silenceStart t;
       isRecording := isRecording t |} s.
Definition set_silenceStart v (s : State) : State :=
  let t := speechState s in
  set_speechState
    {| isSpeaking := isSpeaking t; lastSpeechTime := lastSpeechTime t;
       currentSentence := currentSentence t; silenceStart := v;
       isRecording := isRecording t |} s.
Definition set_isRecording v (s : State) : State :=
  let t := speechState s in
  set_speechState
    {| isSpeaking := isSpeaking t; lastSpeechTime := lastSpeechTime t;
       currentSentence := currentSentence t; silenceStart := silenceStart t;
       isRecording := v |} s.

(** The state [createGoogleSpeechService] starts from. *)
Definition create : State :=
  {| audioContext := None; mediaStream := None; processor := None;
     input := None; isCurrentlyListening := false; audioChunks := [];
     mediaRecorder := None; recordedChunks := [];
     speechState := {| isSpeaking := false; lastSpeechTime := 0;
                       currentSentence := ""; silenceStart := None;
                       isRecording := false |} |}.

(** Constants for speech detection. *)
Definition noiseThreshold : Float64.t := Float64.ofQ (1 # 100).
Definition silenceThreshold : Z := 2000.

(** [startRecording()]; [recorderCtor] tells whether
    [new MediaRecorder(mediaStream, {mimeType: 'audio/webm'})] returns. *)
Definition startRecording (recorderCtor : bool) : M State unit :=
  s ← get;
  if negb (nonNull (mediaStream s)) then mret tt else
  if negb recorderCtor then emit (ConsoleError "Error starting recording:") else
  (* Create a new MediaRecorder *)
  modify (set_mediaRecorder (Some Recording));;
  (* Start recording *)
  emit RecorderStart;;
  modify (set_isRecording true);;
  (* Set a timeout to stop recording after a certain amount of time *)
  emit (SetTimeout 10000).

(** [finalizeSentence], up to its [await fetch(...)]. *)
Definition finalizeSentence (o : Options) : M State unit :=
  s ← get;
  if (length (recordedChunks s) =? 0)%nat then mret tt else
  (* Reset speech state *)
  modify (set_isSpeaking false);;
  modify (set_silenceStart None);;
  modify (set_isRecording false);;
  (* Create a blob from the recorded chunks *)
  let audioBlob := concat (recordedChunks s) in
  modify (set_recordedChunks []);;
  (* Send to server for Google Cloud Speech API processing *)
  emit (Fetch "/api/google/transcribe" audioBlob (Some (language o))).

(** The rest of [finalizeSentence], run when the fetch settles. *)
Definition fetchSettled (recorderCtor : bool) (r : FetchResult)
  : M State unit :=
  match r with
  | Json (Some text) =>
      if truthy text then
        s ← get;
        let sentence := (currentSentence (speechState s) ++ text ++ " ")%string in
        modify (set_currentSentence sentence);;
        emit (OnTranscriptUpdate (trim sentence))
      else mret tt
  | Json None => mret tt
  | FetchRejected | NotOk _ | JsonRejected =>
      emit (ConsoleError "Error transcribing audio with Google Cloud Speech:")
  end;;
  (* Start recording again *)
  s ← get;
  when (isCurrentlyListening s && nonNull (mediaRecorder s))
       (startRecording recorderCtor).

(** [mediaRecorder.ondataavailable]. *)
Definition dataAvailable (data : list Z) : M State unit :=
  when (0 <? length data)%nat
       (modify (fun s => set_recordedChunks (recordedChunks s ++ [data]) s)).

(** [mediaRecorder.onstop]. *)
Definition recorderStopped (o : Options) : M State unit :=
  s ← get;
  when (isRecording (speechState s)) (finalizeSentence o).

(** The callback of [setTimeout(..., 10000)] in [startRecording]. *)
Definition recordingTimeout : M State unit :=
  s ← get;
  match mediaRecorder s with
  | Some Recording => emit RecorderStop;; modify (set_mediaRecorder (Some Inactive))
  | _ => mret tt
  end.

(** [processAudioData(inputData)] at time [now]. *)
Definition processAudioData (o : Options) (inputData : list Q) (now : Z)
  : M State unit :=
  (* Add the audio chunk to the buffer *)
  modify (fun s => set_audioChunks (audioChunks s ++ [inputData]) s);;
  (* Is the user speaking? *)
  let volume := calculateVolume inputData in
  if Float64.gtb volume noiseThreshold then
    (* User is speaking *)
    modify (set_isSpeaking true);;
    modify (set_lastSpeechTime now);;
    modify (set_silenceStart None)
  else
    s ← get;
    if isSpeaking (speechState s) then
      (* User was speaking but has stopped *)
      match silenceStart (speechState s) with
      | None => modify (set_silenceStart (Some now))
      | Some since =>
          if (now - since >? silenceThreshold)%Z
          then finalizeSentence o   (* Silence has been detected for long enough *)
          else mret tt
      end
    else mret tt.

(** [start()]; [recorderCtor] as in [startRecording]. *)
Definition start (o : Options) (recorderCtor : bool) (p : Platform)
  : M State Outcome :=
  s ← get;
  if isCurrentlyListening s then mret Resolved else
  (* Request microphone access *)
  if negb (getUserMedia p) then
    emit (ConsoleError "Error starting Google Speech service:");;
    mret (Rejected "getUserMedia")
  else
    modify (set_mediaStream (Some mediaStreamHandle));;
    emit GetUserMedia;;
    (* Create audio context *)
    if negb (audioContextCtor p) then
      emit (ConsoleError "Error starting Google Speech service:");;
      mret (Rejected "AudioContext")
    else
      modify (set_audioContext (Some Running));;
      emit (NewAudioContext (sampleRate o));;
      (* Create audio source, create script processor *)
      modify (set_input (Some audioNodeHandle));;
      modify (set_processor (Some audioNodeHandle));;
      (* Connect nodes *)
      emit Connect;;
      (* Start recording *)
      startRecording recorderCtor;;
      (* Update state *)
      modify (set_isCurrentlyListening true);;
      modify (set_currentSentence "");;
      mret Resolved.

(** [stop()]. *)
Definition stop (o : Options) : M State unit :=
  s ← get;
  if negb (isCurrentlyListening s) then mret tt else
  (* Stop recording *)
  match mediaRecorder s with
  | Some Recording => emit RecorderStop
  | _ => mret tt
  end;;
  (* Disconnect and clean up *)
  when (nonNull (processor s) && nonNull (input s)) (emit Disconnect);;
  when (nonNull (mediaStream s)) (emit TrackStop);;
  (* Close audio context *)
  when (notClosed (audioContext s)) (emit AudioContextClose);;
  (* Reset state *)
  modify (set_audioContext None);;
  modify (set_mediaStream None);;
  modify (set_processor None);;
  modify (set_input None);;
  modify (set_mediaRecorder None);;
  modify (set_isCurrentlyListening false);;
  modify (set_audioChunks []);;
  (* Finalize any remaining audio *)
  when (0 <? length (recordedChunks s))%nat (finalizeSentence o).

Definition isListening (s : State) : bool := isCurrentlyListening s.

End Google.

(** ** RealtimeService.ts *)

Module Realtime.
Import Js Vad.

Record Options : Type := {
  sampleRate : Z;
  bufferSize : Z;
  noiseThreshold : Float64.t;
  silenceThreshold : Z
}.

(** The defaults of the destructuring in [createRealtimeService]. *)
Definition defaultNoiseThreshold : Float64.t := Float64.ofQ (15 # 1000).
Definition defaultSilenceThreshold : Z := 1500.

Record SpeechState : Type := {
  isSpeaking : bool;
  lastSpeechTime : Z;
  currentSentence : string;
  silenceStart : option Z
}.

Record State : Type := {
  audioContext : option AudioContext;
  mediaStream : option MediaStream;
  source : option AudioNode;
  processor : option AudioNode;
  listening : bool;
  fullTranscript : string;
  speechState : SpeechState
}.

(** Assignments to the variables of the closure. *)
Definition set_audioContext v (s : State) : State :=
  {| audioContext := v; mediaStream := mediaStream s; source := source s;
     processor := processor s; listening := listening s;
     fullTranscript := fullTranscript s; speechState := speechState s |}.
Definition set_mediaStream v (s : State) : State :=
  {| audioContext := audioContext s; mediaStream := v; source := source s;
     processor := processor s; listening := listening s;
     fullTranscript := fullTranscript s; speechState := speechState s |}.
Definition set_source v (s : State) : State :=
  {| audioContext := audioContext s; mediaStream := mediaStream s;
     source := v; processor := processor s; listening := listening s;
     fullTranscript := fullTranscript s; speechState := speechState s |}.
Definition set_processor v (s : State) : State :=
  {| audioContext := audioContext s; mediaStream := mediaStream s;
     source := source s; processor := v; listening := listening s;
     fullTranscript := fullTranscript s; speechState := speechState s |}.
Definition set_listening v (s : State) : State :=
  {| audioContext := audioContext s; mediaStream := mediaStream s;
     source := source s; processor := processor s; listening := v;
     fullTranscript := fullTranscript s; speechState := speechState s |}.
Definition set_fullTranscript v (s : State) : State :=
  {| audioContext := audioContext s; mediaStream := mediaStream s;
     source := source s; processor := processor s; listening := listening s;
     fullTranscript := v; speechState := speechState s |}.
Definition set_speechState v (s : State) : State :=
  {| audioContext := audioContext s; mediaStream := mediaStream s;
     source := source s; processor := processor s; listening := listening s;
     fullTranscript := fullTranscript s; speechState := v |}.
Definition set_isSpeaking v (s : State) : State :=
  let t := speechState s in
  set_speechState
    {| isSpeaking := v; lastSpeechTime := lastSpeechTime t;
       currentSentence := currentSentence t;
       silenceStart := silenceStart t |} s.
Definition set_lastSpeechTime v (s : State) : State :=
  let t := speechState s in
  set_speechState
    {| isSpeaking := isSpeaking t; lastSpeechTime := v;
       currentSentence := currentSentence t;
       silenceStart := silenceStart t |} s.
Definition set_currentSentence v (s : State) : State :=
  let t := speechState s in
  set_speechState
    {| isSpeaking := isSpeaking t; lastSpeechTime := lastSpeechTime t;
       currentSentence := v; silenceStart := silenceStart t |} s.
Definition set_silenceStart v (s : State) : State :=
  let t := speechState s in
  set_speechState
    {| isSpeaking := isSpeaking t; lastSpeechTime := lastSpeechTime t;
       currentSentence := currentSentence t; silenceStart := v |} s.

(** The state [createRealtimeService] starts from. *)
Definition create : State :=
  {| audioContext := None; mediaStream := None; source := None;
     processor := None; listening := false; fullTranscript := "";
     speechState := {| isSpeaking := false; lastSpeechTime := 0;
                       currentSentence := ""; silenceStart := None |} |}.

(** [finalizeSentence()]; [timestamp] is
    [new Date().toLocaleTimeString()]. *)
Definition finalizeSentence (timestamp : string) : M State unit :=
  s ← get;
  if isSpeaking (speechState s) then
    (* Generate a simple placeholder for detected speech *)
    let sentence := ("[Speech detected at " ++ timestamp ++ "] ")%string in
    (* Add to full transcript *)
    let transcript := (fullTranscript s ++ sentence)%string in
    modify (set_fullTranscript transcript);;
    (* Update the transcript *)
    emit (OnTranscriptUpdate transcript);;
    (* Reset speech state *)
    modify (set_isSpeaking false);;
    modify (set_currentSentence "");;
    modify (set_silenceStart None)
  else mret tt.

(** [processAudioData(inputData)] at time [now]. *)
Definition processAudioData (o : Options) (inputData : list Q) (now : Z)
    (timestamp : string) : M State unit :=
  (* Calculate audio energy (volume) *)
  let average := average inputData in
  s ← get;
  (* Detect if there's sound above the threshold *)
  if Float64.gtb average (noiseThreshold o) then
    (* Speech detected *)
    when (negb (isSpeaking (speechState s)))
         (modify (set_isSpeaking true);; modify (set_silenceStart None));;
    modify (set_lastSpeechTime now)
  else
    if isSpeaking (speechState s) then
      (* Potential silence after speech *)
      match silenceStart (speechState s) with
      | None => modify (set_silenceStart (Some now))
      | Some since =>
          if (now - since >? silenceThreshold o)%Z
          then finalizeSentence timestamp   (* Silence threshold reached *)
          else mret tt
      end
    else mret tt.

(** [start()]. *)
Definition start (o : Options) (p : Platform) : M State Outcome :=
  s ← get;
  if listening s then mret Resolved else
  (* Get microphone access *)
  if negb (getUserMedia p) then
    emit (ConsoleError "Error starting Realtime service:");;
    mret (Rejected "getUserMedia")
  else
    modify (set_mediaStream (Some mediaStreamHandle));;
    emit GetUserMedia;;
    (* Create audio context *)
    if negb (audioContextCtor p) then
      emit (ConsoleError "Error starting Realtime service:");;
      mret (Rejected "AudioContext")
    else
      modify (set_audioContext (Some Running));;
      emit (NewAudioContext (sampleRate o));;
      (* Create source from microphone, create processor node *)
      modify (set_source (Some audioNodeHandle));;
      modify (set_processor (Some audioNodeHandle));;
      (* Connect nodes *)
      emit Connect;;
      (* Set listening state *)
      modify (set_listening true);;
      mret Resolved.

(** [stop()]; [timestamp] as in [finalizeSentence]. *)
Definition stop (timestamp : string) : M State unit :=
  s ← get;
  if negb (listening s) then mret tt else
  (* Finalize any in-progress speech *)
  when (isSpeaking (speechState s)) (finalizeSentence timestamp);;
  (* Disconnect and clean up audio nodes *)
  when (nonNull (processor s) && nonNull (source s)) (emit Disconnect);;
  (* Stop all tracks in the media stream *)
  when (nonNull (mediaStream s)) (emit TrackStop);;
  (* Close audio context *)
  when (notClosed (audioContext s)) (emit AudioContextClose);;
  (* Reset references *)
  modify (set_processor None);;
  modify (set_source None);;
  modify (set_mediaStream None);;
  modify (set_audioContext None);;
  (* Set listening state *)
  modify (set_listening false).

Definition isListening (s : State) : bool := listening s.

End Realtime.

(** ** AssemblyAIService.ts *)

Module AssemblyAI.
Import Js.

Record Options : Type := {
  apiKey : string;
  sampleRate : Z;
  bufferSize : Z;
  wordBoost : list string
}.

(** How the transcriber in [transcriber] was made. *)
Variant RealtimeTranscriber : Type :=
| withToken       (* [new RealtimeTranscriber({token, ...})] *)
| withApiKey.     (* [client.realtime.transcriber({...})] *)

Record State : Type := {
  transcriber : option RealtimeTranscriber;
  audioContext : option AudioContext;
  mediaStream : option MediaStream;
  source : option AudioNode;
  processor : option AudioNode;
  listening : bool;
  fullTranscript : string
}.

(** Assignments to the variables of the closure. *)
Definition set_transcriber v (s : State) : State :=
  {| transcriber := v; audioContext := audioContext s;
     mediaStream := mediaStream s; source := source s;
     processor := processor s; listening := listening s;
     fullTranscript := fullTranscript s |}.
Definition set_audioContext v (s : State) : State :=
  {| transcriber := transcriber s; audioContext := v;
     mediaStream := mediaStream s; source := source s;
     processor := processor s; listening := listening s;
     fullTranscript := fullTranscript s |}.
Definition set_mediaStream v (s : State) : State :=
  {| transcriber := transcriber s; audioContext := audioContext s;
     mediaStream := v; source := source s; processor := processor s;
     listening := listening s; fullTranscript := fullTranscript s |}.
Definition set_source v (s : State) : State :=
  {| transcriber := transcriber s; audioContext := audioContext s;
     mediaStream := mediaStream s; source := v; processor := processor s;
     listening := listening s; fullTranscript := fullTranscript s |}.
Definition set_processor v (s : State) : State :=
  {| transcriber := transcriber s; audioContext := audioContext s;
     mediaStream := mediaStream s; source := source s; processor := v;
     listening := listening s; fullTranscript := fullTranscript s |}.
Definition set_listening v (s : State) : State :=
  {| transcriber := transcriber s; audioContext := audioContext s;
     mediaStream := mediaStream s; source := source s;
     processor := processor s; listening := v;
     fullTranscript := fullTranscript s |}.
Definition set_fullTranscript v (s : State) : State :=
  {| transcriber := transcriber s; audioContext := audioContext s;
     mediaStream := mediaStream s; source := source s;
     processor := processor s; listening := listening s;
     fullTranscript := v |}.

(** The state [createAssemblyAIService] starts from. *)
Definition create : State :=
  {| transcriber := None; audioContext := None; mediaStream := None;
     source := None; processor := None; listening := false;
     fullTranscript := "" |}.

(** [convertFloat32ToInt16]: the elements of the Int16Array. *)
Definition toInt16 (z : Z) : Z :=
  let u := (z mod 65536)%Z in if (u <? 32768)%Z then u else (u - 65536)%Z.

Definition convertFloat32ToInt16 (buffer : list Q) : list Z :=
  map (fun x => toInt16 (DataView.truncate (Qmin 1 (Qmax (-1) x) * 32767))) buffer.

(** [stop()]. *)
Definition stop : M State unit :=
  s ← get;
  if negb (listening s) then mret tt else
  (* Close AssemblyAI connection *)
  when (nonNull (transcriber s))
       (emit TranscriberClose;; modify (set_transcriber None));;
  (* Disconnect and clean up audio nodes *)
  when (nonNull (processor s) && nonNull (source s)) (emit Disconnect);;
  (* Stop all tracks in the media stream *)
  when (nonNull (mediaStream s)) (emit TrackStop);;
  (* Close audio context *)
  when (notClosed (audioContext s)) (emit AudioContextClose);;
  (* Reset references *)
  modify (set_processor None);;
  modify (set_source None);;
  modify (set_mediaStream None);;
  modify (set_audioContext None);;
  (* Set listening state *)
  modify (set_listening false).

(** [start()]. *)
Definition start (o : Options) (p : Platform) : M State Outcome :=
  s ← get;
  if listening s then mret Resolved else
  (* Validate API key *)
  if negb (truthy (apiKey o)) then
    emit (ConsoleError "Error starting AssemblyAI service:");;
    mret (Rejected "AssemblyAI API key is required")
  else
  (* Get microphone access *)
  if negb (getUserMedia p) then
    emit (ConsoleError "Error starting AssemblyAI service:");;
    mret (Rejected "getUserMedia")
  else
    modify (set_mediaStream (Some mediaStreamHandle));;
    emit GetUserMedia;;
    (* Create a temporary token for client-side use *)
    (if tokenFetch p then modify (set_transcriber (Some withToken))
     else
       emit (ConsoleError "Error getting token from server:");;
       (* Fallback to direct API key usage *)
       modify (set_transcriber (Some withApiKey)));;
    (* Connect to AssemblyAI *)
    emit TranscriberConnect;;
    if negb (transcriberConnect p) then
      emit (ConsoleError "Error starting AssemblyAI service:");;
      mret (Rejected "connect")
    else
    (* Create audio context *)
    if negb (audioContextCtor p) then
      emit (ConsoleError "Error starting AssemblyAI service:");;
      mret (Rejected "AudioContext")
    else
      modify (set_audioContext (Some Running));;
      emit (NewAudioContext (sampleRate o));;
      (* Create source from microphone, create processor node *)
      modify (set_source (Some audioNodeHandle));;
      modify (set_processor (Some audioNodeHandle));;
      (* Connect nodes *)
      emit Connect;;
      (* Set listening state *)
      modify (set_listening true);;
      mret Resolved.

(** [transcriber.on('error', ...)]. *)
Definition transcriberError : M State unit :=
  emit (ConsoleError "AssemblyAI error:");;
  stop.

(** [transcriber.on('transcript', ...)]; [final] is
    [message_type === 'FinalTranscript']. *)
Definition transcript (text : string) (final : bool) : M State unit :=
  if negb (truthy text) then mret tt else
  if final then
    s ← get;
    (* Add final transcript to the full transcript *)
    let full := (fullTranscript s ++ " " ++ text)%string in
    modify (set_fullTranscript full);;
    (* Update the transcript *)
    emit (OnTranscriptUpdate (trim full))
  else mret tt.

(** [processor.onaudioprocess]. *)
Definition audioProcess (inputData : list Q) : M State unit :=
  s ← get;
  if negb (nonNull (transcriber s)) then mret tt else
  (* Send audio data to AssemblyAI *)
  emit (SendAudio (convertFloat32ToInt16 inputData)).

Definition isListening (s : State) : bool := listening s.

End AssemblyAI.

(** ** WebSpeechService.ts *)

Module WebSpeech.
Import Js.

Record Options : Type := {
  onTranscriptionStart : bool;   (* the optional callback is present *)
  continuous : bool;
  interimResults : bool;
  language : string
}.

Variant SpeechRecognition : Type := recognitionHandle.

Record State : Type := {
  recognition : option SpeechRecognition;
  listening : bool;
  fullTranscript : string
}.

(** Assignments to the variables of the closure. *)
Definition set_recognition v (s : State) : State :=
  {| recognition := v; listening := listening s;
     fullTranscript := fullTranscript s |}.
Definition set_listening v (s : State) : State :=
  {| recognition := recognition s; listening := v;
     fullTranscript := fullTranscript s |}.
Definition set_fullTranscript v (s : State) : State :=
  {| recognition := recognition s; listening := listening s;
     fullTranscript := v |}.

(** The state [createWebSpeechService] starts from. *)
Definition create : State :=
  {| recognition := None; listening := false; fullTranscript := "" |}.

(** The handlers [initialize] installs on the recogniser. *)
Definition onstart : M State unit := modify (set_listening true).
Definition onend : M State unit := modify (set_listening false).
Definition onerror : M State unit :=
  emit (ConsoleError "Web Speech recognition error:");;
  modify (set_listening false).

(** [recognition.onresult]: [finalTranscript] and [interimTranscript] are
    the concatenations the handler's loop builds from the event. *)
Definition onresult (finalTranscript interimTranscript : string)
  : M State unit :=
  s ← get;
  if truthy finalTranscript then
    (* If we have a final transcript, add it to the full transcript *)
    let full := (fullTranscript s ++ " " ++ finalTranscript)%string in
    modify (set_fullTranscript full);;
    emit (OnTranscriptUpdate (trim full))
  else if truthy interimTranscript then
    (* For interim results, send the combined transcript *)
    emit (OnTranscriptUpdate
            (trim (fullTranscript s ++ " " ++ interimTranscript)))
  else mret tt.

(** [start()]: the promise the method awaits is resolved by the
    recogniser's [start] event and rejected by its [error] event; the
    handlers of [initialize] run on the same events. *)
Definition start (o : Options) (p : Platform) : M State Outcome :=
  s ← get;
  if listening s then mret Resolved else
  (* Initialize if not already initialized *)
  if negb (nonNull (recognition s)) && negb (speechRecognition p) then
    emit (ConsoleError "Error starting Web Speech recognition:");;
    mret (Rejected "Web Speech API is not supported in this browser")
  else
    modify (set_recognition (Some recognitionHandle));;
    (* Notify that transcription is starting *)
    when (onTranscriptionStart o) (emit OnTranscriptionStart);;
    (* Start recognition *)
    emit RecognitionStart;;
    (* Wait for recognition to start *)
    if recognitionStarts p then
      onstart;;
      mret Resolved
    else
      onerror;;
      emit (ConsoleError "Error starting Web Speech recognition:");;
      mret (Rejected "Web Speech recognition failed to start")
.

(** [stop()]: the recogniser is asked to stop; [listening] changes when
    its [end] event arrives ([onend]). *)
Definition stop : M State unit :=
  s ← get;
  if negb (listening s) || negb (nonNull (recognition s)) then mret tt else
  (* Stop recognition *)
  emit RecognitionStop.

Definition isListening (s : State) : bool := listening s.

End WebSpeech.

(** ** SpeechRecognitionService.ts *)

Module Orchestrator.
Import Js.

(** [STTApi]. *)
Inductive STTApi : Type :=
| webSpeech | realtime | assemblyAI | whisper | assemblyAINano | googleSpeech.

#[global] Instance STTApi_eq_dec : EqDecision STTApi.
Proof. solve_decision. Defined.

Record Options : Type := {
  onDurationUpdate : bool;       (* the optional callback is present *)
  onTranscriptionStart : bool;   (* the optional callback is present *)
  apiKey : string;
  sampleRate : Z;
  bufferSize : Z;
  language : string;
  wordBoost : list string;
  debug : bool;
  openAIApiKey : string          (* process.env.NEXT_PUBLIC_OPENAI_API_KEY *)
}.

(** [api === 'webSpeech']. *)
Definition isWebSpeech (api : STTApi) : bool :=
  match api with webSpeech => true | _ => false end.

(** A service instance: the options its closure captured and its state. *)
Inductive Service : Type :=
| WebSpeechInstance (o : WebSpeech.Options) (s : WebSpeech.State)
| RealtimeInstance (o : Realtime.Options) (s : Realtime.State)
| AssemblyAIInstance (o : AssemblyAI.Options) (s : AssemblyAI.State)
| WhisperInstance (o : Whisper.Options) (s : Whisper.State)
| NanoInstance (o : Nano.Options) (s : Nano.State)
| GoogleInstance (o : Google.Options) (s : Google.State).

(** A method of one kind of service, as a method of [Service]. *)
Definition wrap {S A} (inj : S -> Service) (r : A * S * list Effect)
  : A * Service * list Effect :=
  (result r, inj (state r), effects r).

(** The interface every instance offers: [start], [stop], [isListening].
    [timestamp] is the time of day the Realtime service prints. *)
Definition serviceStart (p : Platform) : M Service Outcome :=
  fun svc =>
    match svc with
    | WebSpeechInstance o s => wrap (WebSpeechInstance o) (WebSpeech.start o p s)
    | RealtimeInstance o s => wrap (RealtimeInstance o) (Realtime.start o p s)
    | AssemblyAIInstance o s => wrap (AssemblyAIInstance o) (AssemblyAI.start o p s)
    | WhisperInstance o s => wrap (WhisperInstance o) (Whisper.start o p s)
    | NanoInstance o s => wrap (NanoInstance o) (Nano.start o p s)
    | GoogleInstance o s =>
        wrap (GoogleInstance o) (Google.start o (mediaRecorderCtor p) p s)
    end.

Definition serviceStop (timestamp : string) : M Service unit :=
  fun svc =>
    match svc with
    | WebSpeechInstance o s => wrap (WebSpeechInstance o) (WebSpeech.stop s)
    | RealtimeInstance o s => wrap (RealtimeInstance o) (Realtime.stop timestamp s)
    | AssemblyAIInstance o s => wrap (AssemblyAIInstance o) (AssemblyAI.stop s)
    | WhisperInstance o s => wrap (WhisperInstance o) (Whisper.stop o s)
    | NanoInstance o s => wrap (NanoInstance o) (Nano.stop o s)
    | GoogleInstance o s => wrap (GoogleInstance o) (Google.stop o s)
    end.

Definition serviceIsListening (svc : Service) : bool :=
  match svc with
  | WebSpeechInstance _ s => WebSpeech.isListening s
  | RealtimeInstance _ s => Realtime.isListening s
  | AssemblyAIInstance _ s => AssemblyAI.isListening s
  | WhisperInstance _ s => Whisper.isListening s
  | NanoInstance _ s => Nano.isListening s
  | GoogleInstance _ s => Google.isListening s
  end.

(** ['updateLanguage' in currentService]: only the Whisper instance has
    the method. *)
Definition hasUpdateLanguage (svc : Service) : bool :=
  match svc with WhisperInstance _ _ => true | _ => false end.

Definition serviceUpdateLanguage (newLanguage : string) : M Service unit :=
  fun svc =>
    match svc with
    | WhisperInstance o s =>
        wrap (WhisperInstance o) (Whisper.updateLanguage newLanguage s)
    | _ => (tt, svc, [])
    end.

(** The microphone stream an instance holds a reference to.  The Web
    Speech recogniser captures by itself while it is started. *)
Definition serviceMediaStream (svc : Service) : option MediaStream :=
  match svc with
  | WebSpeechInstance _ s => None
  | RealtimeInstance _ s => Realtime.mediaStream s
  | AssemblyAIInstance _ s => AssemblyAI.mediaStream s
  | WhisperInstance _ s => Whisper.mediaStream s
  | NanoInstance _ s => Nano.mediaStream s
  | GoogleInstance _ s => Google.mediaStream s
  end.

Definition serviceAudioContext (svc : Service) : option AudioContext :=
  match svc with
  | WebSpeechInstance _ s => None
  | RealtimeInstance _ s => Realtime.audioContext s
  | AssemblyAIInstance _ s => AssemblyAI.audioContext s
  | WhisperInstance _ s => Whisper.audioContext s
  | NanoInstance _ s => Nano.audioContext s
  | GoogleInstance _ s => Google.audioContext s
  end.

(** The backend an instance implements. *)
Definition serviceApi (svc : Service) : STTApi :=
  match svc with
  | WebSpeechInstance _ _ => webSpeech
  | RealtimeInstance _ _ => realtime
  | AssemblyAIInstance _ _ => assemblyAI
  | WhisperInstance _ _ => whisper
  | NanoInstance _ _ => assemblyAINano
  | GoogleInstance _ _ => googleSpeech
  end.

(** [setInterval] handle. *)
Variant Interval : Type := intervalHandle.

(** The variables of the closure of [createSpeechRecognitionService].
    Service instances are objects: [services] is the store of the
    instances created so far, [currentService] a reference into it.  An
    instance the factory no longer refers to stays in the store, as it
    stays reachable from the platform's pending callbacks. *)
Record State : Type := {
  services : list Service;
  currentApi : STTApi;
  currentService : option nat;
  startTime : option Z;
  endTime : option Z;
  durationMs : Z;
  durationInterval : option Interval
}.

(** Assignments to the variables of the closure. *)
Definition set_services v (s : State) : State :=
  {| services := v; currentApi := currentApi s;
     currentService := currentService s; startTime := startTime s;
     endTime := endTime s; durationMs := durationMs s;
     durationInterval := durationInterval s |}.
Definition set_currentApi v (s : State) : State :=
  {| services := services s; currentApi := v;
     currentService := currentService s; startTime := startTime s;
     endTime := endTime s; durationMs := durationMs s;
     durationInterval := durationInterval s |}.
Definition set_currentService v (s : State) : State :=
  {| services := services s; currentApi := currentApi s;
     currentService := v; startTime := startTime s; endTime := endTime s;
     durationMs := durationMs s; durationInterval := durationInterval s |}.
Definition set_startTime v (s : State) : State :=
  {| services := services s; currentApi := currentApi s;
     currentService := currentService s; startTime := v;
     endTime := endTime s; durationMs := durationMs s;
     durationInterval := durationInterval s |}.
Definition set_endTime v (s : State) : State :=
  {| services := services s; currentApi := currentApi s;
     currentService := currentService s; startTime := startTime s;
     endTime := v; durationMs := durationMs s;
     durationInterval := durationInterval s |}.
Definition set_durationMs v (s : State) : State :=
  {| services := services s; currentApi := currentApi s;
     currentService := currentService s; startTime := startTime s;
     endTime := endTime s; durationMs := v;
     durationInterval := durationInterval s |}.
Definition set_durationInterval v (s : State) : State :=
  {| services := services s; currentApi := currentApi s;
     currentService := currentService s; startTime := startTime s;
     endTime := endTime s; durationMs := durationMs s;
     durationInterval := v |}.

(** [language.split('-')[0]]. *)
Fixpoint beforeDash (s : string) : string :=
  match s with
  | EmptyString => EmptyString
  | String c rest =>
      if Ascii.eqb c "-"%char then EmptyString else String c (beforeDash rest)
  end.

(** The instance [createService(api)] builds. *)
Definition newService (o : Options) (api : STTApi) : Service :=
  match api with
  | webSpeech =>
      WebSpeechInstance
        {| WebSpeech.onTranscriptionStart := false;
           WebSpeech.continuous := true;
           WebSpeech.interimResults := true;
           WebSpeech.language := language o |}
        WebSpeech.create
  | realtime =>
      RealtimeInstance
        {| Realtime.sampleRate := sampleRate o;
           Realtime.bufferSize := bufferSize o;
           Realtime.noiseThreshold := Realtime.defaultNoiseThreshold;
           Realtime.silenceThreshold := Realtime.defaultSilenceThreshold |}
        Realtime.create
  | assemblyAI =>
      AssemblyAIInstance
        {| AssemblyAI.apiKey := apiKey o;
           AssemblyAI.sampleRate := sampleRate o;
           AssemblyAI.bufferSize := bufferSize o;
           AssemblyAI.wordBoost := wordBoost o |}
        AssemblyAI.create
  | whisper =>
      let wo :=
        {| Whisper.onTranscriptionStart := onTranscriptionStart o;
           Whisper.apiKey := openAIApiKey o;
           Whisper.language := beforeDash (language o);
           Whisper.sampleRate := sampleRate o;
           Whisper.bufferSize := bufferSize o;
           Whisper.debug := debug o |} in
      WhisperInstance wo (Whisper.create wo)
  | assemblyAINano =>
      NanoInstance
        {| Nano.onTranscriptionStart := onTranscriptionStart o;
           Nano.language := beforeDash (language o);
           Nano.sampleRate := sampleRate o;
           Nano.bufferSize := bufferSize o |}
        Nano.create
  | googleSpeech =>
      GoogleInstance
        {| Google.language := language o;
           Google.sampleRate := sampleRate o;
           Google.bufferSize := bufferSize o |}
        Google.create
  end.

(** [createService(api)]: the new instance enters the store; the result
    is the reference to it. *)
Definition createService (o : Options) (api : STTApi) : M State nat :=
  s ← get;
  modify (set_services (services s ++ [newService o api]));;
  mret (length (services s)).

(** A method call on the instance behind a reference. *)
Definition call {A} (ref : nat) (m : M Service A) (default : A) : M State A :=
  fun s =>
    match services s !! ref with
    | Some svc =>
        let '(a, svc', e) := m svc in
        (a, set_services (<[ref := svc']> (services s)) s, e)
    | None => (default, s, [])
    end.

(** Truthiness of a number variable: [if (startTime)]. *)
Definition truthyTime (t : option Z) : bool :=
  match t with Some n => negb (n =? 0)%Z | None => false end.

(** [startDurationTracking()] at time [now]. *)
Definition startDurationTracking (now : Z) : M State unit :=
  modify (set_startTime (Some now));;
  modify (set_durationMs 0);;
  (* Update duration every 100ms *)
  s ← get;
  when (nonNull (durationInterval s)) (emit ClearInterval);;
  modify (set_durationInterval (Some intervalHandle));;
  emit (SetInterval 100).

(** The callback of [setInterval(..., 100)], at time [now]. *)
Definition durationTick (o : Options) (now : Z) : M State unit :=
  s ← get;
  match startTime s with
  | Some t =>
      if negb (t =? 0)%Z then
        modify (set_durationMs (now - t));;
        when (onDurationUpdate o) (emit (OnDurationUpdate (now - t)))
      else mret tt
  | None => mret tt
  end.

(** [stopDurationTracking()] at time [now]. *)
Definition stopDurationTracking (o : Options) (now : Z) : M State unit :=
  modify (set_endTime (Some now));;
  s ← get;
  match startTime s with
  | Some t =>
      if truthyTime (startTime s) && truthyTime (endTime s) then
        modify (set_durationMs (now - t));;
        when (onDurationUpdate o) (emit (OnDurationUpdate (now - t)))
      else mret tt
  | None => mret tt
  end;;
  when (nonNull (durationInterval s))
       (emit ClearInterval;; modify (set_durationInterval None)).

(** [start()]: [p] answers the awaits of the current service's [start],
    [fallback] those of the Web Speech service started in the [catch]
    block. *)
Definition start (o : Options) (p fallback : Platform) (now : Z)
  : M State Outcome :=
  (* Create service if not already created *)
  s ← get;
  ref ← match currentService s with
        | Some ref => mret ref
        | None =>
            ref ← createService o (currentApi s);
            modify (set_currentService (Some ref));;
            mret ref
        end;
  (* Notify that transcription is starting *)
  when (onTranscriptionStart o) (emit OnTranscriptionStart);;
  (* Start the service *)
  r ← call ref (serviceStart p) (Rejected "TypeError");
  match r with
  | Resolved =>
      (* Start tracking duration *)
      startDurationTracking now;;
      mret Resolved
  | Rejected error =>
      emit (ConsoleError "Error starting service:");;
      (* If any service fails, try falling back to Web Speech API *)
      if negb (isWebSpeech (currentApi s)) then
        modify (set_currentApi webSpeech);;
        ref ← createService o webSpeech;
        modify (set_currentService (Some ref));;
        (* Notify that transcription is starting again with fallback *)
        when (onTranscriptionStart o) (emit OnTranscriptionStart);;
        r ← call ref (serviceStart fallback) (Rejected "TypeError");
        match r with
        | Resolved =>
            (* Start tracking duration *)
            startDurationTracking now;;
            mret Resolved
        | Rejected error => mret (Rejected error)
        end
      else mret (Rejected error)
  end.

(** [stop()] at time [now]. *)
Definition stop (o : Options) (now : Z) (timestamp : string) : M State unit :=
  s ← get;
  match currentService s with
  | Some ref =>
      call ref (serviceStop timestamp) tt;;
      (* Stop tracking duration *)
      stopDurationTracking o now
  | None => mret tt
  end.

(** [isListening()]. *)
Definition isListening (s : State) : bool :=
  match currentService s with
  | Some ref =>
      match services s !! ref with
      | Some svc => serviceIsListening svc
      | None => false
      end
  | None => false
  end.

(** [getApi()]. *)
Definition getApi (s : State) : STTApi := currentApi s.

(** [changeApi(api)] at time [now]. *)
Definition changeApi (o : Options) (api : STTApi) (now : Z)
    (timestamp : string) : M State unit :=
  (* Stop current service if it's listening *)
  s ← get;
  when (isListening s)
       (match currentService s with
        | Some ref => call ref (serviceStop timestamp) tt
        | None => mret tt
        end;;
        (* Stop tracking duration *)
        stopDurationTracking o now);;
  (* Update current API *)
  modify (set_currentApi api);;
  (* Create new service with the current API *)
  ref ← createService o api;
  modify (set_currentService (Some ref)).

(** [getDuration()]. *)
Definition getDuration (s : State) : Z := durationMs s.

(** [updateLanguage(newLanguage)] at time [now].  The assignment
    [options.language = newLanguage] does not reach the [language]
    constant the closure destructured, which [createService] reads. *)
Definition updateLanguage (o : Options) (newLanguage : string) (now : Z)
    (timestamp : string) : M State unit :=
  s ← get;
  (* If the service is listening, stop it *)
  when (isListening s)
       (match currentService s with
        | Some ref => call ref (serviceStop timestamp) tt
        | None => mret tt
        end;;
        stopDurationTracking o now);;
  (* If the current service has an updateLanguage method, use it *)
  match currentService s with
  | Some ref =>
      match services s !! ref with
      | Some svc =>
          if hasUpdateLanguage svc then
            call ref (serviceUpdateLanguage (beforeDash newLanguage)) tt
          else
            (* Otherwise, recreate the service with the new language *)
            ref ← createService o (currentApi s);
            modify (set_currentService (Some ref))
      | None => mret tt
      end
  | None =>
      ref ← createService o (currentApi s);
      modify (set_currentService (Some ref))
  end.

(** [forceFinalize()]. *)
Definition forceFinalize (timestamp : string) : M State unit :=
  s ← get;
  if negb (isListening s) then mret tt else
  match currentService s with
  | Some ref => call ref (serviceStop timestamp) tt
  | None => mret tt
  end.

(** [createSpeechRecognitionService(options)]: the closure after
    [currentService = createService(currentApi)]. *)
Definition create (o : Options) : State :=
  {| services := [newService o webSpeech]; currentApi := webSpeech;
     currentService := Some 0%nat; startTime := None; endTime := None;
     durationMs := 0; durationInterval := None |}.

End Orchestrator.

(** ** Vocabulary of the statements about the factory *)

Module OrchestratorSpec.
Import Js Orchestrator.

(** What the factory's [start] emits before it starts a service. *)
Definition notify (o : Options) : list Effect :=
  if onTranscriptionStart o then [OnTranscriptionStart] else [].

(** What [startDurationTracking] emits from state [s]. *)
Definition tracking (s : State) : list Effect :=
  (if nonNull (durationInterval s) then [ClearInterval] else [])
  ++ [SetInterval 100].

(** Sample inputs: the options of the page, a platform that grants
    everything and one whose microphone is denied. *)
Definition pageOptions : Options :=
  {| onDurationUpdate := true; onTranscriptionStart := true;
     apiKey := "key"; sampleRate := 16000; bufferSize := 4096;
     language := "en-US"; wordBoost := []; debug := true;
     openAIApiKey := "" |}.

Definition granted : Platform :=
  {| getUserMedia := true; audioContextCtor := true; tokenFetch := true;
     transcriberConnect := true; speechRecognition := true;
     recognitionStarts := true; mediaRecorderCtor := true |}.

Definition denied : Platform :=
  {| getUserMedia := false; audioContextCtor := true; tokenFetch := true;
     transcriberConnect := true; speechRecognition := true;
     recognitionStarts := true; mediaRecorderCtor := true |}.

(** The factory after [changeApi(api)] on a fresh closure. *)
Definition selected (api : STTApi) : State :=
  state (changeApi pageOptions api 0 "" (create pageOptions)).

(** A closure of the factory is well formed when [currentService] refers
    to an instance in the store and that instance implements
    [currentApi]. *)
Definition wf (s : State) : Prop :=
  exists ref svc,
    currentService s = Some ref /\
    services s !! ref = Some svc /\
    serviceApi svc = currentApi s.

End OrchestratorSpec.

(** ** Sessions: a service driven by the platform's events *)

Module Session.
Import Js.

Definition isFetch (e : Effect) : bool :=
  match e with Fetch _ _ _ => true | _ => false end.

Definition isTranscriptUpdate (e : Effect) : bool :=
  match e with OnTranscriptUpdate _ => true | _ => false end.

(** The requests a list of effects sends. *)
Definition fetches (es : list Effect) : nat := length (filter isFetch es).

(** A fetch that [failed]: rejected, answered with a status that is not
    2xx, or answered with a body that does not parse. *)
Definition failed (r : FetchResult) : bool :=
  match r with Json _ => false | FetchRejected | NotOk _ | JsonRejected => true end.

(** Sample frames of four samples: one above every noise threshold, one
    of silence. *)
Definition loud : list Q := [1 # 2; -1 # 2; 1 # 4; 0]%Q.
Definition quiet : list Q := [0; 0; 0; 0]%Q.

(** Options of the Realtime service with a given noise threshold. *)
Definition realtimeOptions (noiseThreshold : Float64.t) : Realtime.Options :=
  {| Realtime.sampleRate := 16000; Realtime.bufferSize := 4096;
     Realtime.noiseThreshold := noiseThreshold;
     Realtime.silenceThreshold := Realtime.defaultSilenceThreshold |}.

(** [n] frames of speech, one every 256 ms (4096 samples at 16 kHz),
    each with the time at which it arrives. *)
Definition sustained (n : nat) : list (list Q * Z) :=
  map (fun i => (loud, (256 * Z.of_nat i)%Z)) (seq 0 n).

(** The times of a list of frames, each later than the one before. *)
Fixpoint increasing (times : list Z) : bool :=
  match times with
  | t1 :: ((t2 :: _) as rest) => (t1 <? t2)%Z && increasing rest
  | _ => true
  end.

End Session.

(** A session of the AssemblyAI-Nano service: the instance and the
    number of transcription requests in flight.  The processor delivers
    frames while it is connected; a fetch settles only if one is in
    flight. *)
Module NanoSession.
Import Js Session.

Inductive Event : Type :=
| Start (p : Platform)
| AudioProcess (inputData : list Q) (now : Z)
| Stop
| FetchSettled (r : FetchResult).

Record State : Type := { adapter : Nano.State; inFlight : nat }.

Definition init : State := {| adapter := Nano.create; inFlight := 0 |}.

Definition after {A} (ss : State) (r : A * Nano.State * list Effect)
  : State * list Effect :=
  ({| adapter := state r; inFlight := inFlight ss + fetches (effects r) |},
   effects r).

Definition step (o : Nano.Options) (ev : Event) (ss : State)
  : State * list Effect :=
  match ev with
  | Start p => after ss (Nano.start o p (adapter ss))
  | AudioProcess inputData now =>
      if nonNull (Nano.processor (adapter ss))
      then after ss (Nano.processAudioData o inputData now (adapter ss))
      else (ss, [])
  | Stop => after ss (Nano.stop o (adapter ss))
  | FetchSettled r =>
      match inFlight ss with
      | O => (ss, [])
      | S n =>
          after {| adapter := adapter ss; inFlight := n |}
                (Nano.fetchSettled r (adapter ss))
      end
  end.

Fixpoint run (o : Nano.Options) (evs : list Event) (ss : State)
  : State * list Effect :=
  match evs with
  | [] => (ss, [])
  | ev :: rest =>
      let '(ss1, e1) := step o ev ss in
      let '(ss2, e2) := run o rest ss1 in
      (ss2, e1 ++ e2)
  end.

Definition options : Nano.Options :=
  {| Nano.onTranscriptionStart := true; Nano.language := "en";
     Nano.sampleRate := 16000; Nano.bufferSize := 4096 |}.

End NanoSession.

(** A session of the Whisper service. *)
Module WhisperSession.
Import Js Session.

Inductive Event : Type :=
| Start (p : Platform)
| AudioProcess (inputData : list Q) (now : Z)
| TimerFired
| Stop
| FetchSettled (r : FetchResult)
| UpdateLanguage (newLanguage : string).

Record State : Type := { adapter : Whisper.State; inFlight : nat }.

Definition init (o : Whisper.Options) : State :=
  {| adapter := Whisper.create o; inFlight := 0 |}.

Definition after {A} (ss : State) (r : A * Whisper.State * list Effect)
  : State * list Effect :=
  ({| adapter := state r; inFlight := inFlight ss + fetches (effects r) |},
   effects r).

Definition step (o : Whisper.Options) (ev : Event) (ss : State)
  : State * list Effect :=
  match ev with
  | Start p => after ss (Whisper.start o p (adapter ss))
  | AudioProcess inputData now =>
      if nonNull (Whisper.processor (adapter ss))
      then after ss (Whisper.processAudioData o inputData now (adapter ss))
      else (ss, [])
  | TimerFired =>
      if nonNull (Whisper.finalizationTimer (adapter ss))
      then after ss (Whisper.timerFired o (adapter ss))
      else (ss, [])
  | Stop => after ss (Whisper.stop o (adapter ss))
  | FetchSettled r =>
      match inFlight ss with
      | O => (ss, [])
      | S n =>
          after {| adapter := adapter ss; inFlight := n |}
                (Whisper.fetchSettled r (adapter ss))
      end
  | UpdateLanguage newLanguage =>
      after ss (Whisper.updateLanguage newLanguage (adapter ss))
  end.

Fixpoint run (o : Whisper.Options) (evs : list Event) (ss : State)
  : State * list Effect :=
  match evs with
  | [] => (ss, [])
  | ev :: rest =>
      let '(ss1, e1) := step o ev ss in
      let '(ss2, e2) := run o rest ss1 in
      (ss2, e1 ++ e2)
  end.

Definition options : Whisper.Options :=
  {| Whisper.onTranscriptionStart := true; Whisper.apiKey := "";
     Whisper.language := "en"; Whisper.sampleRate := 16000;
     Whisper.bufferSize := 4096; Whisper.debug := true |}.

End WhisperSession.

(** ** Vocabulary of the statements about the volume *)

Module VadSpec.

(** The sum of a list of Numbers, from left to right, and their mean. *)
Definition sum (l : list Float64.t) : Float64.t :=
  fold_left Float64.add l Float64.zero.

Definition mean (l : list Float64.t) : Float64.t :=
  Float64.div (sum l) (Float64.ofZ (Z.of_nat (length l))).

(** The root mean square of a frame, [sqrt(mean(sample_i^2))], and the
    mean of the magnitudes of its samples, [mean(|sample_i|)], as
    binary64 arithmetic gives them. *)
Definition rms (frame : list Q) : Float64.t :=
  Float64.sqrt
    (mean (map (fun x => Float64.mul (Float64.ofQ x) (Float64.ofQ x)) frame)).

Definition meanAbs (frame : list Q) : Float64.t :=
  mean (map (fun x => Float64.abs (Float64.ofQ x)) frame).

(** What a step of [processAudioData] at time [now] does to the speech
    state when it takes the frame for speech ([speech] is true) or for
    silence: a frame of speech leaves the service speaking, with [now]
    as the time of the last speech; a frame of silence leaves that time
    as it was; and a service that was not speaking is speaking
    afterwards exactly when the frame was speech. *)
Definition classified (speech : bool) (now : Z)
    (wasSpeaking : bool) (lastSpeechTimeBefore : Z)
    (isSpeaking : bool) (lastSpeechTime : Z) : Prop :=
  (wasSpeaking = false -> isSpeaking = speech) /\
  (speech = true -> isSpeaking = true /\ lastSpeechTime = now) /\
  (speech = false -> lastSpeechTime = lastSpeechTimeBefore).

End VadSpec.

(** ** Vocabulary of the statements about [changeApi] *)

Module OwnershipSpec.
Import Js.

(** The effects by which a service takes the microphone: a stream from
    [getUserMedia], or the start of the Web Speech recogniser. *)
Definition acquires (e : Effect) : bool :=
  match e with GetUserMedia | RecognitionStart => true | _ => false end.

End OwnershipSpec.

(** ** The factory driven by its caller and by the platform *)

Module OrchestratorSession.
Import Js Orchestrator.

(** What the platform delivers to a service instance: the callbacks the
    instance registered. *)
Inductive ServiceEvent : Type :=
| RecognitionStarted                    (* recognition.onstart *)
| RecognitionEnded                      (* recognition.onend *)
| RecognitionError                      (* recognition.onerror *)
| RecognitionResult (finalTranscript interimTranscript : string)
| AudioProcess (inputData : list Q) (now : Z) (timestamp : string)
| FetchSettled (r : FetchResult)
| TimerFired                            (* a [setTimeout] callback *)
| TranscriberTranscript (text : string) (final : bool)
| TranscriberError
| RecorderData (data : list Z)          (* mediaRecorder.ondataavailable *)
| RecorderStopped.                      (* mediaRecorder.onstop *)

(** The callback of the instance that the event runs; an instance has no
    callback for the events of the other kinds of service.  [recorderCtor]
    tells whether the Google service can make a new MediaRecorder. *)
Definition deliver (recorderCtor : bool) (ev : ServiceEvent)
  : M Service unit :=
  fun svc =>
    match svc, ev with
    | WebSpeechInstance o s, RecognitionStarted =>
        wrap (WebSpeechInstance o) (WebSpeech.onstart s)
    | WebSpeechInstance o s, RecognitionEnded =>
        wrap (WebSpeechInstance o) (WebSpeech.onend s)
    | WebSpeechInstance o s, RecognitionError =>
        wrap (WebSpeechInstance o) (WebSpeech.onerror s)
    | WebSpeechInstance o s, RecognitionResult final interim =>
        wrap (WebSpeechInstance o) (WebSpeech.onresult final interim s)
    | RealtimeInstance o s, AudioProcess inputData now timestamp =>
        wrap (RealtimeInstance o)
             (Realtime.processAudioData o inputData now timestamp s)
    | AssemblyAIInstance o s, AudioProcess inputData _ _ =>
        wrap (AssemblyAIInstance o) (AssemblyAI.audioProcess inputData s)
    | AssemblyAIInstance o s, TranscriberTranscript text final =>
        wrap (AssemblyAIInstance o) (AssemblyAI.transcript text final s)
    | AssemblyAIInstance o s, TranscriberError =>
        wrap (AssemblyAIInstance o) (AssemblyAI.transcriberError s)
    | WhisperInstance o s, AudioProcess inputData now _ =>
        wrap (WhisperInstance o) (Whisper.processAudioData o inputData now s)
    | WhisperInstance o s, TimerFired =>
        wrap (WhisperInstance o) (Whisper.timerFired o s)
    | WhisperInstance o s, FetchSettled r =>
        wrap (WhisperInstance o) (Whisper.fetchSettled r s)
    | NanoInstance o s, AudioProcess inputData now _ =>
        wrap (NanoInstance o) (Nano.processAudioData o inputData now s)
    | NanoInstance o s, FetchSettled r =>
        wrap (NanoInstance o) (Nano.fetchSettled r s)
    | GoogleInstance o s, AudioProcess inputData now _ =>
        wrap (GoogleInstance o) (Google.processAudioData o inputData now s)
    | GoogleInstance o s, FetchSettled r =>
        wrap (GoogleInstance o) (Google.fetchSettled recorderCtor r s)
    | GoogleInstance o s, TimerFired =>
        wrap (GoogleInstance o) (Google.recordingTimeout s)
    | GoogleInstance o s, RecorderData data =>
        wrap (GoogleInstance o) (Google.dataAvailable data s)
    | GoogleInstance o s, RecorderStopped =>
        wrap (GoogleInstance o) (Google.recorderStopped o s)
    | _, _ => (tt, svc, [])
    end.

(** One step of a session of the factory: a call of one of its methods,
    the callback of its interval, or an event delivered to one of the
    instances it created.  A call of [start] is one step: no other step
    runs while the promise it returns is pending. *)
Inductive Step : Type :=
| CallStart (p fallback : Platform) (now : Z)
| CallStop (now : Z) (timestamp : string)
| CallChangeApi (api : STTApi) (now : Z) (timestamp : string)
| CallUpdateLanguage (newLanguage : string) (now : Z) (timestamp : string)
| CallForceFinalize (timestamp : string)
| IntervalFired (now : Z)
| Deliver (ref : nat) (recorderCtor : bool) (ev : ServiceEvent).

Definition step (o : Options) (st : Step) : M State unit :=
  match st with
  | CallStart p fallback now => start o p fallback now;; mret tt
  | CallStop now timestamp => stop o now timestamp
  | CallChangeApi api now timestamp => changeApi o api now timestamp
  | CallUpdateLanguage newLanguage now timestamp =>
      updateLanguage o newLanguage now timestamp
  | CallForceFinalize timestamp => forceFinalize timestamp
  | IntervalFired now =>
      s ← get;
      if nonNull (durationInterval s) then durationTick o now else mret tt
  | Deliver ref recorderCtor ev => call ref (deliver recorderCtor ev) tt
  end.

Fixpoint run (o : Options) (steps : list Step) : M State unit :=
  match steps with
  | [] => mret tt
  | st :: rest => step o st;; run o rest
  end.

(** At most one instance that captures audio itself is listening, and it
    is the current one. *)
Definition exclusive (s : State) : Prop :=
  forall ref svc,
    services s !! ref = Some svc ->
    serviceApi svc <> webSpeech ->
    serviceIsListening svc = true ->
    currentService s = Some ref.

(** The invariant of a session: the closure is well formed and the
    listening instance that captures audio is the current one. *)
Definition inv (s : State) : Prop := OrchestratorSpec.wf s /\ exclusive s.

End OrchestratorSession.

(** ** The result events of the Web Speech recogniser *)

Module WebSpeechResults.
Import Js.

(** [event.results[i]]: the transcript of its first alternative and its
    [isFinal] flag. *)
Record SpeechRecognitionResult : Type := {
  transcript : string;
  isFinal : bool
}.

(** [event]: [resultIndex] and [results]. *)
Record SpeechRecognitionEvent : Type := {
  resultIndex : nat;
  results : list SpeechRecognitionResult
}.

(** The loop of [recognition.onresult]:
    [for (let i = event.resultIndex; i < event.results.length; i++)],
    which builds [finalTranscript] and [interimTranscript]. *)
Definition collect (event : SpeechRecognitionEvent) : string * string :=
  fold_left
    (fun '(finalTranscript, interimTranscript) result =>
       if isFinal result
       then ((finalTranscript ++ transcript result)%string, interimTranscript)
       else (finalTranscript, (interimTranscript ++ transcript result)%string))
    (drop (resultIndex event) (results event))
    (EmptyString, EmptyString).

(** [recognition.onresult(event)]. *)
Definition onresultEvent (event : SpeechRecognitionEvent)
  : M WebSpeech.State unit :=
  let '(finalTranscript, interimTranscript) := collect event in
  WebSpeech.onresult finalTranscript interimTranscript.

(** The handler run on each event of a list, in order. *)
Fixpoint run (events : list SpeechRecognitionEvent) : M WebSpeech.State unit :=
  match events with
  | [] => mret tt
  | event :: rest => onresultEvent event;; run rest
  end.

(** What an event adds to the stored transcript: a space and its final
    text, when it has any. *)
Definition appended (event : SpeechRecognitionEvent) : string :=
  let finalTranscript := (collect event).1 in
  if truthy finalTranscript then (" " ++ finalTranscript)%string
  else EmptyString.

Fixpoint concatenation (l : list string) : string :=
  match l with
  | [] => EmptyString
  | x :: rest => (x ++ concatenation rest)%string
  end.

End WebSpeechResults.

(** ** UnifiedSTTChat.tsx: what the component computes for display *)

Module Display.

(** The value [Math.sqrt(radicand)], kept exact by its radicand, and the
    real number it stands for. *)
Record Root : Type := Sqrt { radicand : Q }.

Definition Root_val (v : Root) : R := sqrt (Q2R (radicand v)).

(** [n.toString()] of an integer. *)
Definition toString (n : Z) : string :=
  DecimalString.NilZero.string_of_int (Z.to_int n).

(** [s.padStart(targetLength, c)] with a pad string of one character. *)
Fixpoint repeatChar (c : ascii) (n : nat) : string :=
  match n with
  | O => EmptyString
  | S n => String c (repeatChar c n)
  end.

Definition padStart (s : string) (targetLength : nat) (c : ascii) : string :=
  if (targetLength <=? String.length s)%nat then s
  else (repeatChar c (targetLength - String.length s) ++ s)%string.

(** [formatDuration(ms)] of an integer number of milliseconds:
    [Math.floor] of a quotient is the floor division, [%] the remainder
    with the sign of the dividend. *)
Definition formatDuration (ms : Z) : string :=
  let totalSeconds := (ms / 1000)%Z in
  let minutes := (totalSeconds / 60)%Z in
  let seconds := Z.rem totalSeconds 60 in
  (* Get only 2 digits of ms *)
  let milliseconds := (Z.rem ms 1000 / 10)%Z in
  (padStart (toString minutes) 2 "0" ++ ":"
   ++ padStart (toString seconds) 2 "0" ++ "."
   ++ padStart (toString milliseconds) 2 "0")%string.

(** The volume [updateAudioLevel] computes from the bytes of
    [getByteTimeDomainData]:
    [value = (dataArray[i] - 128) / 128; sum += value * value;
     volume = Math.sqrt(sum / dataArray.length)]. *)
Definition audioLevel (dataArray : list Z) : Root :=
  let sum :=
    fold_left (fun sum b => let value := (inject_Z b - 128) / 128 in
                            sum + value * value)%Q
              dataArray 0%Q in
  Sqrt (sum / inject_Z (Z.of_nat (length dataArray))).

(** The two decimal digits of a number below 100. *)
Definition digit (n : Z) : ascii := ascii_of_nat (48 + Z.to_nat n).

Definition twoDigits (n : Z) : string :=
  String (digit (n / 10)) (String (digit (n mod 10)) EmptyString).

End Display.

(** ** ChatGPTService.ts: reading the event stream *)

Module EventStream.

(** The line feed, and the separator of the events, ['\n\n']. *)
Definition LF : ascii := "010"%char.

(** [s.split('\n\n')]: the pieces between the occurrences of the
    separator, found from left to right; there is always one piece. *)
Definition consFirst (c : ascii) (pieces : list string) : list string :=
  match pieces with
  | [] => [String c EmptyString]
  | piece :: rest => String c piece :: rest
  end.

Fixpoint split (s : string) : list string :=
  match s with
  | EmptyString => [EmptyString]
  | String c rest =>
      match rest with
      | String c' rest' =>
          if Ascii.eqb c LF && Ascii.eqb c' LF
          then EmptyString :: split rest'
          else consFirst c (split rest)
      | EmptyString => consFirst c (split rest)
      end
  end.

(** [line.slice(n)]. *)
Fixpoint slice (n : nat) (line : string) : string :=
  match n, line with
  | S n, String _ rest => slice n rest
  | _, _ => line
  end.

(** What [JSON.parse(data)] and the test of [parsed.content] give: an
    exception, a content that is falsy, or the text that
    [fullResponse += parsed.content] appends. *)
Inductive Parsed : Type :=
| Throws
| Falsy
| Content (text : string).

(** What the loop does to its caller. *)
Inductive Event : Type :=
| OnMessageUpdate (message : string)
| ConsoleError (message : string).

(** The variables of [sendMessage] that the loop updates. *)
Record State : Type := { buffer : string; fullResponse : string }.

Definition init : State :=
  {| buffer := EmptyString; fullResponse := EmptyString |}.

Section Reader.
(** [JSON.parse], as far as the loop uses it. *)
Variable parse : string -> Parsed.

(** [for (const line of lines) { ... }], with its [break]. *)
Fixpoint processLines (lines : list string) (fullResponse : string)
  : string * list Event :=
  match lines with
  | [] => (fullResponse, [])
  | line :: rest =>
      if String.prefix "data: " line then
        let data := slice 6 line in
        if String.eqb data "[DONE]" then (fullResponse, [])
        else
          match parse data with
          | Content text =>
              let fullResponse := (fullResponse ++ text)%string in
              let '(final, events) := processLines rest fullResponse in
              (final, OnMessageUpdate fullResponse :: events)
          | Falsy => processLines rest fullResponse
          | Throws =>
              let '(final, events) := processLines rest fullResponse in
              (final, ConsoleError "Error parsing SSE data:" :: events)
          end
      else processLines rest fullResponse
  end.

(** One turn of the [while] loop for a chunk that is not the end of the
    stream: [value] is the text [decoder.decode] returns for it. *)
Definition readChunk (value : string) (st : State) : State * list Event :=
  (* Decode the chunk and add it to the buffer *)
  let buffer := (buffer st ++ value)%string in
  (* Process complete events in the buffer *)
  let lines := split buffer in
  let buffer := default EmptyString (last lines) in
  let lines := removelast lines in
  let '(fullResponse, events) := processLines lines (fullResponse st) in
  ({| buffer := buffer; fullResponse := fullResponse |}, events).

(** The loop, for the chunks the reader returns before [done]. *)
Fixpoint readAll (chunks : list string) (st : State) : State * list Event :=
  match chunks with
  | [] => (st, [])
  | value :: rest =>
      let '(st, events) := readChunk value st in
      let '(final, events') := readAll rest st in
      (final, events ++ events')
  end.

End Reader.

(** The text of a list of chunks. *)
Fixpoint text (chunks : list string) : string :=
  match chunks with
  | [] => EmptyString
  | value :: rest => (value ++ text rest)%string
  end.

(** The line of the event [[DONE]], and the lists of complete events in
    which it can only be the last one. *)
Definition doneLine : string := "data: [DONE]".

Definition doneLast (lines : list string) : Prop :=
  forall i, lines !! i = Some doneLine -> S i = length lines.

(** A text without line feed. *)
Fixpoint noLF (s : string) : bool :=
  match s with
  | EmptyString => true
  | String c rest => negb (Ascii.eqb c LF) && noLF rest
  end.

(** The responses after each of a list of contents: every content is
    appended to the response before it. *)
Fixpoint responses (fullResponse : string) (contents : list string)
  : list string :=
  match contents with
  | [] => []
  | content :: rest =>
      (fullResponse ++ content)%string
      :: responses (fullResponse ++ content)%string rest
  end.

(** The pieces of a split, joined again with the separator. *)
Fixpoint join (pieces : list string) : string :=
  match pieces with
  | [] => EmptyString
  | [piece] => piece
  | piece :: rest => (piece ++ String LF (String LF (join rest)))%string
  end.

End EventStream.

(** ** The route that streams a completion *)

Module OpenAIRoute.
Import EventStream.

(** [`data: ${data}\n\n`]. *)
Definition event (data : string) : string :=
  ("data: " ++ data ++ String LF (String LF EmptyString))%string.

(** What the [ReadableStream] of the route enqueues: one event for each
    delta whose content is not empty, then the event [[DONE]].
    [stringify content] stands for [JSON.stringify({ content })]. *)
Definition stream (stringify : string -> string) (deltas : list string)
  : list string :=
  map (fun content => event (stringify content))
      (filter (fun content => Js.truthy content = true) deltas)
  ++ [event "[DONE]"].

End OpenAIRoute.

(** ** ChatGPTService.ts: the state of the service *)

Module ChatGPT.
Import Js.

(** An [AbortController], by the order of its creation. *)
Definition Controller : Type := nat.

(** What the service does to the platform. *)
Inductive Effect : Type :=
| Fetch (message : string) (systemPrompt : option string) (signal : Controller)
| Abort (controller : Controller)        (* abortController.abort() *)
| ConsoleError (message : string).

(** The variables of the closure of [createChatGPTService]; [created]
    counts the controllers made so far. *)
Record State : Type := {
  isCurrentlyProcessing : bool;
  abortController : option Controller;
  created : nat
}.

Definition create : State :=
  {| isCurrentlyProcessing := false; abortController := None; created := 0 |}.

(** [abort()]. *)
Definition abort (s : State) : State * list Effect :=
  let '(s, e) :=
    match abortController s with
    | Some controller =>
        ({| isCurrentlyProcessing := isCurrentlyProcessing s;
            abortController := None; created := created s |},
         [Abort controller])
    | None => (s, [])
    end in
  ({| isCurrentlyProcessing := false; abortController := abortController s;
      created := created s |}, e).

(** How the part of [sendMessage] before its first [await] ends: with
    the exception of an empty message, or with a request in flight. *)
Inductive Started : Type :=
| Thrown (message : string)
| Pending (controller : Controller).

(** [sendMessage(message, systemPrompt)], up to [await fetch(...)]. *)
Definition sendMessage (message : string) (systemPrompt : option string)
    (s : State) : Started * State * list Effect :=
  if negb (truthy (trim message)) then
    (Thrown "Message cannot be empty", s, [])
  else
    let '(s, e) := if isCurrentlyProcessing s then abort s else (s, []) in
    let controller := created s in
    (Pending controller,
     {| isCurrentlyProcessing := true; abortController := Some controller;
        created := S (created s) |},
     e ++ [Fetch message systemPrompt controller]).

(** How the [try] block of a call ends. *)
Inductive Completion : Type :=
| Completed          (* the stream was read to its end *)
| AbortError         (* the request was aborted *)
| Failed.            (* any other exception *)

(** The [catch] and [finally] blocks of the call; the result tells
    whether the promise of [sendMessage] resolves. *)
Definition settled (how : Completion) (s : State)
  : bool * State * list Effect :=
  let s' := {| isCurrentlyProcessing := false; abortController := None;
               created := created s |} in
  match how with
  | Completed | AbortError => (true, s', [])
  | Failed => (false, s', [ConsoleError "Error sending message to ChatGPT:"])
  end.

(** [isProcessing()]. *)
Definition isProcessing (s : State) : bool := isCurrentlyProcessing s.

End ChatGPT.

(** A session of the ChatGPT service: the service and the calls of
    [sendMessage] whose promise has not settled yet. *)
Module ChatGPTSession.
Import ChatGPT.

Inductive Event : Type :=
| SendMessage (message : string) (systemPrompt : option string)
| CallAbort
| Settle (controller : Controller) (how : Completion).

Record State : Type := {
  service : ChatGPT.State;
  inFlight : list Controller
}.

Definition init : State := {| service := create; inFlight := [] |}.

Definition step (ev : Event) (ss : State) : State * list Effect :=
  match ev with
  | SendMessage message systemPrompt =>
      let '(started, s, e) := sendMessage message systemPrompt (service ss) in
      ({| service := s;
          inFlight := match started with
                      | Pending controller => controller :: inFlight ss
                      | Thrown _ => inFlight ss
                      end |}, e)
  | CallAbort =>
      let '(s, e) := abort (service ss) in
      ({| service := s; inFlight := inFlight ss |}, e)
  | Settle controller how =>
      if bool_decide (controller ∈ inFlight ss) then
        let '(_, s, e) := settled how (service ss) in
        ({| service := s;
            inFlight := filter (fun c => c <> controller) (inFlight ss) |}, e)
      else (ss, [])
  end.

Fixpoint run (evs : list Event) (ss : State) : State * list Effect :=
  match evs with
  | [] => (ss, [])
  | ev :: rest =>
      let '(ss1, e1) := step ev ss in
      let '(ss2, e2) := run rest ss1 in
      (ss2, e1 ++ e2)
  end.

(** The invariant of a session: the service says it is processing
    exactly when it holds a controller, and the controller it holds is
    the last one made and belongs to a call in flight. *)
Definition consistent (ss : State) : Prop :=
  (isCurrentlyProcessing (service ss) = true
   <-> abortController (service ss) <> None) /\
  (forall c, abortController (service ss) = Some c ->
     c ∈ inFlight ss /\ S c = created (service ss)) /\
  (forall c, c ∈ inFlight ss -> (c < created (service ss))%nat).

End ChatGPTSession.

(* ================================================================= *)
(** * Properties *)

Import DataView Wav WavSpec.

(** ** The WAV encoder *)

Section DataViewLemmas.
Implicit Types (view a b : ArrayBuffer) (off : nat) (v : Z).

Lemma setUint8_app_l a b off v :
  (off + 1 <= length a)%nat ->
  setUint8 (a ++ b) off v = (fun a' => a' ++ b) <$> setUint8 a off v.
Proof.
  intros H. unfold setUint8. rewrite length_app.
  rewrite !(proj2 (Nat.leb_le _ _)) by lia. cbn [fmap option_fmap option_map].
  by rewrite insert_app_l by lia.
Qed.

Lemma setUint16_app_l a b off v :
  (off + 2 <= length a)%nat ->
  setUint16 (a ++ b) off v = (fun a' => a' ++ b) <$> setUint16 a off v.
Proof.
  intros H. unfold setUint16. rewrite length_app.
  rewrite !(proj2 (Nat.leb_le _ _)) by lia. cbn [fmap option_fmap option_map].
  rewrite !insert_app_l; [done| |]; rewrite ?length_insert; lia.
Qed.

Lemma setUint32_app_l a b off v :
  (off + 4 <= length a)%nat ->
  setUint32 (a ++ b) off v = (fun a' => a' ++ b) <$> setUint32 a off v.
Proof.
  intros H. unfold setUint32. rewrite length_app.
  rewrite !(proj2 (Nat.leb_le _ _)) by lia. cbn [fmap option_fmap option_map].
  rewrite !insert_app_l; [done| | | |]; rewrite ?length_insert; lia.
Qed.

Lemma setUint16_at_end a x y tl v :
  setUint16 (a ++ x :: y :: tl) (length a) v =
  Some (a ++ (v mod 65536 mod 256)%Z :: (v mod 65536 / 256)%Z :: tl).
Proof.
  unfold setUint16. rewrite length_app. cbn [length].
  rewrite (proj2 (Nat.leb_le _ _)) by lia. cbn zeta. f_equal.
  replace (length a) with (length a + 0)%nat at 2 by lia.
  rewrite !insert_app_r. done.
Qed.

End DataViewLemmas.

Section WavLemmas.
Lemma writeSamples_spec samples : forall pre i,
  length pre = (44 + i * 2)%nat ->
  writeSamples (pre ++ replicate (length samples * 2) 0%Z) i samples
  = Some (pre ++ pcmBytes samples).
Proof.
  induction samples as [|x rest IH]; intros pre i Hlen.
  - cbn. by rewrite app_nil_r.
  - cbn [writeSamples length].
    change (S (length rest) * 2)%nat with (S (S (length rest * 2))).
    cbn [replicate]. unfold setInt16.
    rewrite <- Hlen. rewrite setUint16_at_end. cbn [mbind option_bind].
    replace (pre ++ _ :: _ :: replicate (length rest * 2) 0%Z)
      with ((pre ++ le16 (pcm16 x)) ++ replicate (length rest * 2) 0%Z)
      by (by rewrite <- app_assoc).
    rewrite IH; [by rewrite <- app_assoc|].
    rewrite length_app. cbn. lia.
Qed.

Lemma float32ToWav_layout (samples : list Q) (sampleRate : Z) :
  float32ToWav samples sampleRate
  = Some (header (length samples) sampleRate ++ pcmBytes samples).
Proof.
  unfold float32ToWav, newArrayBuffer.
  rewrite replicate_add.
  cbn [replicate].
  repeat (cbn [writeString setUint8 setUint16 setUint32 length Nat.leb
               Nat.add insert list_insert fmap option_fmap option_map
               mbind option_bind];
          first [ rewrite setUint8_app_l by (cbn; lia)
                | rewrite setUint32_app_l by (cbn; lia)
                | rewrite setUint16_app_l by (cbn; lia) ]).
  cbn [writeString setUint8 setUint16 setUint32 length Nat.leb
       Nat.add insert list_insert fmap option_fmap option_map
       mbind option_bind].
  rewrite (writeSamples_spec samples _ 0) by done.
  reflexivity.
Qed.
Lemma le32_decode (v : Z) :
  (0 <= v < 4294967296)%Z ->
  let w := (v mod 4294967296)%Z in
  (w mod 256 + 256 * (w / 256 mod 256) + 65536 * (w / 65536 mod 256)
   + 16777216 * (w / 16777216))%Z = v.
Proof.
  intros H w. subst w. rewrite (Z.mod_small v) by lia.
  replace (v / 65536)%Z with (v / 256 / 256)%Z by (by rewrite Z.div_div by lia).
  replace (v / 16777216)%Z with (v / 256 / 256 / 256)%Z
    by (by rewrite !Z.div_div by lia).
  Z.to_euclidean_division_equations. lia.
Qed.

Lemma le16_decode (v : Z) :
  (0 <= v < 65536)%Z ->
  let w := (v mod 65536)%Z in (w mod 256 + 256 * (w / 256))%Z = v.
Proof.
  intros H w. subst w. rewrite (Z.mod_small v) by lia.
  Z.to_euclidean_division_equations. lia.
Qed.

Lemma int16_decode (v : Z) :
  (-32768 <= v <= 32767)%Z ->
  let w := (v mod 65536)%Z in
  let u := (w mod 256 + 256 * (w / 256))%Z in
  (if (u <? 32768)%Z then u else u - 65536)%Z = v.
Proof.
  intros H w u.
  assert (u = w) as ->
    by (subst u; Z.to_euclidean_division_equations; lia).
  subst w. destruct (Z.ltb_spec (v mod 65536) 32768);
    Z.to_euclidean_division_equations; lia.
Qed.

Lemma clampSample_range x : (-1 <= clampSample x <= 1)%Q.
Proof.
  unfold clampSample. split; [apply Q.le_max_l|].
  apply Q.max_lub; [done|apply Q.le_min_l].
Qed.

Lemma clampSample_low x : (x <= -1 -> clampSample x == -1)%Q.
Proof.
  intros Hle. apply Q.max_l.
  apply Qle_trans with x; [apply Q.le_min_r|done].
Qed.

Lemma clampSample_high x : (1 <= x -> clampSample x == 1)%Q.
Proof.
  intros Hge. unfold clampSample.
  apply Qeq_trans with (Qmin 1 x); [|by apply Q.min_l].
  apply Q.max_r, Q.min_glb; [done|]. by apply Qle_trans with 1%Q.
Qed.

Lemma clampSample_id x : (-1 <= x <= 1 -> clampSample x == x)%Q.
Proof.
  intros [Hlo Hhi]. unfold clampSample.
  apply Qeq_trans with (Qmin 1 x); [|by apply Q.min_r].
  apply Q.max_r, Q.min_glb; done.
Qed.

Lemma pcm16_range x : (-32768 <= pcm16 x <= 32767)%Z.
Proof.
  unfold pcm16. destruct (clampSample_range x) as [Hlo Hhi].
  generalize dependent (clampSample x). intros [n d] Hlo Hhi.
  unfold Qle in Hlo, Hhi. cbn in Hlo, Hhi.
  unfold scaleSample, truncate.
  destruct (Qlt_le_dec _ _) as [Hneg|Hpos]; unfold Qlt, Qle in *; cbn in *.
  - rewrite Pos.mul_1_r. split.
    + apply Z.quot_le_lower_bound; lia.
    + transitivity 0%Z; [|lia].
      pose proof (Z.quot_le_mono (n * 32768) 0 (Z.pos d)) as H.
      rewrite Z.quot_0_l in H by lia. lia.
  - rewrite Pos.mul_1_r. split.
    + transitivity 0%Z; [lia|]. apply Z.quot_pos; lia.
    + pose proof (Z.quot_le_mono (n * 32767) (32767 * Z.pos d) (Z.pos d)) as H.
      rewrite Z.quot_mul in H by lia. lia.
Qed.

Lemma pcmBytes_lookup samples : forall i x,
  samples !! i = Some x ->
  pcmBytes samples !! (2 * i)%nat = Some ((pcm16 x mod 65536) mod 256)%Z /\
  pcmBytes samples !! (2 * i + 1)%nat = Some ((pcm16 x mod 65536) / 256)%Z.
Proof.
  induction samples as [|y rest IH]; intros [|i] x Hx; try done.
  - by injection Hx as ->.
  - cbn in Hx. destruct (IH _ _ Hx) as [H0 H1].
    replace (2 * S i)%nat with (S (S (2 * i))) by lia.
    replace (S (S (2 * i)) + 1)%nat with (S (S (2 * i + 1))) by lia.
    done.
Qed.

Lemma pcmBytes_length samples :
  length (pcmBytes samples) = (2 * length samples)%nat.
Proof. induction samples; cbn; lia. Qed.

(** C4.  For every sequence of N finite samples and every sample rate
    whose header values fit their unsigned 32-bit fields, [float32ToWav]
    returns (no RangeError) a buffer of exactly 44 + 2N bytes, and it has
    no other result.  The header holds, little endian: 'RIFF' at offset
    0, the file length 36 + 2N at 4, 'WAVE' at 8, 'fmt ' at 12, the format
    chunk length 16, the PCM format tag 1, the channel count 1, the sample
    rate, the byte rate sampleRate * 2, the block align 2, 16 bits per
    sample, 'data' at 36 and the data chunk length 2N at 40.  Sample i is
    clamped to [-1, 1], scaled by 32768 if it is negative and by 32767
    otherwise, truncated, and stored as a signed 16-bit value at offset
    44 + 2i. *)
Theorem float32ToWav_canonical (samples : list Q) (sampleRate : Z) :
let N := Z.of_nat (length samples) in
(0 <= sampleRate)%Z -> (sampleRate * 2 < 4294967296)%Z ->
(36 + 2 * N < 4294967296)%Z ->
exists buffer,
  float32ToWav samples sampleRate = Some buffer /\
  (forall buffer', float32ToWav samples sampleRate = Some buffer' -> buffer' = buffer) /\
  length buffer = (44 + 2 * length samples)%nat /\
  readString buffer 0 4 = codes "RIFF" /\
  getUint32 buffer 4 = Some (36 + 2 * N)%Z /\
  readString buffer 8 4 = codes "WAVE" /\
  readString buffer 12 4 = codes "fmt " /\
  getUint32 buffer 16 = Some 16%Z /\
  getUint16 buffer 20 = Some 1%Z /\
  getUint16 buffer 22 = Some 1%Z /\
  getUint32 buffer 24 = Some sampleRate /\
  getUint32 buffer 28 = Some (sampleRate * 2)%Z /\
  getUint16 buffer 32 = Some 2%Z /\
  getUint16 buffer 34 = Some 16%Z /\
  readString buffer 36 4 = codes "data" /\
  getUint32 buffer 40 = Some (2 * N)%Z /\
  forall i x, samples !! i = Some x ->
    let sample := clampSample x in
    (-1 <= sample <= 1)%Q /\
    (x <= -1 -> sample == -1)%Q /\ (1 <= x -> sample == 1)%Q /\
    (-1 <= x <= 1 -> sample == x)%Q /\
    getInt16 buffer (44 + 2 * i) =
      Some (truncate (if Qlt_le_dec sample 0 then sample * 32768 else sample * 32767)).
Proof.
intros N Hsr0 Hsr Hn.
exists (header (length samples) sampleRate ++ pcmBytes samples).
split; [apply float32ToWav_layout|].
split; [intros b'; rewrite float32ToWav_layout; congruence|].
split; [rewrite length_app, pcmBytes_length; reflexivity|].
assert (forall (i : nat) post, (i < 44)%nat ->
          (header (length samples) sampleRate ++ post) !! i
          = header (length samples) sampleRate !! i) as Hhdr.
{ intros i post Hi. by apply lookup_app_l. }
repeat match goal with |- _ /\ _ => split end; try reflexivity;
  try (unfold getUint32, getUint16; rewrite !Hhdr by lia;
       cbn [header codes le32 le16 app lookup list_lookup map
            list_ascii_of_string]; f_equal;
       first [ apply le32_decode | apply le16_decode ]; lia).
- replace (36 + 2 * N)%Z with (36 + Z.of_nat (length samples) * 2)%Z by lia.
  unfold getUint32; rewrite !Hhdr by lia.
  cbn [header codes le32 le16 app lookup list_lookup map list_ascii_of_string].
  f_equal. apply le32_decode. lia.
- replace (2 * N)%Z with (Z.of_nat (length samples) * 2)%Z by lia.
  unfold getUint32; rewrite !Hhdr by lia.
  cbn [header codes le32 le16 app lookup list_lookup map list_ascii_of_string].
  f_equal. apply le32_decode. lia.
- intros i x Hx sample. subst sample.
  split; [apply clampSample_range|].
  split; [apply clampSample_low|].
  split; [apply clampSample_high|].
  split; [apply clampSample_id|].
  destruct (pcmBytes_lookup samples i x Hx) as [H0 H1].
  unfold getInt16, getUint16.
  rewrite !lookup_app_r by (change (length (header _ _)) with 44%nat; lia).
  change (length (header _ _)) with 44%nat.
  replace (44 + 2 * i - 44)%nat with (2 * i)%nat by lia.
  replace (44 + 2 * i + 1 - 44)%nat with (2 * i + 1)%nat by lia.
  rewrite H0, H1. f_equal.
  apply (int16_decode (pcm16 x)), pcm16_range.
Qed.
End WavLemmas.

(** ** The factory's [start]: fallback to the Web Speech service *)

Section OrchestratorStart.
Import Js Orchestrator OrchestratorSpec.
Variables (o : Options) (p fallback : Platform) (now : Z).

Lemma isWebSpeech_spec api : isWebSpeech api = true <-> api = webSpeech.
Proof. by destruct api. Qed.

Lemma start_first_rejected (s : State) (ref : nat) (svc svc' : Service)
    (reason : string) (e : list Effect) :
  currentService s = Some ref ->
  services s !! ref = Some svc ->
  serviceStart p svc = (Rejected reason, svc', e) ->
  currentApi s = webSpeech ->
  start o p fallback now s =
    (Rejected reason, set_services (<[ref := svc']> (services s)) s,
     notify o ++ e ++ [ConsoleError "Error starting service:"]).
Proof.
  intros Hcur Hsvc Hrej Hapi.
  unfold start, notify. cbv [mbind M_bind bind get mret M_ret ret].
  rewrite Hcur. unfold call.
  destruct (onTranscriptionStart o); cbn; rewrite Hsvc, Hrej; cbn;
    rewrite Hapi; cbn; by rewrite ?app_nil_r.
Qed.

Lemma start_fallback_run (s : State) (ref : nat) (svc svc' ws : Service)
    (reason : string) (e e2 : list Effect) (r2 : Outcome) :
  currentService s = Some ref ->
  services s !! ref = Some svc ->
  serviceStart p svc = (Rejected reason, svc', e) ->
  currentApi s <> webSpeech ->
  serviceStart fallback (newService o webSpeech) = (r2, ws, e2) ->
  let r := start o p fallback now s in
  result r = r2 /\
  currentApi (state r) = webSpeech /\
  currentService (state r) = Some (length (services s)) /\
  services (state r) = <[ref := svc']> (services s) ++ [ws] /\
  effects r = notify o ++ e ++ [ConsoleError "Error starting service:"]
              ++ notify o ++ e2
              ++ (if r2 is Resolved then tracking s else []) /\
  (if r2 is Resolved
   then startTime (state r) = Some now /\ durationMs (state r) = 0%Z /\
        durationInterval (state r) = Some intervalHandle
   else startTime (state r) = startTime s /\
        durationMs (state r) = durationMs s /\
        durationInterval (state r) = durationInterval s).
Proof.
  intros Hcur Hsvc Hrej Hapi Hfb.
  assert (isWebSpeech (currentApi s) = false) as Hweb.
  { destruct (isWebSpeech (currentApi s)) eqn:E; [|done].
    by apply isWebSpeech_spec in E. }
  assert (forall (l : list Service) x y, <[length l := y]> (l ++ [x]) = l ++ [y])
    as Hins.
  { intros l x y. rewrite insert_app_r_alt by lia. by rewrite Nat.sub_diag. }
  remember (newService o webSpeech) as fresh eqn:Hfresh.
  unfold start, notify, tracking, startDurationTracking.
  cbv [mbind M_bind bind get mret M_ret ret].
  rewrite Hcur. unfold call, createService.
  cbv [mbind M_bind bind get mret M_ret ret modify].
  rewrite <- Hfresh.
  destruct (onTranscriptionStart o); cbn; rewrite Hsvc, Hrej; cbn;
    rewrite Hweb; cbn; rewrite list_lookup_middle by done; rewrite Hfb;
    destruct r2; cbn;
    rewrite ?Hins, ?length_insert, ?app_nil_r; repeat split; try done.
  all: destruct (durationInterval s); cbn; rewrite <- ?app_assoc; try done.
Qed.

(** C1.  When the current service's [start()] rejects, the factory's
    [start()] does the following.  If the selected backend is not
    [webSpeech]: it logs the error, switches [currentApi] to [webSpeech],
    creates one new Web Speech instance, makes it the current service and
    starts it once; the outcome of that single attempt is the outcome of
    [start()] (resolved, with duration tracking started, or the rejection
    raised to the caller).  The effects are those of the first attempt,
    the error log, and those of the one fallback attempt, so no further
    attempt is made.  If the selected backend is [webSpeech], the
    rejection is raised at once: no instance is created, nothing is
    started again. *)
Theorem start_falls_back_exactly_once (s : State) (ref : nat)
    (svc svc' ws : Service) (reason : string) (e e2 : list Effect)
    (r2 : Outcome) :
  currentService s = Some ref ->
  services s !! ref = Some svc ->
  serviceStart p svc = (Rejected reason, svc', e) ->
  serviceStart fallback (newService o webSpeech) = (r2, ws, e2) ->
  let r := start o p fallback now s in
  (currentApi s <> webSpeech ->
     result r = r2 /\
     currentApi (state r) = webSpeech /\
     currentService (state r) = Some (length (services s)) /\
     services (state r) = <[ref := svc']> (services s) ++ [ws] /\
     effects r = notify o ++ e ++ [ConsoleError "Error starting service:"]
                 ++ notify o ++ e2
                 ++ (if r2 is Resolved then tracking s else []) /\
     (r2 = Resolved ->
        startTime (state r) = Some now /\
        durationInterval (state r) = Some intervalHandle) /\
     (forall reason2, r2 = Rejected reason2 ->
        startTime (state r) = startTime s /\
        durationInterval (state r) = durationInterval s))
  /\
  (currentApi s = webSpeech ->
     result r = Rejected reason /\
     currentApi (state r) = webSpeech /\
     currentService (state r) = Some ref /\
     services (state r) = <[ref := svc']> (services s) /\
     effects r = notify o ++ e ++ [ConsoleError "Error starting service:"] /\
     startTime (state r) = startTime s /\
     durationInterval (state r) = durationInterval s).
Proof.
  intros Hcur Hsvc Hrej Hfb r. split.
  - intros Hapi.
    destruct (start_fallback_run s ref svc svc' ws reason e e2 r2
                Hcur Hsvc Hrej Hapi Hfb) as (Hr & Ha & Hc & Hs & He & Hd).
    do 5 (split; [done|]). split.
    + intros ->. by destruct Hd as (? & ? & ?).
    + intros reason2 ->. by destruct Hd as (? & ? & ?).
  - intros Hapi. subst r.
    rewrite (start_first_rejected s ref svc svc' reason e Hcur Hsvc Hrej Hapi).
    cbn. by rewrite Hapi, Hcur.
Qed.

(** C5, as amended.  After [start()] succeeded through the fallback,
    [start()] has resolved and [getApi()] reports [webSpeech], the
    backend that is running. *)
Theorem start_fallback_getApi (s : State) (ref : nat)
    (svc svc' ws : Service) (reason : string) (e e2 : list Effect) :
  currentService s = Some ref ->
  services s !! ref = Some svc ->
  serviceStart p svc = (Rejected reason, svc', e) ->
  currentApi s <> webSpeech ->
  serviceStart fallback (newService o webSpeech) = (Resolved, ws, e2) ->
  let r := start o p fallback now s in
  result r = Resolved /\ getApi (state r) = webSpeech.
Proof.
  intros Hcur Hsvc Hrej Hapi Hfb r.
  destruct (start_fallback_run s ref svc svc' ws reason e e2 Resolved
              Hcur Hsvc Hrej Hapi Hfb) as (Hr & Ha & _).
  by split.
Qed.

End OrchestratorStart.

Section OrchestratorStartExamples.
Import Js Orchestrator OrchestratorSpec.

Lemma start_falls_back_exactly_once_witness :
  let s := selected whisper in
  let r := start pageOptions denied granted 1000 s in
  (currentService s = Some 1%nat /\ currentApi s <> webSpeech) /\
  result r = Resolved /\
  currentApi (state r) = webSpeech /\
  currentService (state r) = Some 2%nat /\
  startTime (state r) = Some 1000%Z.
Proof.
  intros s r. split; [split; [reflexivity|discriminate]|].
  destruct (start_falls_back_exactly_once pageOptions denied granted 1000 s
              1%nat _ _ _ _ _ _ Resolved eq_refl eq_refl eq_refl eq_refl)
    as [H _].
  destruct (H ltac:(discriminate)) as (Hr & Ha & Hc & _ & _ & Hd & _).
  destruct (Hd eq_refl) as [Ht _].
  repeat split; assumption.
Defined.

(** C5, as stated, fails: with Whisper selected and its microphone
    denied, [start()] resolves through the fallback and [getApi()] no
    longer reports [whisper]. *)
Lemma start_fallback_getApi_counterexample :
  ~ (forall (o : Options) (p fallback : Platform) (now : Z) (s : State)
       (ref : nat) (svc svc' ws : Service) (reason : string)
       (e e2 : list Effect),
       currentService s = Some ref ->
       services s !! ref = Some svc ->
       serviceStart p svc = (Rejected reason, svc', e) ->
       currentApi s <> webSpeech ->
       serviceStart fallback (newService o webSpeech) = (Resolved, ws, e2) ->
       let r := start o p fallback now s in
       result r = Resolved /\ getApi (state r) = getApi s).
Proof.
  intros H.
  destruct (H pageOptions denied granted 1000%Z (selected whisper) 1%nat
              _ _ _ _ _ _ eq_refl eq_refl eq_refl ltac:(discriminate) eq_refl)
    as [_ Habs].
  vm_compute in Habs. discriminate.
Qed.

Lemma start_fallback_getApi_witness :
  let s := selected assemblyAINano in
  let r := start pageOptions denied granted 1000 s in
  (currentService s = Some 1%nat /\ currentApi s <> webSpeech) /\
  result r = Resolved /\ getApi (state r) = webSpeech.
Proof.
  intros s r. split; [split; [reflexivity|discriminate]|].
  exact (start_fallback_getApi pageOptions denied granted 1000 s 1%nat
           _ _ _ _ _ _ eq_refl eq_refl eq_refl ltac:(discriminate) eq_refl).
Defined.

End OrchestratorStartExamples.

(** ** [start()] on a listening service *)

Section StartIdempotent.
Import Js Orchestrator.

(** C10.  For each of the six services, [start()] on an instance whose
    [isListening()] is true resolves at once: the instance is unchanged
    (its handles, its buffer and its transcript are the same) and nothing
    is asked of the platform (no microphone stream, no audio context). *)
Theorem start_when_listening_is_noop (p : Platform) (svc : Service) :
  serviceIsListening svc = true ->
  serviceStart p svc = (Resolved, svc, []).
Proof.
  destruct svc as [o s|o s|o s|o s|o s|o s]; cbn; intros H;
    [ unfold WebSpeech.start, WebSpeech.isListening in *
    | unfold Realtime.start, Realtime.isListening in *
    | unfold AssemblyAI.start, AssemblyAI.isListening in *
    | unfold Whisper.start, Whisper.isListening in *
    | unfold Nano.start, Nano.isListening in *
    | unfold Google.start, Google.isListening in * ];
    cbv [mbind M_bind bind get]; by rewrite H.
Qed.

Lemma start_when_listening_is_noop_witness :
  let svc := NanoInstance
               {| Nano.onTranscriptionStart := true; Nano.language := "en";
                  Nano.sampleRate := 16000; Nano.bufferSize := 4096 |}
               (Nano.set_currentSentence "hello "
                  (Nano.set_isCurrentlyListening true Nano.create)) in
  serviceIsListening svc = true /\
  serviceStart OrchestratorSpec.denied svc = (Resolved, svc, []).
Proof.
  intros svc. split; [reflexivity|].
  exact (start_when_listening_is_noop OrchestratorSpec.denied svc eq_refl).
Defined.

End StartIdempotent.

(** ** The buffered services: finalization *)

(** Case analysis on every undetermined test of a run. *)
Ltac run_cases :=
  repeat (cbn -[header pcmBytes concat Nano.finalizeSentence
                Whisper.finalizeSentence Google.finalizeSentence];
          match goal with
          | |- context [if ?b then _ else _] => destruct b eqn:?
          end).

Section Finalize.
Import Js Session.

(** [finalizeSentence] on an empty buffer and on a buffer with frames. *)
Lemma Nano_finalize_empty o s :
  Nano.audioChunks s = [] -> Nano.finalizeSentence o s = (tt, s, []).
Proof.
  intros H. unfold Nano.finalizeSentence. cbv [mbind M_bind bind get].
  by rewrite H.
Qed.

Lemma Nano_finalize_run o s :
  Nano.audioChunks s <> [] ->
  Nano.finalizeSentence o s =
    (tt,
     Nano.set_audioChunks []
       (Nano.set_silenceStart None (Nano.set_isSpeaking false s)),
     (if Nano.onTranscriptionStart o then [OnTranscriptionStart] else [])
     ++ [Fetch "/api/assemblyai/transcribe"
           (header (length (concat (Nano.audioChunks s))) (Nano.sampleRate o)
            ++ pcmBytes (concat (Nano.audioChunks s)))
           None]).
Proof.
  intros H. unfold Nano.finalizeSentence. cbv [mbind M_bind bind get].
  destruct (Nano.audioChunks s) as [|c cs] eqn:E; [done|].
  cbn [length Nat.eqb]. rewrite float32ToWav_layout.
  by destruct (Nano.onTranscriptionStart o).
Qed.

Lemma Whisper_finalize_empty o s :
  Whisper.audioChunks s = [] -> Whisper.finalizeSentence o s = (tt, s, []).
Proof.
  intros H. unfold Whisper.finalizeSentence. cbv [mbind M_bind bind get].
  by rewrite H.
Qed.

Lemma Whisper_finalize_run o s :
  Whisper.audioChunks s <> [] ->
  Whisper.finalizeSentence o s =
    (tt,
     Whisper.set_audioChunks []
       (Whisper.set_silenceStart None (Whisper.set_isSpeaking false s)),
     (if Whisper.onTranscriptionStart o then [OnTranscriptionStart] else [])
     ++ [Fetch "/api/whisper"
           (header (length (concat (Whisper.audioChunks s))) (Whisper.sampleRate o)
            ++ pcmBytes (concat (Whisper.audioChunks s)))
           (Some (Whisper.currentLanguage s))]).
Proof.
  intros H. unfold Whisper.finalizeSentence. cbv [mbind M_bind bind get].
  destruct (Whisper.audioChunks s) as [|c cs] eqn:E; [done|].
  cbn [length Nat.eqb]. rewrite float32ToWav_layout.
  by destruct (Whisper.onTranscriptionStart o).
Qed.

(** [stop()] of the AssemblyAI-Nano service sends nothing, whatever it
    had buffered: the buffer is emptied before [finalizeSentence] runs. *)
Lemma Nano_stop_sends_nothing o s : fetches (effects (Nano.stop o s)) = 0%nat.
Proof.
  unfold Nano.stop. cbv [mbind M_bind bind get modify when mret M_ret ret emit].
  destruct (Nano.isCurrentlyListening s); [|done]. cbn [negb].
  destruct (nonNull (Nano.processor s) && nonNull (Nano.input s)),
    (nonNull (Nano.mediaStream s)), (notClosed (Nano.audioContext s)),
    (Nano.isSpeaking (Nano.speechState s)) eqn:E; cbn; rewrite ?E;
    rewrite ?Nano_finalize_empty by done; reflexivity.
Qed.

(** [stop()] of the Whisper service sends what it had buffered. *)
Lemma Whisper_stop_sends_buffer o s :
  Whisper.isCurrentlyListening s = true ->
  Whisper.audioChunks s <> [] ->
  Fetch "/api/whisper"
    (header (length (concat (Whisper.audioChunks s))) (Whisper.sampleRate o)
     ++ pcmBytes (concat (Whisper.audioChunks s)))
    (Some (Whisper.currentLanguage s))
  ∈ effects (Whisper.stop o s).
Proof.
  intros Hl Hc. unfold Whisper.stop.
  cbv [mbind M_bind bind get modify when mret M_ret ret emit].
  rewrite Hl. cbn [negb].
  destruct (Whisper.audioChunks s) as [|c cs] eqn:E; [done|]. cbn [length Nat.ltb Nat.leb].
  destruct (nonNull (Whisper.finalizationTimer s));
    rewrite Whisper_finalize_run by (cbn; by rewrite E);
    cbn -[header pcmBytes concat]; rewrite E;
    unfold effects; run_cases; cbn -[header pcmBytes concat];
    rewrite ?elem_of_cons; tauto.
Qed.
End Finalize.


Section GoogleFinalize.
Import Js Session.

Lemma Google_finalize_empty o s :
  Google.recordedChunks s = [] -> Google.finalizeSentence o s = (tt, s, []).
Proof.
  intros H. unfold Google.finalizeSentence. cbv [mbind M_bind bind get].
  by rewrite H.
Qed.

Lemma Google_finalize_run o s :
  Google.recordedChunks s <> [] ->
  Google.finalizeSentence o s =
    (tt,
     Google.set_recordedChunks []
       (Google.set_isRecording false
          (Google.set_silenceStart None (Google.set_isSpeaking false s))),
     [Fetch "/api/google/transcribe" (concat (Google.recordedChunks s))
        (Some (Google.language o))]).
Proof.
  intros H. unfold Google.finalizeSentence. cbv [mbind M_bind bind get].
  by destruct (Google.recordedChunks s) as [|c cs] eqn:E.
Qed.

End GoogleFinalize.

(** ** [stop()] and the utterance in flight *)

Section StopFinalizes.
Import Js Session NanoSession.

(** C2, at the failing input.  The AssemblyAI-Nano service has started
    and has buffered one frame of speech ([isSpeaking] is true).
    [stop()] tears the audio graph down, empties the buffer and sends
    nothing: the frame is dropped.  [finalizeSentence] runs after
    [audioChunks = []] and returns at its first line. *)
Theorem Nano_stop_drops_buffered_utterance :
  let ss := (run options [Start OrchestratorSpec.granted; AudioProcess loud 0] init).1 in
  let r := Nano.stop options (adapter ss) in
  (Nano.isListening (adapter ss) = true /\
   Nano.audioChunks (adapter ss) = [loud] /\
   Nano.isSpeaking (Nano.speechState (adapter ss)) = true) /\
  effects r = [Disconnect; TrackStop; AudioContextClose] /\
  fetches (effects r) = 0%nat /\
  Nano.audioChunks (state r) = [] /\
  Nano.isListening (state r) = false.
Proof. vm_compute. repeat split. Qed.

End StopFinalizes.

(** ** A transcription that settles after [stop()] *)

Section LateResponse.
Import Js Session.

(** What [stop()] leaves: a service that does not listen, with the
    transcript it had. *)
Lemma Nano_stop_state o s :
  Nano.isListening (state (Nano.stop o s)) = false /\
  Nano.currentSentence (Nano.speechState (state (Nano.stop o s)))
  = Nano.currentSentence (Nano.speechState s).
Proof.
  unfold Nano.stop, Nano.isListening.
  cbv [mbind M_bind bind get modify when mret M_ret ret emit].
  destruct (Nano.isCurrentlyListening s) eqn:Hl; cbn [negb]; [|cbn; by rewrite Hl].
  destruct (Nano.isSpeaking (Nano.speechState s)) eqn:Hs; run_cases;
    rewrite ?Hs; rewrite ?Nano_finalize_empty by done; done.
Qed.

Lemma Whisper_stop_state o s :
  Whisper.isListening (state (Whisper.stop o s)) = false /\
  Whisper.currentSentence (Whisper.speechState (state (Whisper.stop o s)))
  = Whisper.currentSentence (Whisper.speechState s).
Proof.
  unfold Whisper.stop, Whisper.isListening.
  cbv [mbind M_bind bind get modify when mret M_ret ret emit].
  destruct (Whisper.isCurrentlyListening s) eqn:Hl; cbn [negb]; [|cbn; by rewrite Hl].
  destruct (Whisper.audioChunks s) as [|c cs] eqn:Hc; cbn [length Nat.ltb Nat.leb].
  - run_cases; done.
  - destruct (nonNull (Whisper.finalizationTimer s));
      rewrite Whisper_finalize_run by (cbn; by rewrite Hc);
      run_cases; done.
Qed.

Lemma Google_stop_state o s :
  Google.isListening (state (Google.stop o s)) = false /\
  Google.currentSentence (Google.speechState (state (Google.stop o s)))
  = Google.currentSentence (Google.speechState s).
Proof.
  unfold Google.stop, Google.isListening.
  cbv [mbind M_bind bind get modify when mret M_ret ret emit].
  destruct (Google.isCurrentlyListening s) eqn:Hl; cbn [negb]; [|cbn; by rewrite Hl].
  destruct (Google.recordedChunks s) as [|c cs] eqn:Hc; cbn [length Nat.ltb Nat.leb].
  - destruct (Google.mediaRecorder s) as [[]|]; run_cases; done.
  - destruct (Google.mediaRecorder s) as [[]|]; run_cases;
      rewrite Google_finalize_run by (cbn; by rewrite Hc); done.
Qed.

(** C3, as stated, fails.  The AssemblyAI-Nano service hears speech, then
    silence for more than 1500 ms: the utterance is sent.  [stop()] runs
    while the request is in flight; the service no longer listens.  When
    the response arrives, [onTranscriptUpdate] is called. *)
Lemma stop_aborts_upload_counterexample :
  let ss := (NanoSession.run NanoSession.options
               [NanoSession.Start OrchestratorSpec.granted;
                NanoSession.AudioProcess loud 0;
                NanoSession.AudioProcess quiet 100;
                NanoSession.AudioProcess quiet 1700;
                NanoSession.Stop] NanoSession.init).1 in
  NanoSession.inFlight ss = 1%nat /\
  Nano.isListening (NanoSession.adapter ss) = false /\
  (NanoSession.step NanoSession.options
     (NanoSession.FetchSettled (Json (Some "hello"%string))) ss).2
  = [OnTranscriptUpdate "hello"].
Proof. vm_compute. repeat split. Qed.

(** C3, as amended.  For the three buffered services, [stop()] leaves
    the service not listening and does not touch the transcript; it has
    no means to abort a request.  A response with a text that settles
    after [stop()] is handled as at any other time: the text is appended
    to the transcript and [onTranscriptUpdate] is called with the
    trimmed transcript. *)
Theorem late_response_updates_transcript (text : string) :
  truthy text = true ->
  (forall o s,
     let s' := state (Nano.stop o s) in
     let sentence :=
       (Nano.currentSentence (Nano.speechState s) ++ text ++ " ")%string in
     Nano.isListening s' = false /\
     Nano.fetchSettled (Json (Some text)) s'
     = (tt, Nano.set_currentSentence sentence s',
        [OnTranscriptUpdate (trim sentence)])) /\
  (forall o s,
     let s' := state (Whisper.stop o s) in
     let sentence :=
       (Whisper.currentSentence (Whisper.speechState s) ++ text ++ " ")%string in
     Whisper.isListening s' = false /\
     Whisper.fetchSettled (Json (Some text)) s'
     = (tt, Whisper.set_currentSentence sentence s',
        [OnTranscriptUpdate (trim sentence)])) /\
  (forall o recorderCtor s,
     let s' := state (Google.stop o s) in
     let sentence :=
       (Google.currentSentence (Google.speechState s) ++ text ++ " ")%string in
     Google.isListening s' = false /\
     Google.fetchSettled recorderCtor (Json (Some text)) s'
     = (tt, Google.set_currentSentence sentence s',
        [OnTranscriptUpdate (trim sentence)])).
Proof.
  intros Htext. split; [|split].
  - intros o s. cbn zeta.
    destruct (Nano_stop_state o s) as [Hl Hs]. split; [done|].
    generalize dependent (state (Nano.stop o s)). intros s' Hl Hs.
    unfold Nano.fetchSettled. rewrite Htext.
    cbv [mbind M_bind bind get modify emit]. by rewrite Hs.
  - intros o s. cbn zeta.
    destruct (Whisper_stop_state o s) as [Hl Hs]. split; [done|].
    generalize dependent (state (Whisper.stop o s)). intros s' Hl Hs.
    unfold Whisper.fetchSettled. rewrite Htext.
    cbv [mbind M_bind bind get modify emit]. by rewrite Hs.
  - intros o rc s. cbn zeta.
    destruct (Google_stop_state o s) as [Hl Hs]. split; [done|].
    generalize dependent (state (Google.stop o s)). intros s' Hl Hs.
    unfold Google.fetchSettled, Google.isListening in *. rewrite Htext.
    cbv [mbind M_bind bind get modify emit when mret M_ret ret].
    cbn. by rewrite Hl, Hs.
Qed.

Lemma late_response_updates_transcript_witness :
  truthy "hello" = true /\
  let s := (NanoSession.adapter
              (NanoSession.run NanoSession.options
                 [NanoSession.Start OrchestratorSpec.granted;
                  NanoSession.AudioProcess loud 0;
                  NanoSession.AudioProcess quiet 100;
                  NanoSession.AudioProcess quiet 1700] NanoSession.init).1) in
  effects (Nano.fetchSettled (Json (Some "hello"%string))
             (state (Nano.stop NanoSession.options s)))
  = [OnTranscriptUpdate "hello"].
Proof.
  split; [reflexivity|]. intros s.
  destruct (late_response_updates_transcript "hello" eq_refl) as [H _].
  destruct (H NanoSession.options s) as [_ ->]. reflexivity.
Defined.

End LateResponse.

(** ** A transcription request that fails *)

Section FailedRequest.
Import Js Session.

(** C7.  For the three buffered services, a request that fails (the
    fetch rejects, the status is not 2xx, or the body does not parse) is
    logged with [console.error] and changes nothing else: [isListening()]
    and the transcript are what they were and [onTranscriptUpdate] is not
    called.  The AssemblyAI-Nano and Whisper instances are left exactly
    as they were, so whatever settles next is handled as if the failure
    had not occurred; the Google instance only restarts its recorder, and
    the next text is appended to the same transcript. *)
Theorem failed_request_is_not_fatal (r : FetchResult) :
  failed r = true ->
  (forall s,
     Nano.fetchSettled r s
     = (tt, s, [ConsoleError "Error transcribing audio with AssemblyAI Nano:"])) /\
  (forall s,
     Whisper.fetchSettled r s
     = (tt, s, [ConsoleError "Error transcribing audio with Whisper:"])) /\
  (forall recorderCtor s,
     let s' := state (Google.fetchSettled recorderCtor r s) in
     let es := effects (Google.fetchSettled recorderCtor r s) in
     ConsoleError "Error transcribing audio with Google Cloud Speech:" ∈ es /\
     filter isTranscriptUpdate es = [] /\
     Google.isListening s' = Google.isListening s /\
     Google.currentSentence (Google.speechState s')
     = Google.currentSentence (Google.speechState s) /\
     forall recorderCtor' text,
       let next := Google.fetchSettled recorderCtor' (Json (Some text)) in
       Google.currentSentence (Google.speechState (state (next s')))
       = Google.currentSentence (Google.speechState (state (next s))) /\
       filter isTranscriptUpdate (effects (next s'))
       = filter isTranscriptUpdate (effects (next s))).
Proof.
  intros Hr. split; [|split].
  - intros s. by destruct r.
  - intros s. by destruct r.
  - intros rc s. cbn zeta. unfold Google.fetchSettled, Google.startRecording, Google.isListening.
    cbv [mbind M_bind bind get modify when mret M_ret ret emit].
    destruct r as [| | |t]; try discriminate Hr.
    all: split; [run_cases; unfold effects; cbn; rewrite ?elem_of_cons; tauto|].
    all: split; [run_cases; done|].
    all: split; [run_cases; done|].
    all: split; [run_cases; done|].
    all: intros rc' text; split; run_cases; done.
Qed.

Lemma failed_request_is_not_fatal_witness :
  failed (NotOk "Internal Server Error") = true /\
  let s := Nano.set_currentSentence "hello "
             (Nano.set_isCurrentlyListening true Nano.create) in
  let s' := state (Nano.fetchSettled (NotOk "Internal Server Error") s) in
  Nano.isListening s' = true /\
  effects (Nano.fetchSettled (Json (Some "world"%string)) s')
  = [OnTranscriptUpdate "hello world"].
Proof.
  split; [reflexivity|]. intros s s'. subst s'.
  destruct (failed_request_is_not_fatal (NotOk "Internal Server Error") eq_refl)
    as [H _].
  rewrite (H s). split; reflexivity.
Defined.

End FailedRequest.

(** ** Frames of speech and of silence *)

Section NanoFrames.
Import Js Vad Session.

Lemma Nano_speech_frame o inputData now s :
  Float64.gtb (calculateVolume inputData) Nano.noiseThreshold = true ->
  Nano.processAudioData o inputData now s
  = (tt,
     Nano.set_silenceStart None
       (Nano.set_lastSpeechTime now
          (Nano.set_isSpeaking true
             (Nano.set_audioChunks (Nano.audioChunks s ++ [inputData]) s))),
     []).
Proof.
  intros H. unfold Nano.processAudioData.
  cbv [mbind M_bind bind get modify when mret M_ret ret emit]. by rewrite H.
Qed.

Lemma Nano_quiet_frame o inputData now s :
  Float64.gtb (calculateVolume inputData) Nano.noiseThreshold = false ->
  Nano.isSpeaking (Nano.speechState s) = true ->
  let s1 := Nano.set_audioChunks (Nano.audioChunks s ++ [inputData]) s in
  Nano.processAudioData o inputData now s
  = match Nano.silenceStart (Nano.speechState s) with
    | None => (tt, Nano.set_silenceStart (Some now) s1, [])
    | Some since =>
        if (now - since >? Nano.silenceThreshold)%Z
        then Nano.finalizeSentence o s1 else (tt, s1, [])
    end.
Proof.
  intros H Hs. unfold Nano.processAudioData.
  cbv [mbind M_bind bind get modify when mret M_ret ret emit].
  rewrite H. cbn. rewrite Hs.
  destruct (Nano.silenceStart _) as [since|]; [|done].
  destruct (now - since >? _)%Z; [|done].
  by destruct (Nano.finalizeSentence _ _) as [[[] ?] ?].
Qed.

(** The noise thresholds are the Numbers of the literals [0.01],
    [0.005] and [0.015]: 0x3F847AE147AE147B, 0x3F747AE147AE147B and
    0x3F8EB851EB851EB8. *)
Lemma noiseThreshold_literals :
  Nano.noiseThreshold = S754_finite false 5764607523034235 (-59) /\
  Google.noiseThreshold = S754_finite false 5764607523034235 (-59) /\
  Whisper.noiseThreshold = S754_finite false 5764607523034235 (-60) /\
  Realtime.defaultNoiseThreshold = S754_finite false 8646911284551352 (-59).
Proof. by vm_compute. Qed.

(** The sample frame [loud] is speech for the service. *)
Lemma loud_is_speech :
  Float64.gtb (calculateVolume loud) Nano.noiseThreshold = true.
Proof. by vm_compute. Qed.

End NanoFrames.

(** ** The size of the frame buffer *)

Section BufferCap.
Import Js Vad Session.

Lemma Whisper_finalize_chunks o s :
  Whisper.audioChunks (state (Whisper.finalizeSentence o s)) = [].
Proof.
  destruct (Whisper.audioChunks s) as [|c cs] eqn:E.
  - by rewrite Whisper_finalize_empty.
  - by rewrite Whisper_finalize_run by (by rewrite E).
Qed.

(** One frame more than 50 forces finalization, whatever the volume. *)
Lemma Whisper_forced_finalization o s inputData now :
  (50 <= length (Whisper.audioChunks s))%nat ->
  Whisper.processAudioData o inputData now s
  = Whisper.finalizeSentence o
      (Whisper.set_audioChunks (Whisper.audioChunks s ++ [inputData]) s).
Proof.
  intros H. unfold Whisper.processAudioData.
  cbv [mbind M_bind bind get modify]. cbn [Whisper.audioChunks Whisper.set_audioChunks].
  destruct (Nat.ltb_spec 50 (length (Whisper.audioChunks s ++ [inputData])))
    as [_|Hlt]; [|rewrite length_app in Hlt; cbn in Hlt; lia].
  destruct (Whisper.finalizeSentence o _) as [[[] s'] e]. by rewrite app_nil_l.
Qed.

Lemma Whisper_processAudioData_chunks o s inputData now :
  (length (Whisper.audioChunks s) <= 50)%nat ->
  (length (Whisper.audioChunks
             (state (Whisper.processAudioData o inputData now s))) <= 50)%nat.
Proof.
  intros H. unfold Whisper.processAudioData.
  cbv [mbind M_bind bind get modify mret M_ret ret].
  cbn [Whisper.audioChunks Whisper.set_audioChunks Whisper.speechState].
  destruct (Nat.ltb_spec 50 (length (Whisper.audioChunks s ++ [inputData])))
    as [Hgt|Hle].
  - pose proof (Whisper_finalize_chunks o
        (Whisper.set_audioChunks (Whisper.audioChunks s ++ [inputData]) s)) as E.
    destruct (Whisper.finalizeSentence o _) as [[[] s'] e]. cbn in *.
    rewrite E. cbn. lia.
  - destruct (Float64.gtb _ _); [cbn; lia|].
    destruct (Whisper.isSpeaking (Whisper.speechState s)); [|cbn; lia].
    destruct (Whisper.silenceStart (Whisper.speechState s)) as [since|]; [|cbn; lia].
    destruct (now - since >? Whisper.silenceThreshold)%Z; [|cbn; lia].
    pose proof (Whisper_finalize_chunks o
        (Whisper.set_audioChunks (Whisper.audioChunks s ++ [inputData]) s)) as E.
    destruct (Whisper.finalizeSentence o _) as [[[] s'] e]. cbn in *.
    rewrite E. cbn. lia.
Qed.

Lemma Whisper_step_chunks o ev ss :
  (length (Whisper.audioChunks (WhisperSession.adapter ss)) <= 50)%nat ->
  (length (Whisper.audioChunks
             (WhisperSession.adapter (WhisperSession.step o ev ss).1)) <= 50)%nat.
Proof.
  intros H. destruct ev as [p|inputData now| | |r|l]; cbn.
  - (* Start *)
    unfold Whisper.start.
    cbv [mbind M_bind bind get modify when mret M_ret ret emit].
    run_cases; first [done | cbn; lia].
  - (* AudioProcess *)
    destruct (nonNull _); [|done]. cbn. by apply Whisper_processAudioData_chunks.
  - (* TimerFired *)
    destruct (nonNull _); [|done]. cbn. unfold Whisper.timerFired.
    cbv [mbind M_bind bind get modify when mret M_ret ret emit].
    destruct (0 <? length _)%nat; [|cbn; lia].
    pose proof (Whisper_finalize_chunks o (WhisperSession.adapter ss)) as E.
    destruct (Whisper.finalizeSentence o _) as [[[] s'] e]. cbn in *.
    rewrite E. cbn. lia.
  - (* Stop *)
    unfold Whisper.stop.
    cbv [mbind M_bind bind get modify when mret M_ret ret emit].
    destruct (Whisper.isCurrentlyListening _); cbn [negb]; [|done].
    destruct (Whisper.audioChunks (WhisperSession.adapter ss)) as [|c cs] eqn:Hc;
      cbn [length Nat.ltb Nat.leb].
    + run_cases; cbn; rewrite ?Hc; cbn; lia.
    + destruct (nonNull (Whisper.finalizationTimer _));
        rewrite Whisper_finalize_run by (cbn; by rewrite Hc);
        run_cases; cbn; lia.
  - (* FetchSettled *)
    destruct (WhisperSession.inFlight ss); [done|]. cbn.
    unfold Whisper.fetchSettled.
    cbv [mbind M_bind bind get modify when mret M_ret ret emit].
    destruct r as [| | |[text|]]; try done. by destruct (truthy text).
  - (* UpdateLanguage *)
    done.
Qed.

Lemma Whisper_run_chunks o evs : forall ss,
  (length (Whisper.audioChunks (WhisperSession.adapter ss)) <= 50)%nat ->
  (length (Whisper.audioChunks
             (WhisperSession.adapter (WhisperSession.run o evs ss).1)) <= 50)%nat.
Proof.
  induction evs as [|ev evs IH]; intros ss H; [done|].
  cbn. pose proof (Whisper_step_chunks o ev ss H) as H1.
  destruct (WhisperSession.step o ev ss) as [ss1 e1]. cbn in H1.
  specialize (IH ss1 H1).
  destruct (WhisperSession.run o evs ss1) as [ss2 e2]. done.
Qed.

(** Sustained speech in the AssemblyAI-Nano service: every frame stays
    in the buffer and nothing is sent, whatever the frames and the times
    at which they arrive. *)
Lemma Nano_sustained_speech o (frames : list (list Q * Z)) : forall ss,
  nonNull (Nano.processor (NanoSession.adapter ss)) = true ->
  Forall (fun ft =>
            Float64.gtb (Vad.calculateVolume ft.1) Nano.noiseThreshold = true)
         frames ->
  let r := NanoSession.run o
             (map (fun ft => NanoSession.AudioProcess ft.1 ft.2) frames) ss in
  Nano.audioChunks (NanoSession.adapter r.1)
  = Nano.audioChunks (NanoSession.adapter ss) ++ map fst frames /\
  Nano.isCurrentlyListening (NanoSession.adapter r.1)
  = Nano.isCurrentlyListening (NanoSession.adapter ss) /\
  r.2 = [].
Proof.
  induction frames as [|[f t] frames IH]; intros ss Hp Hall.
  - cbn. by rewrite app_nil_r.
  - apply Forall_cons in Hall as [Hf Hall]. cbn [fst] in Hf.
    cbn [map NanoSession.run NanoSession.step fst snd]. rewrite Hp.
    unfold NanoSession.after. rewrite (Nano_speech_frame o f t _ Hf).
    cbn [state effects fst snd fetches filter length].
    match goal with |- context [NanoSession.run o _ ?ss1] =>
      destruct (IH ss1 Hp Hall) as (Hc & Hl & He);
      destruct (NanoSession.run o _ ss1) as [ss2 e2]
    end.
    cbn in *. subst e2. rewrite Hc, Hl. split; [|done].
    by rewrite <- app_assoc.
Qed.

(** The frames of [sustained n] are speech and arrive one after the
    other. *)
Lemma sustained_speech n :
  Forall (fun ft =>
            Float64.gtb (Vad.calculateVolume ft.1) Nano.noiseThreshold = true)
         (sustained n).
Proof.
  unfold sustained. apply Forall_forall. intros ft Hin.
  apply list_elem_of_fmap in Hin as (i & -> & _). apply loud_is_speech.
Qed.

Lemma sustained_increasing n : increasing (map snd (sustained n)) = true.
Proof.
  unfold sustained. generalize 0%nat. induction n as [|n IH]; intros a; [done|].
  cbn [seq map snd]. specialize (IH (S a)).
  destruct n as [|n]; [done|]. cbn [seq map snd increasing] in *.
  rewrite IH, andb_true_r. apply Z.ltb_lt. lia.
Qed.

Lemma sustained_length n : length (sustained n) = n.
Proof. unfold sustained. by rewrite length_map, length_seq. Qed.

(** The handlers of the Google service leave the frames it has
    buffered where they are. *)
Lemma Google_finalize_audioChunks o s :
  Google.audioChunks (state (Google.finalizeSentence o s)) = Google.audioChunks s.
Proof.
  destruct (Google.recordedChunks s) as [|c cs] eqn:E.
  - by rewrite Google_finalize_empty.
  - by rewrite Google_finalize_run by (by rewrite E).
Qed.

Lemma Google_processAudioData_audioChunks o inputData now s :
  Google.audioChunks (state (Google.processAudioData o inputData now s))
  = Google.audioChunks s ++ [inputData].
Proof.
  unfold Google.processAudioData.
  cbv [mbind M_bind bind get modify when mret M_ret ret emit].
  destruct (Float64.gtb _ _); [done|]. cbn.
  destruct (Google.isSpeaking (Google.speechState s)); [|done].
  destruct (Google.silenceStart (Google.speechState s)) as [since|]; [|done].
  destruct (now - since >? Google.silenceThreshold)%Z; [|done].
  pose proof (Google_finalize_audioChunks o
      (Google.set_audioChunks (Google.audioChunks s ++ [inputData]) s)) as E.
  by destruct (Google.finalizeSentence o _) as [[[] s'] e].
Qed.

Lemma Google_handlers_audioChunks o recorderCtor data result s :
  Google.audioChunks (state (Google.recordingTimeout s)) = Google.audioChunks s /\
  Google.audioChunks (state (Google.dataAvailable data s)) = Google.audioChunks s /\
  Google.audioChunks (state (Google.recorderStopped o s)) = Google.audioChunks s /\
  Google.audioChunks (state (Google.fetchSettled recorderCtor result s))
  = Google.audioChunks s.
Proof.
  split; [|split; [|split]].
  - unfold Google.recordingTimeout.
    cbv [mbind M_bind bind get modify when mret M_ret ret emit].
    by destruct (Google.mediaRecorder s) as [[]|].
  - unfold Google.dataAvailable.
    cbv [mbind M_bind bind get modify when mret M_ret ret emit].
    by destruct (0 <? length data)%nat.
  - unfold Google.recorderStopped.
    cbv [mbind M_bind bind get modify when mret M_ret ret emit].
    destruct (Google.isRecording (Google.speechState s)); [|done].
    pose proof (Google_finalize_audioChunks o s) as E.
    by destruct (Google.finalizeSentence o s) as [[[] s'] e].
  - unfold Google.fetchSettled, Google.startRecording.
    cbv [mbind M_bind bind get modify when mret M_ret ret emit].
    destruct result as [| | |[text|]]; run_cases; done.
Qed.

(** C8, as stated, fails: the AssemblyAI-Nano service has no cap, neither
    on the number of frames nor on the time they span.  For every bound
    there is a session in which the frames arrive one after the other,
    each later than the one before, and the service listens with more
    frames in the buffer. *)
Lemma buffer_cap_counterexample :
  ~ (exists cap : nat, forall frames : list (list Q * Z),
       increasing (map snd frames) = true ->
       let ss := (NanoSession.run NanoSession.options
                    (NanoSession.Start OrchestratorSpec.granted
                     :: map (fun ft => NanoSession.AudioProcess ft.1 ft.2) frames)
                    NanoSession.init).1 in
       Nano.isListening (NanoSession.adapter ss) = true ->
       (length (Nano.audioChunks (NanoSession.adapter ss)) <= cap)%nat).
Proof.
  intros [cap H].
  specialize (H (sustained (S cap)) (sustained_increasing (S cap))).
  cbn [NanoSession.run] in H.
  destruct (NanoSession.step _ (NanoSession.Start _) _) as [ss1 e1] eqn:E1.
  vm_compute in E1. injection E1 as <- <-.
  match type of H with context [NanoSession.run ?o ?evs ?ss] =>
    destruct (Nano_sustained_speech o (sustained (S cap)) ss eq_refl
                (sustained_speech (S cap))) as (Hc & Hl & _);
    destruct (NanoSession.run o evs ss) as [ss2 e2]
  end.
  cbn [fst] in *. unfold Nano.isListening in H. rewrite Hl, Hc in H.
  specialize (H eq_refl).
  rewrite length_app, length_map, sustained_length in H. cbn in H. lia.
Qed.

End BufferCap.

Section BufferCapTheorem.
Import Js Session.

(** C8, as amended.  Only the Whisper service caps its frame buffer.
    In every session of the Whisper service the buffer holds at most 50
    frames after each event: a frame that makes it exceed 50 forces
    [finalizeSentence], whatever its volume, which sends all the frames
    and empties the buffer.  The AssemblyAI-Nano service has no cap:
    while speech is sustained (frames whose volume is above the noise
    threshold, whatever they are and whenever they arrive) each frame
    is added to its buffer and nothing is sent.  The Google service has
    no cap either: every frame is added to its buffer, whatever its
    volume, and none of its handlers takes a frame out. *)
Theorem buffer_cap_is_whisper_only :
  (forall o evs,
     (length (Whisper.audioChunks
                (WhisperSession.adapter
                   (WhisperSession.run o evs (WhisperSession.init o)).1))
      <= 50)%nat) /\
  (forall o s inputData now,
     (50 <= length (Whisper.audioChunks s))%nat ->
     let r := Whisper.processAudioData o inputData now s in
     let frames := Whisper.audioChunks s ++ [inputData] in
     Whisper.audioChunks (state r) = [] /\
     effects r
     = (if Whisper.onTranscriptionStart o then [OnTranscriptionStart] else [])
       ++ [Fetch "/api/whisper"
             (header (length (concat frames)) (Whisper.sampleRate o)
              ++ pcmBytes (concat frames))
             (Some (Whisper.currentLanguage s))]) /\
  (forall o ss (frames : list (list Q * Z)),
     nonNull (Nano.processor (NanoSession.adapter ss)) = true ->
     Forall (fun ft =>
               Float64.gtb (Vad.calculateVolume ft.1) Nano.noiseThreshold = true)
            frames ->
     let r := NanoSession.run o
                (map (fun ft => NanoSession.AudioProcess ft.1 ft.2) frames) ss in
     Nano.audioChunks (NanoSession.adapter r.1)
     = Nano.audioChunks (NanoSession.adapter ss) ++ map fst frames /\
     r.2 = []) /\
  (forall o recorderCtor s inputData now data result,
     Google.audioChunks (state (Google.processAudioData o inputData now s))
     = Google.audioChunks s ++ [inputData] /\
     Google.audioChunks (state (Google.recordingTimeout s))
     = Google.audioChunks s /\
     Google.audioChunks (state (Google.dataAvailable data s))
     = Google.audioChunks s /\
     Google.audioChunks (state (Google.recorderStopped o s))
     = Google.audioChunks s /\
     Google.audioChunks (state (Google.fetchSettled recorderCtor result s))
     = Google.audioChunks s).
Proof.
  split; [|split; [|split]].
  - intros o evs. apply Whisper_run_chunks. cbn. lia.
  - intros o s inputData now H r frames. subst r frames.
    rewrite Whisper_forced_finalization by done.
    rewrite Whisper_finalize_run by (cbn; by destruct (Whisper.audioChunks s)).
    done.
  - intros o ss frames Hp Hall r.
    destruct (Nano_sustained_speech o frames ss Hp Hall) as (Hc & _ & He).
    by subst r.
  - intros o recorderCtor s inputData now data result.
    split; [apply Google_processAudioData_audioChunks|].
    apply Google_handlers_audioChunks.
Qed.

Lemma buffer_cap_is_whisper_only_witness :
  let s := Whisper.set_audioChunks (replicate 50 quiet)
             (state (Whisper.start WhisperSession.options
                       OrchestratorSpec.granted
                       (Whisper.create WhisperSession.options))) in
  let r := Whisper.processAudioData WhisperSession.options quiet 0 s in
  let ss := (NanoSession.run NanoSession.options
               [NanoSession.Start OrchestratorSpec.granted]
               NanoSession.init).1 in
  let r' := NanoSession.run NanoSession.options
              [NanoSession.AudioProcess loud 0;
               NanoSession.AudioProcess [1 # 8; -1 # 8]%Q 256;
               NanoSession.AudioProcess loud 9000] ss in
  ((50 <= length (Whisper.audioChunks s))%nat /\
   Whisper.audioChunks (state r) = [] /\
   fetches (effects r) = 1%nat) /\
  Nano.audioChunks (NanoSession.adapter r'.1)
  = [loud; [1 # 8; -1 # 8]%Q; loud] /\
  r'.2 = [].
Proof.
  intros s r ss r'.
  destruct buffer_cap_is_whisper_only as (_ & H & Hn & _). split.
  - split; [cbn; lia|].
    destruct (H WhisperSession.options s quiet 0%Z ltac:(cbn; lia)) as [Hc He].
    split; [exact Hc|]. fold r in He. rewrite He. reflexivity.
  - apply (Hn NanoSession.options ss
              [(loud, 0%Z); ([1 # 8; -1 # 8]%Q, 256%Z); (loud, 9000%Z)]).
    + reflexivity.
    + repeat constructor; by vm_compute.
Defined.

End BufferCapTheorem.

(** ** The volume of a frame *)

Section Volume.
Import Js Vad VadSpec.

(** The loops of the volume computations add up the terms from left to
    right. *)
Lemma fold_left_add_map {A} (f : A -> Float64.t) (l : list A) : forall acc,
  fold_left (fun sum x => Float64.add sum (f x)) l acc
  = fold_left Float64.add (map f l) acc.
Proof.
  induction l as [|x l IH]; intros acc; [done|]. cbn [fold_left map]. apply IH.
Qed.

Lemma calculateVolume_rms (frame : list Q) : calculateVolume frame = rms frame.
Proof.
  unfold calculateVolume, rms, mean, sum, len.
  by rewrite fold_left_add_map, length_map.
Qed.

Lemma average_meanAbs (frame : list Q) : average frame = meanAbs frame.
Proof.
  unfold average, meanAbs, mean, sum, len.
  by rewrite fold_left_add_map, length_map.
Qed.

(** What a frame does to the speech state of each service, by the
    outcome of the test of its [processAudioData]. *)
Lemma Nano_classifies o frame now s :
  let s' := state (Nano.processAudioData o frame now s) in
  classified (Float64.gtb (calculateVolume frame) Nano.noiseThreshold) now
    (Nano.isSpeaking (Nano.speechState s))
    (Nano.lastSpeechTime (Nano.speechState s))
    (Nano.isSpeaking (Nano.speechState s'))
    (Nano.lastSpeechTime (Nano.speechState s')).
Proof.
  unfold classified, Nano.processAudioData.
  cbv [mbind M_bind bind get modify when mret M_ret ret emit].
  destruct (Float64.gtb _ _); [done|]. cbn.
  destruct (Nano.isSpeaking (Nano.speechState s)) eqn:Hs; [|cbn; rewrite ?Hs; done].
  destruct (Nano.silenceStart (Nano.speechState s)) as [since|]; [|done].
  destruct (now - since >? Nano.silenceThreshold)%Z; [|cbn; rewrite ?Hs; done].
  rewrite Nano_finalize_run by (cbn; by destruct (Nano.audioChunks s)).
  done.
Qed.

Lemma Whisper_classifies o frame now s :
  (length (Whisper.audioChunks s) < 50)%nat ->
  let s' := state (Whisper.processAudioData o frame now s) in
  classified (Float64.gtb (calculateVolume frame) Whisper.noiseThreshold) now
    (Whisper.isSpeaking (Whisper.speechState s))
    (Whisper.lastSpeechTime (Whisper.speechState s))
    (Whisper.isSpeaking (Whisper.speechState s'))
    (Whisper.lastSpeechTime (Whisper.speechState s')).
Proof.
  intros Hlen. unfold classified, Whisper.processAudioData.
  cbv [mbind M_bind bind get modify when mret M_ret ret emit].
  cbn [Whisper.audioChunks Whisper.set_audioChunks Whisper.speechState].
  destruct (Nat.ltb_spec 50 (length (Whisper.audioChunks s ++ [frame])))
    as [Hgt|_]; [rewrite length_app in Hgt; cbn in Hgt; lia|].
  destruct (Float64.gtb _ _); [done|]. cbn.
  destruct (Whisper.isSpeaking (Whisper.speechState s)) eqn:Hs; [|cbn; rewrite ?Hs; done].
  destruct (Whisper.silenceStart (Whisper.speechState s)) as [since|]; [|done].
  destruct (now - since >? Whisper.silenceThreshold)%Z; [|cbn; rewrite ?Hs; done].
  rewrite Whisper_finalize_run by (cbn; by destruct (Whisper.audioChunks s)).
  done.
Qed.

Lemma Google_classifies o frame now s :
  let s' := state (Google.processAudioData o frame now s) in
  classified (Float64.gtb (calculateVolume frame) Google.noiseThreshold) now
    (Google.isSpeaking (Google.speechState s))
    (Google.lastSpeechTime (Google.speechState s))
    (Google.isSpeaking (Google.speechState s'))
    (Google.lastSpeechTime (Google.speechState s')).
Proof.
  unfold classified, Google.processAudioData.
  cbv [mbind M_bind bind get modify when mret M_ret ret emit].
  destruct (Float64.gtb _ _); [done|]. cbn.
  destruct (Google.isSpeaking (Google.speechState s)) eqn:Hs; [|cbn; rewrite ?Hs; done].
  destruct (Google.silenceStart (Google.speechState s)) as [since|]; [|done].
  destruct (now - since >? Google.silenceThreshold)%Z; [|cbn; rewrite ?Hs; done].
  destruct (Google.recordedChunks s) as [|c cs] eqn:E.
  - rewrite Google_finalize_empty by done. cbn. rewrite ?Hs. done.
  - rewrite Google_finalize_run by (cbn; by rewrite E). done.
Qed.

Lemma Realtime_classifies o frame now timestamp s :
  let s' := state (Realtime.processAudioData o frame now timestamp s) in
  classified (Float64.gtb (average frame) (Realtime.noiseThreshold o)) now
    (Realtime.isSpeaking (Realtime.speechState s))
    (Realtime.lastSpeechTime (Realtime.speechState s))
    (Realtime.isSpeaking (Realtime.speechState s'))
    (Realtime.lastSpeechTime (Realtime.speechState s')).
Proof.
  unfold classified, Realtime.processAudioData, Realtime.finalizeSentence.
  cbv [mbind M_bind bind get modify when mret M_ret ret emit].
  destruct (Float64.gtb _ _).
  - destruct (Realtime.isSpeaking (Realtime.speechState s)) eqn:Hs;
      cbn; rewrite ?Hs; done.
  - destruct (Realtime.isSpeaking (Realtime.speechState s)) eqn:Hs;
      [|cbn; rewrite ?Hs; done].
    destruct (Realtime.silenceStart (Realtime.speechState s)) as [since|];
      [|done].
    destruct (now - since >? Realtime.silenceThreshold o)%Z;
      cbn; rewrite ?Hs; cbn; rewrite ?Hs; done.
Qed.

(** C6, as stated, fails: the Realtime service does not compare the root
    mean square.  For the frame [0.046875, 0, 0, 0] the root mean
    square, 0.0234375, is above the threshold 0.015 of the service, and
    the service, which compares the mean magnitude 0.01171875, hears
    silence. *)
Lemma volume_is_rms_counterexample :
  ~ (forall (o : Realtime.Options) (frame : list Q) (now : Z)
            (timestamp : string) (s : Realtime.State),
       let s' := state (Realtime.processAudioData o frame now timestamp s) in
       classified (Float64.gtb (rms frame) (Realtime.noiseThreshold o)) now
         (Realtime.isSpeaking (Realtime.speechState s))
         (Realtime.lastSpeechTime (Realtime.speechState s))
         (Realtime.isSpeaking (Realtime.speechState s'))
         (Realtime.lastSpeechTime (Realtime.speechState s'))).
Proof.
  intros H.
  destruct (H {| Realtime.sampleRate := 16000; Realtime.bufferSize := 4096;
                 Realtime.noiseThreshold := Realtime.defaultNoiseThreshold;
                 Realtime.silenceThreshold := Realtime.defaultSilenceThreshold |}
              [3 # 64; 0; 0; 0]%Q 0%Z ""%string Realtime.create) as [H1 _].
  specialize (H1 eq_refl). vm_compute in H1. discriminate.
Qed.

End Volume.

Section VolumeTheorem.
Import Js Vad VadSpec.

(** C6, as amended.  For every frame, the Whisper service (while its
    buffer is below its cap), the AssemblyAI-Nano service and the Google
    service classify the frame by the root mean square of its samples,
    [sqrt(mean(sample_i^2))], computed in binary64 and compared with
    their noise threshold; the Realtime service classifies it by the
    mean of the magnitudes, [mean(|sample_i|)].  A frame above the
    threshold leaves the service speaking, with the time of the frame as
    the time of the last speech; a frame not above it does not change
    that time and does not make a service speak that did not. *)
Theorem volume_per_service (frame : list Q) (now : Z) :
  (forall o s,
     (length (Whisper.audioChunks s) < 50)%nat ->
     let s' := state (Whisper.processAudioData o frame now s) in
     classified (Float64.gtb (rms frame) Whisper.noiseThreshold) now
       (Whisper.isSpeaking (Whisper.speechState s))
       (Whisper.lastSpeechTime (Whisper.speechState s))
       (Whisper.isSpeaking (Whisper.speechState s'))
       (Whisper.lastSpeechTime (Whisper.speechState s'))) /\
  (forall o s,
     let s' := state (Nano.processAudioData o frame now s) in
     classified (Float64.gtb (rms frame) Nano.noiseThreshold) now
       (Nano.isSpeaking (Nano.speechState s))
       (Nano.lastSpeechTime (Nano.speechState s))
       (Nano.isSpeaking (Nano.speechState s'))
       (Nano.lastSpeechTime (Nano.speechState s'))) /\
  (forall o s,
     let s' := state (Google.processAudioData o frame now s) in
     classified (Float64.gtb (rms frame) Google.noiseThreshold) now
       (Google.isSpeaking (Google.speechState s))
       (Google.lastSpeechTime (Google.speechState s))
       (Google.isSpeaking (Google.speechState s'))
       (Google.lastSpeechTime (Google.speechState s'))) /\
  (forall o timestamp s,
     let s' := state (Realtime.processAudioData o frame now timestamp s) in
     classified (Float64.gtb (meanAbs frame) (Realtime.noiseThreshold o)) now
       (Realtime.isSpeaking (Realtime.speechState s))
       (Realtime.lastSpeechTime (Realtime.speechState s))
       (Realtime.isSpeaking (Realtime.speechState s'))
       (Realtime.lastSpeechTime (Realtime.speechState s'))).
Proof.
  rewrite <- calculateVolume_rms, <- average_meanAbs.
  split; [|split; [|split]].
  - intros o s Hlen. by apply Whisper_classifies.
  - intros o s. apply Nano_classifies.
  - intros o s. apply Google_classifies.
  - intros o timestamp s. apply Realtime_classifies.
Qed.

Lemma volume_per_service_witness :
  let frame := [3 # 64; 0; 0; 0]%Q in
  let nano := state (Nano.processAudioData NanoSession.options frame 7
                       Nano.create) in
  let realtime :=
    state (Realtime.processAudioData
             (Session.realtimeOptions Realtime.defaultNoiseThreshold)
             frame 7 "12:00:00" Realtime.create) in
  (* a root mean square of 0.0234375 and a mean magnitude of 0.01171875 *)
  (Float64.gtb (rms frame) Nano.noiseThreshold = true /\
   Nano.isSpeaking (Nano.speechState nano) = true /\
   Nano.lastSpeechTime (Nano.speechState nano) = 7%Z) /\
  (Float64.gtb (meanAbs frame) Realtime.defaultNoiseThreshold = false /\
   Realtime.isSpeaking (Realtime.speechState realtime) = false /\
   Realtime.lastSpeechTime (Realtime.speechState realtime) = 0%Z) /\
  (* a volume equal to the threshold is not above it *)
  (let level := [1 # 4; -1 # 4]%Q in
   let t := Float64.ofQ (1 # 4) in
   meanAbs level = t /\
   Realtime.isSpeaking
     (Realtime.speechState
        (state (Realtime.processAudioData (Session.realtimeOptions t)
                  level 7 "12:00:00" Realtime.create))) = false) /\
  (* the volume is rounded: 64 samples equal to x, above t, have the root
     mean square t in binary64, and a mean magnitude above t *)
  (let x := (13897693 # 33554432)%Q in
   let t := Float64.ofQ (7461267115606011 # 18014398509481984) in
   Float64.gtb (Float64.ofQ x) t = true /\
   rms (replicate 64 x) = t /\
   Realtime.isSpeaking
     (Realtime.speechState
        (state (Realtime.processAudioData (Session.realtimeOptions t)
                  (replicate 64 x) 7 "12:00:00" Realtime.create))) = true).
Proof.
  intros frame nano realtime.
  destruct (volume_per_service frame 7) as (_ & Hn & _ & Hr).
  destruct (Hn NanoSession.options Nano.create) as (_ & Hspeech & _).
  destruct (Hr (Session.realtimeOptions Realtime.defaultNoiseThreshold)
              "12:00:00"%string Realtime.create) as (Hwas & _ & Hsilence).
  assert (Float64.gtb (rms frame) Nano.noiseThreshold = true) as H1
    by by vm_compute.
  assert (Float64.gtb (meanAbs frame) Realtime.defaultNoiseThreshold = false)
    as H2 by by vm_compute.
  split; [|split; [|split]].
  - split; [exact H1|]. exact (Hspeech H1).
  - split; [exact H2|]. split.
    + etransitivity; [exact (Hwas eq_refl)|exact H2].
    + exact (Hsilence H2).
  - intros level t. split; [by vm_compute|].
    destruct (volume_per_service level 7) as (_ & _ & _ & Hr').
    destruct (Hr' (Session.realtimeOptions t) "12:00:00"%string Realtime.create)
      as (Hwas' & _).
    etransitivity; [exact (Hwas' eq_refl)|by vm_compute].
  - intros x t. split; [by vm_compute|]. split; [by vm_compute|].
    destruct (volume_per_service (replicate 64 x) 7) as (_ & _ & _ & Hr').
    destruct (Hr' (Session.realtimeOptions t) "12:00:00"%string Realtime.create)
      as (Hwas' & _).
    etransitivity; [exact (Hwas' eq_refl)|by vm_compute].
Defined.

End VolumeTheorem.

(** ** [changeApi]: the previous service and the new one *)

Section StopReleases.
Import Js Session OwnershipSpec.

Lemma Nano_stop_released o s :
  let r := Nano.stop o s in
  Nano.isListening (state r) = false /\
  (Nano.isListening s = true ->
   Nano.mediaStream (state r) = None /\ Nano.audioContext (state r) = None) /\
  (Nano.isListening s = false -> state r = s) /\
  filter acquires (effects r) = [].
Proof.
  unfold Nano.stop, Nano.isListening.
  cbv [mbind M_bind bind get modify when mret M_ret ret emit].
  destruct (Nano.isCurrentlyListening s) eqn:Hl; cbn [negb]; [|cbn; by rewrite Hl].
  destruct (Nano.isSpeaking (Nano.speechState s)) eqn:Hs; run_cases;
    rewrite ?Hs; rewrite ?Nano_finalize_empty by done; done.
Qed.

Lemma Whisper_stop_released o s :
  let r := Whisper.stop o s in
  Whisper.isListening (state r) = false /\
  (Whisper.isListening s = true ->
   Whisper.mediaStream (state r) = None /\ Whisper.audioContext (state r) = None) /\
  (Whisper.isListening s = false -> state r = s) /\
  filter acquires (effects r) = [].
Proof.
  unfold Whisper.stop, Whisper.isListening.
  cbv [mbind M_bind bind get modify when mret M_ret ret emit].
  destruct (Whisper.isCurrentlyListening s) eqn:Hl; cbn [negb]; [|cbn; by rewrite Hl].
  destruct (Whisper.audioChunks s) as [|c cs] eqn:Hc; cbn [length Nat.ltb Nat.leb].
  - run_cases; done.
  - destruct (nonNull (Whisper.finalizationTimer s));
      rewrite Whisper_finalize_run by (cbn; by rewrite Hc);
      run_cases; done.
Qed.

Lemma Google_stop_released o s :
  let r := Google.stop o s in
  Google.isListening (state r) = false /\
  (Google.isListening s = true ->
   Google.mediaStream (state r) = None /\ Google.audioContext (state r) = None) /\
  (Google.isListening s = false -> state r = s) /\
  filter acquires (effects r) = [].
Proof.
  unfold Google.stop, Google.isListening.
  cbv [mbind M_bind bind get modify when mret M_ret ret emit].
  destruct (Google.isCurrentlyListening s) eqn:Hl; cbn [negb]; [|cbn; by rewrite Hl].
  destruct (Google.recordedChunks s) as [|c cs] eqn:Hc; cbn [length Nat.ltb Nat.leb].
  - destruct (Google.mediaRecorder s) as [[]|]; run_cases; done.
  - destruct (Google.mediaRecorder s) as [[]|]; run_cases;
      rewrite Google_finalize_run by (cbn; by rewrite Hc); done.
Qed.

Lemma Realtime_stop_released timestamp s :
  let r := Realtime.stop timestamp s in
  Realtime.isListening (state r) = false /\
  (Realtime.isListening s = true ->
   Realtime.mediaStream (state r) = None /\ Realtime.audioContext (state r) = None) /\
  (Realtime.isListening s = false -> state r = s) /\
  filter acquires (effects r) = [].
Proof.
  unfold Realtime.stop, Realtime.finalizeSentence, Realtime.isListening.
  cbv [mbind M_bind bind get modify when mret M_ret ret emit].
  destruct (Realtime.listening s) eqn:Hl; cbn [negb]; [|cbn; by rewrite Hl].
  destruct (Realtime.isSpeaking (Realtime.speechState s)) eqn:Hs;
    run_cases; rewrite ?Hs; done.
Qed.

Lemma AssemblyAI_stop_released s :
  let r := AssemblyAI.stop s in
  AssemblyAI.isListening (state r) = false /\
  (AssemblyAI.isListening s = true ->
   AssemblyAI.mediaStream (state r) = None /\ AssemblyAI.audioContext (state r) = None) /\
  (AssemblyAI.isListening s = false -> state r = s) /\
  filter acquires (effects r) = [].
Proof.
  unfold AssemblyAI.stop, AssemblyAI.isListening.
  cbv [mbind M_bind bind get modify when mret M_ret ret emit].
  destruct (AssemblyAI.listening s) eqn:Hl; cbn [negb]; [|cbn; by rewrite Hl].
  run_cases; done.
Qed.

(** [stop()] of the Web Speech service changes nothing in the instance. *)
Lemma WebSpeech_stop_unchanged s :
  state (WebSpeech.stop s) = s /\
  filter acquires (effects (WebSpeech.stop s)) = [] /\
  (WebSpeech.listening s = true -> WebSpeech.recognition s <> None ->
   effects (WebSpeech.stop s) = [RecognitionStop]).
Proof.
  unfold WebSpeech.stop.
  cbv [mbind M_bind bind get modify when mret M_ret ret emit].
  destruct (WebSpeech.listening s), (WebSpeech.recognition s); cbn; done.
Qed.
(** [stop()] of a listening service stops the tracks of the stream it
    holds. *)
Lemma Nano_stop_stops_tracks o s :
  Nano.isListening s = true -> Nano.mediaStream s <> None ->
  TrackStop ∈ effects (Nano.stop o s).
Proof.
  unfold Nano.stop, Nano.isListening. intros Hl Hm.
  cbv [mbind M_bind bind get modify when mret M_ret ret emit].
  rewrite Hl. cbn [negb].
  destruct (Nano.mediaStream s) as [m|] eqn:E; [|done].
  destruct (Nano.isSpeaking (Nano.speechState s)) eqn:Hs; run_cases;
    rewrite ?Hs; rewrite ?Nano_finalize_empty by done;
    unfold effects; cbn; rewrite ?elem_of_cons; tauto.
Qed.

Lemma Whisper_stop_stops_tracks o s :
  Whisper.isListening s = true -> Whisper.mediaStream s <> None ->
  TrackStop ∈ effects (Whisper.stop o s).
Proof.
  unfold Whisper.stop, Whisper.isListening. intros Hl Hm.
  cbv [mbind M_bind bind get modify when mret M_ret ret emit].
  rewrite Hl. cbn [negb].
  destruct (Whisper.mediaStream s) as [m|] eqn:E; [|done].
  destruct (Whisper.audioChunks s) as [|c cs] eqn:Hc; cbn [length Nat.ltb Nat.leb].
  - run_cases; unfold effects; cbn; rewrite ?elem_of_cons; tauto.
  - destruct (nonNull (Whisper.finalizationTimer s));
      rewrite Whisper_finalize_run by (cbn; by rewrite Hc);
      run_cases; unfold effects; cbn -[header pcmBytes concat];
      rewrite ?elem_of_cons; tauto.
Qed.

Lemma Google_stop_stops_tracks o s :
  Google.isListening s = true -> Google.mediaStream s <> None ->
  TrackStop ∈ effects (Google.stop o s).
Proof.
  unfold Google.stop, Google.isListening. intros Hl Hm.
  cbv [mbind M_bind bind get modify when mret M_ret ret emit].
  rewrite Hl. cbn [negb].
  destruct (Google.mediaStream s) as [m|] eqn:E; [|done].
  destruct (Google.recordedChunks s) as [|c cs] eqn:Hc; cbn [length Nat.ltb Nat.leb].
  - destruct (Google.mediaRecorder s) as [[]|]; run_cases;
      unfold effects; cbn; rewrite ?elem_of_cons; tauto.
  - destruct (Google.mediaRecorder s) as [[]|]; run_cases;
      rewrite Google_finalize_run by (cbn; by rewrite Hc);
      unfold effects; cbn; rewrite ?elem_of_cons; tauto.
Qed.

Lemma Realtime_stop_stops_tracks timestamp s :
  Realtime.isListening s = true -> Realtime.mediaStream s <> None ->
  TrackStop ∈ effects (Realtime.stop timestamp s).
Proof.
  unfold Realtime.stop, Realtime.finalizeSentence, Realtime.isListening.
  intros Hl Hm.
  cbv [mbind M_bind bind get modify when mret M_ret ret emit].
  rewrite Hl. cbn [negb].
  destruct (Realtime.mediaStream s) as [m|] eqn:E; [|done].
  destruct (Realtime.isSpeaking (Realtime.speechState s)) eqn:Hs;
    run_cases; rewrite ?Hs; unfold effects; cbn; rewrite ?elem_of_cons; tauto.
Qed.

Lemma AssemblyAI_stop_stops_tracks s :
  AssemblyAI.isListening s = true -> AssemblyAI.mediaStream s <> None ->
  TrackStop ∈ effects (AssemblyAI.stop s).
Proof.
  unfold AssemblyAI.stop, AssemblyAI.isListening. intros Hl Hm.
  cbv [mbind M_bind bind get modify when mret M_ret ret emit].
  rewrite Hl. cbn [negb].
  destruct (AssemblyAI.mediaStream s) as [m|] eqn:E; [|done].
  run_cases; unfold effects; cbn; rewrite ?elem_of_cons; tauto.
Qed.

End StopReleases.

Section ChangeApi.
Import Js Orchestrator OrchestratorSpec OwnershipSpec.

Lemma serviceStop_released timestamp svc :
  let r := serviceStop timestamp svc in
  (serviceApi svc <> webSpeech -> serviceIsListening (state r) = false) /\
  (serviceApi svc = webSpeech -> state r = svc) /\
  (serviceIsListening svc = true ->
   serviceMediaStream (state r) = None /\ serviceAudioContext (state r) = None) /\
  filter acquires (effects r) = [].
Proof.
  destruct svc as [o s|o s|o s|o s|o s|o s]; cbn.
  - destruct (WebSpeech_stop_unchanged s) as (Hs & He & _).
    unfold wrap, state, effects, result in *. cbn. rewrite Hs.
    split; [done|]. split; [done|]. split; [done|exact He].
  - destruct (Realtime_stop_released timestamp s) as (Hl & Hm & _ & He).
    split; [done|]. split; [done|]. split; [exact Hm|exact He].
  - destruct (AssemblyAI_stop_released s) as (Hl & Hm & _ & He).
    split; [done|]. split; [done|]. split; [exact Hm|exact He].
  - destruct (Whisper_stop_released o s) as (Hl & Hm & _ & He).
    split; [done|]. split; [done|]. split; [exact Hm|exact He].
  - destruct (Nano_stop_released o s) as (Hl & Hm & _ & He).
    split; [done|]. split; [done|]. split; [exact Hm|exact He].
  - destruct (Google_stop_released o s) as (Hl & Hm & _ & He).
    split; [done|]. split; [done|]. split; [exact Hm|exact He].
Qed.

Lemma serviceStop_stops_tracks timestamp svc :
  serviceIsListening svc = true -> serviceMediaStream svc <> None ->
  TrackStop ∈ effects (serviceStop timestamp svc).
Proof.
  destruct svc as [o s|o s|o s|o s|o s|o s]; cbn; intros Hl Hm; [done|..].
  - by apply Realtime_stop_stops_tracks.
  - by apply AssemblyAI_stop_stops_tracks.
  - by apply Whisper_stop_stops_tracks.
  - by apply Nano_stop_stops_tracks.
  - by apply Google_stop_stops_tracks.
Qed.

Lemma newService_fresh o api :
  serviceIsListening (newService o api) = false /\
  serviceMediaStream (newService o api) = None /\
  serviceAudioContext (newService o api) = None /\
  serviceApi (newService o api) = api.
Proof. by destruct api. Qed.

Lemma stopDurationTracking_acquires o now s :
  filter acquires (effects (stopDurationTracking o now s)) = [] /\
  services (state (stopDurationTracking o now s)) = services s /\
  currentService (state (stopDurationTracking o now s)) = currentService s.
Proof.
  unfold stopDurationTracking.
  cbv [mbind M_bind bind get modify when mret M_ret ret emit].
  destruct (startTime s) as [t|] eqn:Ht; cbn; rewrite ?Ht; run_cases; done.
Qed.

(** What [changeApi] does, step by step. *)
Lemma changeApi_run o api now timestamp s ref old :
  currentService s = Some ref ->
  services s !! ref = Some old ->
  let r := changeApi o api now timestamp s in
  let old' := if serviceIsListening old
              then state (serviceStop timestamp old) else old in
  services (state r) = <[ref := old']> (services s) ++ [newService o api] /\
  currentApi (state r) = api /\
  currentService (state r) = Some (length (services s)) /\
  filter acquires (effects r) = [] /\
  (serviceIsListening old = true ->
   exists rest, effects r = effects (serviceStop timestamp old) ++ rest).
Proof.
  intros Hcur Hsvc. cbn zeta.
  unfold changeApi, isListening, createService, call.
  cbv [mbind M_bind bind get modify when mret M_ret ret emit].
  rewrite Hcur, Hsvc.
  destruct (serviceIsListening old) eqn:Hl.
  - rewrite Hsvc.
    destruct (serviceStop_released timestamp old) as (_ & _ & _ & He).
    destruct (serviceStop timestamp old) as [[[] old'] e] eqn:E.
    unfold state, effects in He. cbn in He.
    match goal with |- context [stopDurationTracking o now ?s1] =>
      destruct (stopDurationTracking_acquires o now s1) as (Hd & Hs1 & _);
      destruct (stopDurationTracking o now s1) as [[[] s2] e2]
    end.
    unfold state, effects in *. cbn in *.
    rewrite Hs1, length_insert, !filter_app, He, Hd.
    repeat split; try done. eexists. by rewrite <- app_assoc.
  - cbn. rewrite list_insert_id by done. by repeat split.
Qed.

(** C9, as stated, fails.  The Web Speech service is started, then
    [changeApi('whisper')] runs: the Web Speech instance has asked its
    recogniser to stop and still reports [isListening()] true, which it
    does until the recogniser's [end] event. *)
Lemma changeApi_counterexample :
  ~ (forall (o : Options) (api : STTApi) (now : Z) (timestamp : string)
       (s : State) (ref : nat) (old : Service),
       currentService s = Some ref ->
       services s !! ref = Some old ->
       exists old',
         services (state (changeApi o api now timestamp s)) !! ref = Some old' /\
         serviceIsListening old' = false).
Proof.
  intros H.
  destruct (H pageOptions whisper 2000%Z ""%string
              (state (start pageOptions granted granted 1000 (create pageOptions)))
              0%nat _ eq_refl eq_refl) as (old' & Hold & Hl).
  vm_compute in Hold. injection Hold as <-. discriminate Hl.
Qed.

(** C9, as amended.  After [changeApi(B)]: a previous service that was
    listening has been stopped, one that was not is left as it was.  A
    previous service other than Web Speech then reports [isListening()]
    false, and if it was listening it holds no microphone stream and no
    audio context any more: the tracks of its stream have been stopped.
    The Web Speech instance is not changed by
    its [stop()]: it has asked the recogniser to stop and reports false
    once [onend] has run.  The instance for B is new: it does not
    listen and holds no stream.  [changeApi] itself takes no
    microphone. *)
Theorem changeApi_releases_then_creates (o : Options) (api : STTApi)
    (now : Z) (timestamp : string) (s : State) (ref : nat) (old : Service) :
  currentService s = Some ref ->
  services s !! ref = Some old ->
  let r := changeApi o api now timestamp s in
  exists old',
    services (state r) !! ref = Some old' /\
    (serviceApi old <> webSpeech -> serviceIsListening old' = false) /\
    (serviceIsListening old = true ->
     serviceMediaStream old' = None /\ serviceAudioContext old' = None /\
     (serviceMediaStream old <> None -> TrackStop ∈ effects r)) /\
    (serviceIsListening old = false -> old' = old) /\
    (forall wo ws, old = WebSpeechInstance wo ws ->
       old' = old /\
       (WebSpeech.listening ws = true -> WebSpeech.recognition ws <> None ->
        exists rest, effects r = RecognitionStop :: rest) /\
       WebSpeech.isListening (state (WebSpeech.onend ws)) = false) /\
    getApi (state r) = api /\
    currentService (state r) = Some (length (services s)) /\
    services (state r) !! length (services s) = Some (newService o api) /\
    serviceIsListening (newService o api) = false /\
    serviceMediaStream (newService o api) = None /\
    filter acquires (effects r) = [].
Proof.
  intros Hcur Hsvc r.
  destruct (changeApi_run o api now timestamp s ref old Hcur Hsvc)
    as (Hs & Ha & Hc & He & Hstop).
  fold r in Hs, Ha, Hc, He, Hstop.
  assert (ref < length (services s))%nat as Hlt by by eapply lookup_lt_Some.
  destruct (serviceStop_released timestamp old) as (Hl & Hw & Hm & _).
  destruct (newService_fresh o api) as (Hnl & Hnm & _ & _).
  eexists. split.
  { rewrite Hs, lookup_app_l by (by rewrite length_insert).
    by apply list_lookup_insert_eq. }
  split.
  { intros Hne. destruct (serviceIsListening old) eqn:E; [by apply Hl|done]. }
  split.
  { intros Hon. rewrite Hon. destruct (Hm Hon) as [Hm1 Hm2].
    split; [done|]. split; [done|]. intros Hheld.
    destruct (Hstop Hon) as [rest ->]. apply elem_of_app. left.
    by apply serviceStop_stops_tracks. }
  split.
  { by intros ->. }
  split.
  { intros wo ws ->. split; [|split].
    - destruct (serviceIsListening _); [by apply Hw|done].
    - intros Hon Hrec. cbn in Hstop. unfold WebSpeech.isListening in Hstop.
      destruct (Hstop Hon) as [rest Hrest].
      destruct (WebSpeech_stop_unchanged ws) as (_ & _ & Hws).
      unfold wrap, effects in Hrest. cbn in Hrest.
      unfold effects in Hws. rewrite (Hws Hon Hrec) in Hrest. by eexists.
    - done. }
  split; [done|]. split; [done|]. split.
  { rewrite Hs. apply list_lookup_middle. by rewrite length_insert. }
  done.
Qed.

Lemma changeApi_releases_then_creates_witness :
  let s := state (start pageOptions granted granted 1000 (selected assemblyAINano)) in
  let r := changeApi pageOptions whisper 2000 "" s in
  (currentService s = Some 1%nat /\ isListening s = true) /\
  exists old',
    services (state r) !! 1%nat = Some old' /\
    serviceIsListening old' = false /\
    serviceMediaStream old' = None /\
    getApi (state r) = whisper /\
    filter acquires (effects r) = [] /\
    TrackStop ∈ effects r.
Proof.
  intros s r. split; [split; reflexivity|].
  destruct (changeApi_releases_then_creates pageOptions whisper 2000 "" s
              1%nat _ eq_refl eq_refl)
    as (old' & Hold & Hl & Hm & _ & _ & Ha & _ & _ & _ & _ & He).
  exists old'. split; [exact Hold|].
  split; [apply Hl; discriminate|].
  split; [apply (Hm eq_refl)|].
  split; [exact Ha|].
  split; [exact He|].
  apply (Hm eq_refl). discriminate.
Defined.

End ChangeApi.

(** ** The encoder on sample inputs *)

Section WavExamples.
Import Js.

Lemma float32ToWav_canonical_witness :
  let samples := [0; 1 # 2; -1 # 2; 2; -3]%Q in
  ((0 <= 16000)%Z /\ (16000 * 2 < 4294967296)%Z /\
   (36 + 2 * Z.of_nat (length samples) < 4294967296)%Z) /\
  exists buffer,
    float32ToWav samples 16000 = Some buffer /\
    length buffer = 54%nat /\
    getUint32 buffer 4 = Some 46%Z /\
    getUint32 buffer 24 = Some 16000%Z /\
    getUint32 buffer 28 = Some 32000%Z /\
    getUint32 buffer 40 = Some 10%Z /\
    getInt16 buffer 46 = Some 16383%Z /\
    getInt16 buffer 48 = Some (-16384)%Z /\
    getInt16 buffer 50 = Some 32767%Z /\
    getInt16 buffer 52 = Some (-32768)%Z.
Proof.
  intros samples. split; [cbn; lia|].
  destruct (float32ToWav_canonical samples 16000
              ltac:(lia) ltac:(lia) ltac:(cbn; lia))
    as (buffer & Hb & _ & Hlen & _ & Hfile & _ & _ & _ & _ & _ & Hrate
        & Hbyte & _ & _ & _ & Hdata & Hpcm).
  exists buffer. split; [exact Hb|]. split; [exact Hlen|].
  split; [exact Hfile|]. split; [exact Hrate|]. split; [exact Hbyte|].
  split; [exact Hdata|].
  split; [exact (proj2 (proj2 (proj2 (proj2 (Hpcm 1%nat _ eq_refl)))))|].
  split; [exact (proj2 (proj2 (proj2 (proj2 (Hpcm 2%nat _ eq_refl)))))|].
  split; [exact (proj2 (proj2 (proj2 (proj2 (Hpcm 3%nat _ eq_refl)))))|].
  exact (proj2 (proj2 (proj2 (proj2 (Hpcm 4%nat _ eq_refl))))).
Defined.

(** An all-zero buffer of 160 samples at 16000 Hz: 364 bytes, the
    sample rate field holds 16000, the file length field 36 + 2 * 160,
    and the payload is zero. *)
Example float32ToWav_ten_ms_of_silence :
  exists buffer,
    float32ToWav (replicate 160 0%Q) 16000 = Some buffer /\
    length buffer = 364%nat /\
    getUint32 buffer 24 = Some 16000%Z /\
    getUint32 buffer 4 = Some 356%Z /\
    drop 44 buffer = replicate 320 0%Z.
Proof.
  eexists. split; [apply float32ToWav_layout|].
  vm_compute. repeat split.
Qed.

End WavExamples.

(** ** Well-formed closures of the factory *)

Section WellFormed.
Import Js Orchestrator OrchestratorSpec.

Lemma serviceStart_api p svc :
  serviceApi (state (serviceStart p svc)) = serviceApi svc.
Proof. by destruct svc. Qed.

Lemma serviceStop_api timestamp svc :
  serviceApi (state (serviceStop timestamp svc)) = serviceApi svc.
Proof. by destruct svc. Qed.

Lemma serviceUpdateLanguage_api l svc :
  serviceApi (state (serviceUpdateLanguage l svc)) = serviceApi svc.
Proof. by destruct svc. Qed.

Lemma call_run {A} ref (m : M Service A) d s svc :
  services s !! ref = Some svc ->
  call ref m d s
  = (result (m svc), set_services (<[ref := state (m svc)]> (services s)) s,
     effects (m svc)).
Proof.
  intros H. unfold call. rewrite H. by destruct (m svc) as [[a svc'] e].
Qed.

Lemma create_wf o : wf (create o).
Proof. by exists 0%nat, (newService o webSpeech). Qed.

Lemma stopDurationTracking_frame o now s :
  services (state (stopDurationTracking o now s)) = services s /\
  currentService (state (stopDurationTracking o now s)) = currentService s /\
  currentApi (state (stopDurationTracking o now s)) = currentApi s.
Proof.
  unfold stopDurationTracking.
  cbv [mbind M_bind bind get modify when mret M_ret ret emit].
  destruct (startTime s) as [t|] eqn:Ht; cbn; rewrite ?Ht; run_cases; done.
Qed.

Lemma startDurationTracking_frame now s :
  services (state (startDurationTracking now s)) = services s /\
  currentService (state (startDurationTracking now s)) = currentService s /\
  currentApi (state (startDurationTracking now s)) = currentApi s.
Proof.
  unfold startDurationTracking.
  cbv [mbind M_bind bind get modify when mret M_ret ret emit].
  run_cases; done.
Qed.

Lemma wf_insert s ref svc svc' :
  currentService s = Some ref ->
  services s !! ref = Some svc ->
  serviceApi svc' = serviceApi svc ->
  serviceApi svc = currentApi s ->
  forall s', services s' = <[ref := svc']> (services s) ->
    currentService s' = Some ref -> currentApi s' = currentApi s -> wf s'.
Proof.
  intros Hc Hs Ha Hapi s' Hs' Hc' Ha'. exists ref, svc'.
  split; [done|]. split; [|congruence].
  rewrite Hs'. apply list_lookup_insert_eq. by eapply lookup_lt_Some.
Qed.

Lemma wf_fresh o api s' l :
  services s' = l ++ [newService o api] ->
  currentService s' = Some (length l) -> currentApi s' = api -> wf s'.
Proof.
  intros Hs Hc Ha. exists (length l), (newService o api).
  split; [done|]. split; [by rewrite Hs, list_lookup_middle|].
  rewrite Ha. by destruct api.
Qed.

Lemma start_wf o p fallback now s :
  wf s -> wf (state (start o p fallback now s)).
Proof.
  intros (ref & svc & Hc & Hs & Ha).
  destruct (serviceStart p svc) as [[[|reason] svc'] e] eqn:E.
  - (* the service started *)
    pose proof (serviceStart_api p svc) as Hk. rewrite E in Hk. cbn in Hk.
    unfold start. cbv [mbind M_bind bind get mret M_ret ret].
    rewrite Hc. rewrite (surjective_pairing (when _ _ s)).
    assert (forall b, (when (S := State) b (emit OnTranscriptionStart) s).1.2 = s)
      as Hw by (intros []; reflexivity).
    rewrite (surjective_pairing (when _ _ s).1), Hw.
    rewrite (call_run ref _ _ s svc Hs), E. cbn [result state effects fst snd].
    match goal with |- context [startDurationTracking now ?s1] =>
      destruct (startDurationTracking_frame now s1) as (H1 & H2 & H3);
      destruct (startDurationTracking now s1) as [[[] s2] e2]
    end.
    cbn in *. eapply (wf_insert s ref svc svc'); try done; congruence.
  - destruct (decide (currentApi s = webSpeech)) as [Hweb|Hweb].
    + rewrite (start_first_rejected o p fallback now s ref svc svc' reason e
                 Hc Hs E Hweb). cbn.
      pose proof (serviceStart_api p svc) as Hk. rewrite E in Hk. cbn in Hk.
      by eapply (wf_insert s ref svc svc').
    + destruct (serviceStart fallback (newService o webSpeech))
        as [[r2 ws] e2] eqn:E2.
      destruct (start_fallback_run o p fallback now s ref svc svc' ws reason
                  e e2 r2 Hc Hs E Hweb E2) as (_ & Hapi & Hcur & Hsv & _).
      exists (length (services s)), ws.
      split; [done|]. split.
      * rewrite Hsv. apply list_lookup_middle. by rewrite length_insert.
      * rewrite Hapi.
        pose proof (serviceStart_api fallback (newService o webSpeech)) as Hk.
        rewrite E2 in Hk. done.
Qed.

Lemma stop_wf o now timestamp s : wf s -> wf (state (stop o now timestamp s)).
Proof.
  intros (ref & svc & Hc & Hs & Ha).
  unfold stop. cbv [mbind M_bind bind get mret M_ret ret].
  rewrite Hc. rewrite (call_run ref _ _ s svc Hs).
  cbn [result state effects fst snd].
  match goal with |- context [stopDurationTracking o now ?s1] =>
    destruct (stopDurationTracking_frame o now s1) as (H1 & H2 & H3);
    destruct (stopDurationTracking o now s1) as [[[] s2] e2]
  end.
  cbn in *.
  eapply (wf_insert s ref svc (state (serviceStop timestamp svc)));
    try done; try congruence.
  apply serviceStop_api.
Qed.

Lemma changeApi_wf o api now timestamp s :
  wf s -> wf (state (changeApi o api now timestamp s)).
Proof.
  intros (ref & svc & Hc & Hs & Ha).
  destruct (changeApi_run o api now timestamp s ref svc Hc Hs)
    as (Hsv & Hapi & Hcur & _).
  eapply wf_fresh; [exact Hsv| |exact Hapi].
  rewrite Hcur. f_equal. by rewrite length_insert.
Qed.

Lemma forceFinalize_wf timestamp s :
  wf s -> wf (state (forceFinalize timestamp s)).
Proof.
  intros (ref & svc & Hc & Hs & Ha).
  unfold forceFinalize. cbv [mbind M_bind bind get mret M_ret ret].
  destruct (isListening s); cbn [negb]; [|by exists ref, svc].
  rewrite Hc, (call_run ref _ _ s svc Hs). cbn.
  eapply (wf_insert s ref svc (state (serviceStop timestamp svc)));
    try done. apply serviceStop_api.
Qed.

End WellFormed.

Section WellFormedUpdate.
Import Js Orchestrator OrchestratorSpec.

Lemma updateLanguage_wf o l now timestamp s :
  wf s -> wf (state (updateLanguage o l now timestamp s)).
Proof.
  intros (ref & svc & Hc & Hs & Ha).
  unfold updateLanguage, isListening. cbv [mbind M_bind bind get mret M_ret ret].
  rewrite Hc, Hs.
  destruct (serviceIsListening svc) eqn:Hl.
  - (* stopped first *)
    cbv [when mbind M_bind bind]. rewrite (call_run ref _ _ s svc Hs).
    cbn [result state effects fst snd].
    match goal with |- context [stopDurationTracking o now ?s1] =>
      destruct (stopDurationTracking_frame o now s1) as (H1 & H2 & H3);
      destruct (stopDurationTracking o now s1) as [[[] s2] e2]
    end.
    cbn in H1, H2, H3.
    assert (services s2 !! ref = Some (state (serviceStop timestamp svc))) as Hs2.
    { rewrite H1. apply list_lookup_insert_eq. by eapply lookup_lt_Some. }
    destruct (hasUpdateLanguage svc).
    + rewrite (call_run ref _ _ s2 _ Hs2). cbn.
      exists ref, (state (serviceUpdateLanguage (beforeDash l)
                            (state (serviceStop timestamp svc)))).
      cbn. split; [congruence|]. split.
      * apply list_lookup_insert_eq. by eapply lookup_lt_Some.
      * rewrite serviceUpdateLanguage_api, serviceStop_api. congruence.
    + unfold createService. cbv [mbind M_bind bind get mret M_ret ret modify].
      cbn. eapply wf_fresh; cbn; try done.
  - cbn [when]. cbv [mret M_ret ret].
    destruct (hasUpdateLanguage svc).
    + rewrite (call_run ref _ _ s svc Hs). cbn.
      eapply (wf_insert s ref svc
                (state (serviceUpdateLanguage (beforeDash l) svc)));
        try done. apply serviceUpdateLanguage_api.
    + unfold createService. cbv [mbind M_bind bind get mret M_ret ret modify].
      cbn. eapply wf_fresh; cbn; done.
Qed.

End WellFormedUpdate.

(** ** The WAV encoder keeps the order of the samples *)


Section WavOrder.

Lemma truncate_mono (a b : Q) : (a <= b)%Q -> (truncate a <= truncate b)%Z.
Proof.
  destruct a as [n1 d1], b as [n2 d2]. unfold Qle, truncate. cbn.
  intros H.
  pose proof (Z.quot_rem' n1 (Z.pos d1)) as E1.
  pose proof (Z.quot_rem' n2 (Z.pos d2)) as E2.
  set (q1 := (n1 ÷ Z.pos d1)%Z) in *. set (q2 := (n2 ÷ Z.pos d2)%Z) in *.
  set (r1 := Z.rem n1 (Z.pos d1)) in *. set (r2 := Z.rem n2 (Z.pos d2)) in *.
  assert (0 < Z.pos d1 * Z.pos d2)%Z as Hdd by lia.
  destruct (Z_le_gt_dec q1 q2) as [|Hgt]; [done|exfalso].
  assert (Z.pos d1 * Z.pos d2 * (q2 + 1) <= Z.pos d1 * Z.pos d2 * q1)%Z as Hq
    by nia.
  destruct (Z_lt_le_dec n1 0) as [Hn1|Hn1]; destruct (Z_lt_le_dec n2 0) as [Hn2|Hn2].
  - pose proof (Z.rem_bound_pos_neg n1 (Z.pos d1) ltac:(lia) ltac:(lia)) as B1.
    pose proof (Z.rem_bound_pos_neg n2 (Z.pos d2) ltac:(lia) ltac:(lia)) as B2.
    fold r1 in B1. fold r2 in B2.
    assert (- (Z.pos d1 * Z.pos d2) < r1 * Z.pos d2)%Z by nia.
    assert (r2 * Z.pos d1 <= 0)%Z by nia.
    nia.
  - pose proof (Z.quot_pos n2 (Z.pos d2) ltac:(lia) ltac:(lia)) as P2. fold q2 in P2.
    pose proof (Z.rem_bound_pos_neg n1 (Z.pos d1) ltac:(lia) ltac:(lia)) as B1. fold r1 in B1.
    assert (q1 <= 0)%Z by nia. lia.
  - nia.
  - pose proof (Z.rem_bound_pos n1 (Z.pos d1) ltac:(lia) ltac:(lia)) as B1.
    pose proof (Z.rem_bound_pos n2 (Z.pos d2) ltac:(lia) ltac:(lia)) as B2.
    fold r1 in B1. fold r2 in B2.
    assert (0 <= r1 * Z.pos d2)%Z by nia.
    assert (r2 * Z.pos d1 < Z.pos d1 * Z.pos d2)%Z by nia.
    nia.
Qed.

Lemma clampSample_mono (x y : Q) : (x <= y)%Q -> (clampSample x <= clampSample y)%Q.
Proof.
  intros H. unfold clampSample.
  apply Q.max_le_compat_l, Q.min_le_compat_l, H.
Qed.

Lemma scaleSample_mono (x y : Q) : (x <= y)%Q -> (scaleSample x <= scaleSample y)%Q.
Proof.
  intros H. unfold scaleSample.
  destruct (Qlt_le_dec x 0), (Qlt_le_dec y 0); Lqa.lra.
Qed.

Lemma pcm16_mono (x y : Q) : (x <= y)%Q -> (pcm16 x <= pcm16 y)%Z.
Proof.
  intros H. apply truncate_mono, scaleSample_mono, clampSample_mono, H.
Qed.

End WavOrder.

Section WavOrderTheorem.

Lemma float32ToWav_sample (samples : list Q) (sampleRate : Z) (i : nat) (x : Q) :
  samples !! i = Some x ->
  getInt16 (header (length samples) sampleRate ++ pcmBytes samples) (44 + 2 * i)
  = Some (pcm16 x).
Proof.
  intros Hx. destruct (pcmBytes_lookup samples i x Hx) as [H0 H1].
  unfold getInt16, getUint16.
  rewrite !lookup_app_r by (change (length (header _ _)) with 44%nat; lia).
  change (length (header _ _)) with 44%nat.
  replace (44 + 2 * i - 44)%nat with (2 * i)%nat by lia.
  replace (44 + 2 * i + 1 - 44)%nat with (2 * i + 1)%nat by lia.
  rewrite H0, H1. f_equal.
  apply (int16_decode (pcm16 x)), pcm16_range.
Qed.

(** X1.  [float32ToWav] quantises without wrap-around: whatever the sample
    rate, the 16-bit values read back from the file are in the order of
    the samples they encode, a sample of 0 is stored as 0, and samples at
    or beyond the ends of [-1, 1] are stored as the extreme values -32768
    and 32767. *)
Theorem float32ToWav_order_preserving (samples : list Q) (sampleRate : Z)
    (i j : nat) (x y : Q) :
  samples !! i = Some x -> samples !! j = Some y -> (x <= y)%Q ->
  exists buffer a b,
    float32ToWav samples sampleRate = Some buffer /\
    getInt16 buffer (44 + 2 * i) = Some a /\
    getInt16 buffer (44 + 2 * j) = Some b /\
    (-32768 <= a)%Z /\ (a <= b)%Z /\ (b <= 32767)%Z /\
    ((x == 0)%Q -> a = 0%Z) /\
    ((x <= -1)%Q -> a = (-32768)%Z) /\
    ((1 <= y)%Q -> b = 32767%Z).
Proof.
  intros Hx Hy Hle.
  exists (header (length samples) sampleRate ++ pcmBytes samples),
         (pcm16 x), (pcm16 y).
  split; [apply float32ToWav_layout|].
  split; [by apply float32ToWav_sample|].
  split; [by apply float32ToWav_sample|].
  split; [apply pcm16_range|].
  split; [by apply pcm16_mono|].
  split; [apply pcm16_range|].
  split; [|split].
  - intros H0. apply Z.le_antisymm.
    + change 0%Z with (pcm16 0). apply pcm16_mono. by rewrite H0.
    + change 0%Z with (pcm16 0). apply pcm16_mono. by rewrite H0.
  - intros H1. apply Z.le_antisymm; [|apply pcm16_range].
    change (-32768)%Z with (pcm16 (-1)). by apply pcm16_mono.
  - intros H1. apply Z.le_antisymm; [apply pcm16_range|].
    change 32767%Z with (pcm16 1). by apply pcm16_mono.
Qed.

Lemma float32ToWav_order_preserving_witness :
  exists buffer,
    float32ToWav [(-3 # 2); (1 # 4); 2]%Q 16000 = Some buffer /\
    getInt16 buffer 44 = Some (-32768)%Z /\
    getInt16 buffer 48 = Some 32767%Z.
Proof.
  destruct (float32ToWav_order_preserving [(-3 # 2); (1 # 4); 2]%Q 16000
              0 2 (-3 # 2)%Q 2%Q eq_refl eq_refl ltac:(by vm_compute))
    as (buffer & a & b & Hb & Ha & Hb' & _ & _ & _ & _ & Hlo & Hhi).
  exists buffer. split; [exact Hb|].
  rewrite <- (Hlo ltac:(by vm_compute)), <- (Hhi ltac:(by vm_compute)).
  split; [exact Ha|exact Hb'].
Defined.

End WavOrderTheorem.

(** ** The 16-bit conversion of the streaming service *)

Section Int16Conversion.
Import AssemblyAI.

Lemma truncate_inject_Z (k : Z) : truncate (inject_Z k) = k.
Proof. unfold truncate. cbn. apply Z.quot_1_r. Qed.

Lemma truncate_opp (a : Q) : truncate (- a) = (- truncate a)%Z.
Proof. destruct a as [n d]. unfold truncate. cbn. apply Z.quot_opp_l. lia. Qed.

Lemma truncate_Qeq (a b : Q) : (a == b)%Q -> truncate a = truncate b.
Proof.
  intros H. apply Z.le_antisymm; apply truncate_mono; rewrite H; apply Qle_refl.
Qed.

Lemma toInt16_small (z : Z) : (-32768 <= z <= 32767)%Z -> toInt16 z = z.
Proof.
  intros H. unfold toInt16.
  destruct (Z.ltb_spec (z mod 65536) 32768);
    Z.to_euclidean_division_equations; lia.
Qed.

(** [Math.min(1, Math.max(-1, x)) * 0x7FFF]. *)
Lemma scaled_range (x : Q) :
  (inject_Z (-32767) <= Qmin 1 (Qmax (-1) x) * 32767 <= inject_Z 32767)%Q.
Proof.
  assert (-1 <= Qmin 1 (Qmax (-1) x) <= 1)%Q as [Hlo Hhi].
  { split; [apply Q.min_glb; [done|apply Q.le_max_l]|apply Q.le_min_l]. }
  change (inject_Z 32767) with 32767%Q.
  change (inject_Z (-32767)) with (-32767)%Q. split; Lqa.lra.
Qed.

Lemma clamp_opp (x : Q) :
  (Qmin 1 (Qmax (-1) (- x)) == - Qmin 1 (Qmax (-1) x))%Q.
Proof.
  destruct (Qlt_le_dec x (-1)) as [H1|H1]; [|destruct (Qlt_le_dec 1 x) as [H2|H2]].
  - rewrite (Q.max_l (-1) x) by Lqa.lra.
    rewrite (Q.max_r (-1) (- x)) by Lqa.lra.
    rewrite (Q.min_l 1 (- x)) by Lqa.lra.
    rewrite (Q.min_r 1 (-1)) by Lqa.lra. reflexivity.
  - rewrite (Q.max_r (-1) x) by Lqa.lra.
    rewrite (Q.max_l (-1) (- x)) by Lqa.lra.
    rewrite (Q.min_l 1 x) by Lqa.lra.
    rewrite (Q.min_r 1 (-1)) by Lqa.lra. reflexivity.
  - rewrite (Q.max_r (-1) x) by Lqa.lra.
    rewrite (Q.max_r (-1) (- x)) by Lqa.lra.
    rewrite (Q.min_r 1 x) by Lqa.lra.
    rewrite (Q.min_r 1 (- x)) by Lqa.lra. reflexivity.
Qed.

Lemma convert_element (x : Q) :
  let v := toInt16 (truncate (Qmin 1 (Qmax (-1) x) * 32767)) in
  v = truncate (Qmin 1 (Qmax (-1) x) * 32767) /\ (-32767 <= v <= 32767)%Z.
Proof.
  intros v. subst v. destruct (scaled_range x) as [Hlo Hhi].
  apply truncate_mono in Hlo, Hhi. rewrite truncate_inject_Z in Hlo, Hhi.
  rewrite toInt16_small by lia. split; [done|lia].
Qed.

(** X2.  [convertFloat32ToInt16] returns as many elements as the frame
    has samples, each in [-32767, 32767]: the value -32768 is never
    produced and the stored element is the number written, with no
    wrap-around.  The conversion is odd: the frame of the negated samples
    gives the negated elements.  A sample of 1 or more gives 32767 and a
    sample of -1 or less gives -32767. *)
Theorem convertFloat32ToInt16_symmetric (buffer : list Q) :
  length (convertFloat32ToInt16 buffer) = length buffer /\
  (forall i v, convertFloat32ToInt16 buffer !! i = Some v ->
     (-32767 <= v <= 32767)%Z) /\
  convertFloat32ToInt16 (map Qopp buffer)
  = map Z.opp (convertFloat32ToInt16 buffer) /\
  (forall i x, buffer !! i = Some x -> (1 <= x)%Q ->
     convertFloat32ToInt16 buffer !! i = Some 32767%Z) /\
  (forall i x, buffer !! i = Some x -> (x <= -1)%Q ->
     convertFloat32ToInt16 buffer !! i = Some (-32767)%Z).
Proof.
  unfold convertFloat32ToInt16.
  split; [apply length_map|].
  split; [|split; [|split]].
  - intros i v Hv. rewrite list_lookup_fmap in Hv.
    destruct (buffer !! i) as [x|]; [|done]. injection Hv as <-.
    apply convert_element.
  - rewrite <- !list_fmap_compose. apply list_fmap_ext. intros i x _. cbn.
    rewrite !(proj1 (convert_element _)).
    rewrite <- truncate_opp. apply truncate_Qeq.
    rewrite clamp_opp. Lqa.lra.
  - intros i x Hx H1. rewrite list_lookup_fmap, Hx. cbn. f_equal.
    rewrite (proj1 (convert_element _)).
    rewrite <- (truncate_inject_Z 32767). apply truncate_Qeq.
    rewrite (Q.max_r (-1) x) by Lqa.lra. rewrite (Q.min_l 1 x) by Lqa.lra.
    reflexivity.
  - intros i x Hx H1. rewrite list_lookup_fmap, Hx. cbn. f_equal.
    rewrite (proj1 (convert_element _)).
    rewrite <- (truncate_inject_Z (-32767)). apply truncate_Qeq.
    rewrite (Q.max_l (-1) x) by Lqa.lra. rewrite (Q.min_r 1 (-1)) by Lqa.lra.
    reflexivity.
Qed.

End Int16Conversion.

(** ** Stopping twice *)

Section StopTwice.
Import Js.

Lemma Nano_stop_idle o s :
  Nano.isCurrentlyListening s = false -> Nano.stop o s = (tt, s, []).
Proof.
  intros H. unfold Nano.stop. cbv [mbind M_bind bind get]. by rewrite H.
Qed.

Lemma Whisper_stop_idle o s :
  Whisper.isCurrentlyListening s = false -> Whisper.stop o s = (tt, s, []).
Proof.
  intros H. unfold Whisper.stop. cbv [mbind M_bind bind get]. by rewrite H.
Qed.

Lemma Google_stop_idle o s :
  Google.isCurrentlyListening s = false -> Google.stop o s = (tt, s, []).
Proof.
  intros H. unfold Google.stop. cbv [mbind M_bind bind get]. by rewrite H.
Qed.

Lemma Realtime_stop_idle timestamp s :
  Realtime.listening s = false -> Realtime.stop timestamp s = (tt, s, []).
Proof.
  intros H. unfold Realtime.stop. cbv [mbind M_bind bind get]. by rewrite H.
Qed.

Lemma AssemblyAI_stop_idle s :
  AssemblyAI.listening s = false -> AssemblyAI.stop s = (tt, s, []).
Proof.
  intros H. unfold AssemblyAI.stop. cbv [mbind M_bind bind get]. by rewrite H.
Qed.

(** X4.  [stop()] of the five services that capture audio themselves is
    idempotent: called again on the state a [stop()] leaves, it changes
    nothing and asks nothing of the platform (no track is stopped twice,
    no audio context closed twice, nothing is sent).  The Web Speech
    service differs: until the recogniser's [end] event arrives, every
    [stop()] asks the recogniser to stop again. *)
Theorem stop_twice :
  (forall o s, let s' := state (Nano.stop o s) in
     Nano.stop o s' = (tt, s', [])) /\
  (forall o s, let s' := state (Whisper.stop o s) in
     Whisper.stop o s' = (tt, s', [])) /\
  (forall o s, let s' := state (Google.stop o s) in
     Google.stop o s' = (tt, s', [])) /\
  (forall timestamp s, let s' := state (Realtime.stop timestamp s) in
     Realtime.stop timestamp s' = (tt, s', [])) /\
  (forall s, let s' := state (AssemblyAI.stop s) in
     AssemblyAI.stop s' = (tt, s', [])) /\
  (forall s, WebSpeech.listening s = true ->
     WebSpeech.recognition s <> None ->
     let s' := state (WebSpeech.stop s) in
     WebSpeech.stop s' = (tt, s', [RecognitionStop]) /\
     WebSpeech.stop (state (WebSpeech.onend s')) =
       (tt, state (WebSpeech.onend s'), [])).
Proof.
  repeat match goal with |- _ /\ _ => split end.
  - intros o s s'. apply Nano_stop_idle, (Nano_stop_released o s).
  - intros o s s'. apply Whisper_stop_idle, (Whisper_stop_released o s).
  - intros o s s'. apply Google_stop_idle, (Google_stop_released o s).
  - intros t s s'. apply Realtime_stop_idle, (Realtime_stop_released t s).
  - intros s s'. apply AssemblyAI_stop_idle, (AssemblyAI_stop_released s).
  - intros s Hl Hr s'. subst s'.
    destruct (WebSpeech_stop_unchanged s) as (-> & _ & _).
    unfold WebSpeech.stop, WebSpeech.onend.
    cbv [mbind M_bind bind get modify state]. cbn. rewrite Hl.
    destruct (WebSpeech.recognition s); done.
Qed.

Lemma stop_twice_witness :
  let s := WebSpeech.set_listening true
             (WebSpeech.set_recognition (Some WebSpeech.recognitionHandle)
                WebSpeech.create) in
  WebSpeech.listening s = true /\
  effects (WebSpeech.stop (state (WebSpeech.stop s))) = [RecognitionStop].
Proof.
  intros s. split; [reflexivity|].
  destruct stop_twice as (_ & _ & _ & _ & _ & H).
  destruct (H s eq_refl ltac:(done)) as [-> _]. reflexivity.
Defined.

End StopTwice.

(** ** A [start()] that fails after the microphone was granted *)

Section FailedStart.
Import Js.

(** X5.  When the microphone is granted and the audio context cannot be
    created, [start()] of the Whisper, AssemblyAI-Nano, Google, Realtime
    and AssemblyAI services rejects after logging the error, and the
    [catch] block releases nothing: the service keeps the stream it was
    given, no track is stopped, and as the service is not listening a
    later [stop()] returns at once, so the stream is never stopped by the
    service.  (The AssemblyAI service needs an API key to get that far;
    it also keeps its transcriber.) *)
Theorem failed_start_keeps_the_stream (p : Platform) :
  getUserMedia p = true -> audioContextCtor p = false ->
  (forall o s, Nano.isListening s = false ->
     let r := Nano.start o p s in
     (exists reason, result r = Rejected reason) /\
     Nano.mediaStream (state r) = Some mediaStreamHandle /\
     Nano.isListening (state r) = false /\
     effects r = [GetUserMedia;
                  ConsoleError "Error starting AssemblyAI Nano service:"] /\
     Nano.stop o (state r) = (tt, state r, [])) /\
  (forall o s, Whisper.isListening s = false ->
     let r := Whisper.start o p s in
     (exists reason, result r = Rejected reason) /\
     Whisper.mediaStream (state r) = Some mediaStreamHandle /\
     Whisper.isListening (state r) = false /\
     effects r = [GetUserMedia;
                  ConsoleError "Error starting Whisper service:"] /\
     Whisper.stop o (state r) = (tt, state r, [])) /\
  (forall o recorderCtor s, Google.isListening s = false ->
     let r := Google.start o recorderCtor p s in
     (exists reason, result r = Rejected reason) /\
     Google.mediaStream (state r) = Some mediaStreamHandle /\
     Google.isListening (state r) = false /\
     effects r = [GetUserMedia;
                  ConsoleError "Error starting Google Speech service:"] /\
     Google.stop o (state r) = (tt, state r, [])) /\
  (forall o timestamp s, Realtime.isListening s = false ->
     let r := Realtime.start o p s in
     (exists reason, result r = Rejected reason) /\
     Realtime.mediaStream (state r) = Some mediaStreamHandle /\
     Realtime.isListening (state r) = false /\
     effects r = [GetUserMedia;
                  ConsoleError "Error starting Realtime service:"] /\
     Realtime.stop timestamp (state r) = (tt, state r, [])) /\
  (forall o s, AssemblyAI.isListening s = false ->
     truthy (AssemblyAI.apiKey o) = true ->
     let r := AssemblyAI.start o p s in
     (exists reason, result r = Rejected reason) /\
     AssemblyAI.mediaStream (state r) = Some mediaStreamHandle /\
     AssemblyAI.transcriber (state r) <> None /\
     AssemblyAI.isListening (state r) = false /\
     (TrackStop ∉ effects r) /\ (TranscriberClose ∉ effects r) /\
     AssemblyAI.stop (state r) = (tt, state r, [])).
Proof.
  intros Hm Ha.
  repeat match goal with |- _ /\ _ => split end.
  - intros o s Hl r. subst r. unfold Nano.isListening in *.
    rewrite Nano_stop_idle;
      unfold Nano.start; cbv [mbind M_bind bind get]; rewrite Hl, Hm, Ha;
      cbn; eauto 10.
  - intros o s Hl r. subst r. unfold Whisper.isListening in *.
    rewrite Whisper_stop_idle;
      unfold Whisper.start; cbv [mbind M_bind bind get]; rewrite Hl, Hm, Ha;
      cbn; eauto 10.
  - intros o rc s Hl r. subst r. unfold Google.isListening in *.
    rewrite Google_stop_idle;
      unfold Google.start; cbv [mbind M_bind bind get]; rewrite Hl, Hm, Ha;
      cbn; eauto 10.
  - intros o t s Hl r. subst r. unfold Realtime.isListening in *.
    rewrite Realtime_stop_idle;
      unfold Realtime.start; cbv [mbind M_bind bind get]; rewrite Hl, Hm, Ha;
      cbn; eauto 10.
  - intros o s Hl Hk r. subst r. unfold AssemblyAI.isListening in *.
    rewrite AssemblyAI_stop_idle;
      unfold AssemblyAI.start; cbv [mbind M_bind bind get];
      rewrite Hl, Hk, Hm, Ha;
      destruct (tokenFetch p), (transcriberConnect p); cbn;
      rewrite ?elem_of_cons, ?elem_of_nil; try done;
      repeat split; eauto; try done; intros H; decompose [or] H; done.
Qed.

Lemma failed_start_keeps_the_stream_witness :
  let p := {| getUserMedia := true; audioContextCtor := false;
              tokenFetch := true; transcriberConnect := true;
              speechRecognition := true; recognitionStarts := true;
              mediaRecorderCtor := true |} in
  let r := Nano.start NanoSession.options p Nano.create in
  Nano.mediaStream (state r) = Some mediaStreamHandle /\
  effects (Nano.stop NanoSession.options (state r)) = [].
Proof.
  intros p r.
  destruct (failed_start_keeps_the_stream p eq_refl eq_refl) as (H & _).
  destruct (H NanoSession.options Nano.create eq_refl)
    as (_ & Hs & _ & _ & Hstop).
  split; [exact Hs|]. fold r in Hstop. by rewrite Hstop.
Defined.

End FailedStart.

(** ** Starting the AssemblyAI streaming service *)

Section AssemblyAIStart.
Import Js AssemblyAI.

(** X6.  [start()] of the AssemblyAI service on a service that is not
    listening resolves exactly when the API key is not empty, the
    microphone is granted, the transcriber connects and the audio context
    is created; the token endpoint does not matter, since a failed token
    request falls back to a transcriber made with the API key.  Without
    an API key it rejects with 'AssemblyAI API key is required' before it
    asks for the microphone and leaves the service as it was.  When it
    resolves the service is listening and holds the transcriber made with
    the token if the token request succeeded, with the API key
    otherwise. *)
Theorem AssemblyAI_start_outcome (o : Options) (p : Platform) (s : State) :
  listening s = false ->
  let r := start o p s in
  (result r = Resolved <->
   truthy (apiKey o) && getUserMedia p && transcriberConnect p
   && audioContextCtor p = true) /\
  (truthy (apiKey o) = false ->
   r = (Rejected "AssemblyAI API key is required", s,
        [ConsoleError "Error starting AssemblyAI service:"])) /\
  (result r = Resolved ->
   isListening (state r) = true /\
   transcriber (state r)
   = Some (if tokenFetch p then withToken else withApiKey) /\
   mediaStream (state r) = Some mediaStreamHandle /\
   audioContext (state r) = Some Running /\
   fullTranscript (state r) = fullTranscript s).
Proof.
  intros Hl r. subst r. unfold start.
  cbv [mbind M_bind bind get]. rewrite Hl.
  destruct (truthy (apiKey o)), (getUserMedia p), (tokenFetch p),
    (transcriberConnect p), (audioContextCtor p); cbn;
    repeat split; try done.
Qed.

Lemma AssemblyAI_start_outcome_witness :
  let o := {| apiKey := "key"; sampleRate := 16000; bufferSize := 4096;
              wordBoost := [] |} in
  let p := {| getUserMedia := true; audioContextCtor := true;
              tokenFetch := false; transcriberConnect := true;
              speechRecognition := true; recognitionStarts := true;
              mediaRecorderCtor := true |} in
  listening create = false /\
  result (start o p create) = Resolved /\
  transcriber (state (start o p create)) = Some withApiKey.
Proof.
  intros o p. split; [reflexivity|].
  destruct (AssemblyAI_start_outcome o p create eq_refl) as (H & _ & Hr).
  split; [by apply H|]. by destruct (Hr (proj2 H eq_refl)) as (_ & -> & _).
Defined.

End AssemblyAIStart.

(** ** Runs of the factory's methods *)

Section OrchestratorRuns.
Import Js Orchestrator OrchestratorSpec.

Lemma start_resolved_run o p fallback now s ref svc svc' e :
  currentService s = Some ref ->
  services s !! ref = Some svc ->
  serviceStart p svc = (Resolved, svc', e) ->
  let r := start o p fallback now s in
  result r = Resolved /\
  services (state r) = <[ref := svc']> (services s) /\
  currentService (state r) = Some ref /\
  currentApi (state r) = currentApi s /\
  startTime (state r) = Some now /\
  endTime (state r) = endTime s /\
  durationMs (state r) = 0%Z /\
  durationInterval (state r) = Some intervalHandle /\
  effects r = notify o ++ e ++ tracking s.
Proof.
  intros Hc Hs E.
  unfold start, notify, tracking, startDurationTracking.
  cbv [mbind M_bind bind get mret M_ret ret].
  rewrite Hc. unfold call.
  destruct (onTranscriptionStart o); cbn; rewrite Hs, E; cbn;
    destruct (durationInterval s); cbn; rewrite ?app_nil_r; done.
Qed.

Lemma stop_run o now timestamp s ref svc :
  currentService s = Some ref ->
  services s !! ref = Some svc ->
  let r := stop o now timestamp s in
  let r1 := serviceStop timestamp svc in
  services (state r) = <[ref := state r1]> (services s) /\
  currentService (state r) = Some ref /\
  currentApi (state r) = currentApi s /\
  startTime (state r) = startTime s /\
  endTime (state r) = Some now /\
  durationInterval (state r) = None /\
  durationMs (state r)
  = (if truthyTime (startTime s) && negb (now =? 0)%Z
     then now - default 0 (startTime s) else durationMs s)%Z /\
  effects r
  = effects r1
    ++ (if truthyTime (startTime s) && negb (now =? 0)%Z && onDurationUpdate o
        then [OnDurationUpdate (now - default 0 (startTime s))%Z] else [])
    ++ (if nonNull (durationInterval s) then [ClearInterval] else []).
Proof.
  intros Hc Hs. unfold stop. cbv [mbind M_bind bind get mret M_ret ret].
  rewrite Hc, (call_run ref _ _ s svc Hs).
  cbn [result state effects fst snd].
  unfold stopDurationTracking.
  cbv [mbind M_bind bind get modify when mret M_ret ret emit].
  destruct (startTime s) as [t|] eqn:Ht; cbn; rewrite ?Ht; cbn;
    [destruct (t =? 0)%Z; cbn|];
    destruct (now =? 0)%Z, (onDurationUpdate o),
      (durationInterval s) eqn:Hi; cbn;
    rewrite ?app_nil_r, ?Ht, ?Hi; done.
Qed.

End OrchestratorRuns.

(** ** Invariants of a session of the factory *)

Section SessionInvariant.
Import Js Orchestrator OrchestratorSpec OrchestratorSession.

Lemma serviceStart_rejected p svc reason :
  serviceApi svc <> webSpeech ->
  result (serviceStart p svc) = Rejected reason ->
  serviceIsListening (state (serviceStart p svc)) = false.
Proof.
  destruct svc as [o s|o s|o s|o s|o s|o s]; cbn; intros Hapi; [done|..];
    [ unfold Realtime.start, Realtime.isListening;
      destruct (Realtime.listening s) eqn:Hl
    | unfold AssemblyAI.start, AssemblyAI.isListening;
      destruct (AssemblyAI.listening s) eqn:Hl
    | unfold Whisper.start, Whisper.isListening;
      destruct (Whisper.isCurrentlyListening s) eqn:Hl
    | unfold Nano.start, Nano.isListening;
      destruct (Nano.isCurrentlyListening s) eqn:Hl
    | unfold Google.start, Google.isListening, Google.startRecording;
      destruct (Google.isCurrentlyListening s) eqn:Hl ];
    cbv [mbind M_bind bind get when]; rewrite Hl; cbn; try done;
    run_cases; cbn; rewrite ?Hl; done.
Qed.

Lemma serviceUpdateLanguage_listening l svc :
  serviceIsListening (state (serviceUpdateLanguage l svc))
  = serviceIsListening svc.
Proof. by destruct svc. Qed.

Lemma deliver_api rc ev svc :
  serviceApi (state (deliver rc ev svc)) = serviceApi svc.
Proof. by destruct svc, ev. Qed.

Lemma Nano_finalize_listening o s :
  Nano.isCurrentlyListening (state (Nano.finalizeSentence o s))
  = Nano.isCurrentlyListening s.
Proof.
  destruct (Nano.audioChunks s) as [|c cs] eqn:E.
  - by rewrite Nano_finalize_empty.
  - rewrite Nano_finalize_run; [done|by rewrite E].
Qed.

Lemma Whisper_finalize_listening o s :
  Whisper.isCurrentlyListening (state (Whisper.finalizeSentence o s))
  = Whisper.isCurrentlyListening s.
Proof.
  destruct (Whisper.audioChunks s) as [|c cs] eqn:E.
  - by rewrite Whisper_finalize_empty.
  - rewrite Whisper_finalize_run; [done|by rewrite E].
Qed.

Lemma Google_finalize_listening o s :
  Google.isCurrentlyListening (state (Google.finalizeSentence o s))
  = Google.isCurrentlyListening s.
Proof.
  destruct (Google.recordedChunks s) as [|c cs] eqn:E.
  - by rewrite Google_finalize_empty.
  - rewrite Google_finalize_run; [done|by rewrite E].
Qed.

Ltac finalize_listening f lem :=
  match goal with
  | |- context [f ?o ?s1] =>
      pose proof (lem o s1) as Hfin;
      destruct (f o s1) as [[[] ?] ?]; cbn in *; rewrite ?Hfin; done
  end.

Lemma Nano_processAudioData_listening o inputData now s :
  Nano.isCurrentlyListening (state (Nano.processAudioData o inputData now s))
  = Nano.isCurrentlyListening s.
Proof.
  unfold Nano.processAudioData.
  cbv [mbind M_bind bind get modify when mret M_ret ret emit].
  destruct (Float64.gtb _ _); [done|]. cbn.
  destruct (Nano.isSpeaking _); [|done].
  destruct (Nano.silenceStart _) as [since|]; [|done].
  destruct (now - since >? _)%Z; [|done].
  finalize_listening Nano.finalizeSentence Nano_finalize_listening.
Qed.

Lemma Whisper_processAudioData_listening o inputData now s :
  Whisper.isCurrentlyListening
    (state (Whisper.processAudioData o inputData now s))
  = Whisper.isCurrentlyListening s.
Proof.
  unfold Whisper.processAudioData.
  cbv [mbind M_bind bind get modify when mret M_ret ret emit].
  destruct (Nat.ltb _ _).
  { finalize_listening Whisper.finalizeSentence Whisper_finalize_listening. }
  destruct (Float64.gtb _ _); [done|]. cbn.
  destruct (Whisper.isSpeaking _); [|done].
  destruct (Whisper.silenceStart _) as [since|]; [|done].
  destruct (now - since >? _)%Z; [|done].
  finalize_listening Whisper.finalizeSentence Whisper_finalize_listening.
Qed.

Lemma Google_processAudioData_listening o inputData now s :
  Google.isCurrentlyListening
    (state (Google.processAudioData o inputData now s))
  = Google.isCurrentlyListening s.
Proof.
  unfold Google.processAudioData.
  cbv [mbind M_bind bind get modify when mret M_ret ret emit].
  destruct (Float64.gtb _ _); [done|]. cbn.
  destruct (Google.isSpeaking _); [|done].
  destruct (Google.silenceStart _) as [since|]; [|done].
  destruct (now - since >? _)%Z; [|done].
  finalize_listening Google.finalizeSentence Google_finalize_listening.
Qed.

Lemma Realtime_processAudioData_listening o inputData now timestamp s :
  Realtime.listening
    (state (Realtime.processAudioData o inputData now timestamp s))
  = Realtime.listening s.
Proof.
  unfold Realtime.processAudioData, Realtime.finalizeSentence.
  cbv [mbind M_bind bind get modify when mret M_ret ret emit].
  destruct (Float64.gtb _ _); [by destruct (Realtime.isSpeaking _)|].
  destruct (Realtime.isSpeaking _) eqn:Hs; [|done].
  destruct (Realtime.silenceStart _) as [since|]; [|done].
  destruct (now - since >? _)%Z; [|done]. by rewrite Hs.
Qed.

Lemma deliver_listening rc ev svc :
  serviceApi svc <> webSpeech ->
  serviceIsListening (state (deliver rc ev svc)) = true ->
  serviceIsListening svc = true.
Proof.
  destruct svc as [o s|o s|o s|o s|o s|o s]; intros Hapi; [done|..];
    destruct ev; try done; cbn.
  - unfold Realtime.isListening. by rewrite Realtime_processAudioData_listening.
  - unfold AssemblyAI.audioProcess. cbv [mbind M_bind bind get modify when mret M_ret ret emit]. by run_cases.
  - unfold AssemblyAI.transcript. cbv [mbind M_bind bind get modify when mret M_ret ret emit]. by run_cases.
  - unfold AssemblyAI.transcriberError. cbv [mbind M_bind bind get modify when mret M_ret ret emit]. cbn.
    pose proof (AssemblyAI_stop_released s) as (H & _).
    destruct (AssemblyAI.stop s) as [[[] s'] e]. cbn in *. congruence.
  - unfold Whisper.isListening. by rewrite Whisper_processAudioData_listening.
  - unfold Whisper.fetchSettled. destruct r as [| | |[text|]];
      cbv [mbind M_bind bind get modify when mret M_ret ret emit]; by run_cases.
  - unfold Whisper.timerFired, Whisper.isListening.
    cbv [mbind M_bind bind get modify when mret M_ret ret emit].
    destruct (Nat.ltb _ _); [|done].
    finalize_listening Whisper.finalizeSentence Whisper_finalize_listening.
  - unfold Nano.isListening. by rewrite Nano_processAudioData_listening.
  - unfold Nano.fetchSettled. destruct r as [| | |[text|]];
      cbv [mbind M_bind bind get modify when mret M_ret ret emit]; by run_cases.
  - unfold Google.isListening. by rewrite Google_processAudioData_listening.
  - unfold Google.fetchSettled, Google.startRecording, Google.isListening.
    destruct r as [| | |[text|]];
      cbv [mbind M_bind bind get modify when mret M_ret ret emit];
      by run_cases.
  - unfold Google.recordingTimeout. cbv [mbind M_bind bind get modify when mret M_ret ret emit].
    by destruct (Google.mediaRecorder s) as [[]|].
  - unfold Google.dataAvailable. cbv [mbind M_bind bind get modify when mret M_ret ret emit]. by run_cases.
  - unfold Google.recorderStopped, Google.isListening.
    cbv [mbind M_bind bind get modify when mret M_ret ret emit].
    destruct (Google.isRecording _); [|done].
    finalize_listening Google.finalizeSentence Google_finalize_listening.
Qed.

Lemma inv_frame s s' :
  services s' = services s -> currentService s' = currentService s ->
  currentApi s' = currentApi s -> inv s -> inv s'.
Proof.
  intros Hs Hc Ha [(ref & svc & H1 & H2 & H3) Hex]. split.
  - exists ref, svc. rewrite Hs, Hc, Ha. done.
  - intros ref0 svc0. rewrite Hs, Hc. apply Hex.
Qed.

Lemma inv_update_other s s' ref0 svc0 svc0' :
  services s !! ref0 = Some svc0 ->
  services s' = <[ref0 := svc0']> (services s) ->
  currentService s' = currentService s ->
  currentApi s' = currentApi s ->
  serviceApi svc0' = serviceApi svc0 ->
  (serviceApi svc0 <> webSpeech ->
   serviceIsListening svc0' = true -> serviceIsListening svc0 = true) ->
  inv s -> inv s'.
Proof.
  intros H0 Hs Hc Ha Hapi Hl [(ref & svc & H1 & H2 & H3) Hex]. split.
  - destruct (decide (ref = ref0)) as [->|Hne].
    + exists ref0, svc0'. rewrite Hs, Hc, Ha.
      split; [done|]. split; [|congruence].
      apply list_lookup_insert_eq. by eapply lookup_lt_Some.
    + exists ref, svc. rewrite Hs, Hc, Ha.
      split; [done|]. split; [|done].
      by rewrite list_lookup_insert_ne.
  - intros r x Hx Hweb Hlis. rewrite Hc. rewrite Hs in Hx.
    destruct (decide (r = ref0)) as [->|Hne].
    + rewrite list_lookup_insert_eq in Hx by by eapply lookup_lt_Some.
      injection Hx as <-. apply (Hex ref0 svc0 H0); [congruence|].
      apply Hl; [congruence|done].
    + rewrite list_lookup_insert_ne in Hx by done. by apply (Hex r x).
Qed.

Lemma inv_update_current s s' ref svc svc' :
  currentService s = Some ref ->
  services s !! ref = Some svc ->
  services s' = <[ref := svc']> (services s) ->
  currentService s' = Some ref ->
  currentApi s' = currentApi s ->
  serviceApi svc' = serviceApi svc ->
  inv s -> inv s'.
Proof.
  intros Hc H0 Hs Hc' Ha Hapi [(ref1 & svc1 & H1 & H2 & H3) Hex].
  assert (ref1 = ref) as -> by congruence.
  assert (svc1 = svc) as -> by congruence. split.
  - exists ref, svc'. rewrite Hs, Hc', Ha.
    split; [done|]. split; [|congruence].
    apply list_lookup_insert_eq. by eapply lookup_lt_Some.
  - intros r x Hx Hweb Hlis. rewrite Hc'. rewrite Hs in Hx.
    destruct (decide (r = ref)) as [->|Hne]; [done|].
    rewrite list_lookup_insert_ne in Hx by done.
    rewrite <- Hc. by apply (Hex r x).
Qed.

Lemma inv_append s s' ref svc svc' new :
  currentService s = Some ref ->
  services s !! ref = Some svc ->
  services s' = <[ref := svc']> (services s) ++ [new] ->
  currentService s' = Some (length (services s)) ->
  currentApi s' = serviceApi new ->
  serviceApi svc' = serviceApi svc ->
  (serviceApi svc <> webSpeech -> serviceIsListening svc' = false) ->
  inv s -> inv s'.
Proof.
  intros Hc H0 Hs Hc' Ha Hapi Hl [_ Hex].
  pose proof (lookup_lt_Some _ _ _ H0) as Hlt. split.
  - exists (length (services s)), new. rewrite Hs, Hc', Ha.
    split; [done|]. split; [|done].
    apply list_lookup_middle. by rewrite length_insert.
  - intros r x Hx Hweb Hlis. rewrite Hc'. rewrite Hs in Hx.
    destruct (decide (r < length (services s))%nat) as [Hr|Hr].
    + exfalso. rewrite lookup_app_l in Hx by by rewrite length_insert.
      destruct (decide (r = ref)) as [->|Hne].
      * rewrite list_lookup_insert_eq in Hx by done. injection Hx as <-.
        rewrite Hl in Hlis; [done|congruence].
      * rewrite list_lookup_insert_ne in Hx by done.
        pose proof (Hex r x Hx Hweb Hlis). congruence.
    + apply lookup_lt_Some in Hx.
      rewrite length_app, length_insert in Hx. cbn in Hx. f_equal. lia.
Qed.

Lemma updateLanguage_run o l now timestamp s ref svc :
  currentService s = Some ref ->
  services s !! ref = Some svc ->
  let r := updateLanguage o l now timestamp s in
  let old := if serviceIsListening svc
             then state (serviceStop timestamp svc) else svc in
  currentApi (state r) = currentApi s /\
  if hasUpdateLanguage svc
  then services (state r)
       = <[ref := state (serviceUpdateLanguage (beforeDash l) old)]>
           (services s) /\
       currentService (state r) = Some ref
  else services (state r)
       = <[ref := old]> (services s) ++ [newService o (currentApi s)] /\
       currentService (state r) = Some (length (services s)).
Proof.
  intros Hc Hs.
  unfold updateLanguage, isListening. cbv [mbind M_bind bind get mret M_ret ret].
  rewrite Hc, Hs.
  destruct (serviceIsListening svc) eqn:Hl.
  - cbv [when mbind M_bind bind]. rewrite (call_run ref _ _ s svc Hs).
    cbn [result state effects fst snd].
    match goal with |- context [stopDurationTracking o now ?s1] =>
      destruct (stopDurationTracking_frame o now s1) as (H1 & H2 & H3);
      destruct (stopDurationTracking o now s1) as [[[] s2] e2]
    end.
    cbn in H1, H2, H3.
    assert (services s2 !! ref = Some (state (serviceStop timestamp svc))) as Hs2.
    { rewrite H1. apply list_lookup_insert_eq. by eapply lookup_lt_Some. }
    destruct (hasUpdateLanguage svc).
    + rewrite (call_run ref _ _ s2 _ Hs2). cbn.
      rewrite H1, H3, list_insert_insert_eq. split; [done|]. split; [done|congruence].
    + unfold createService. cbv [mbind M_bind bind get mret M_ret ret modify].
      cbn. rewrite H1, H3, length_insert. done.
  - cbn [when]. cbv [mret M_ret ret].
    destruct (hasUpdateLanguage svc).
    + rewrite (call_run ref _ _ s svc Hs). cbn. done.
    + unfold createService. cbv [mbind M_bind bind get mret M_ret ret modify].
      cbn. rewrite (list_insert_id _ _ _ Hs). done.
Qed.

Lemma forceFinalize_run timestamp s ref svc :
  currentService s = Some ref ->
  services s !! ref = Some svc ->
  let r := forceFinalize timestamp s in
  let old := if serviceIsListening svc
             then state (serviceStop timestamp svc) else svc in
  services (state r) = <[ref := old]> (services s) /\
  currentService (state r) = Some ref /\
  currentApi (state r) = currentApi s /\
  startTime (state r) = startTime s /\
  durationMs (state r) = durationMs s /\
  durationInterval (state r) = durationInterval s /\
  effects r = if serviceIsListening svc
              then effects (serviceStop timestamp svc) else [].
Proof.
  intros Hc Hs. unfold forceFinalize, isListening.
  cbv [mbind M_bind bind get mret M_ret ret]. rewrite Hc, Hs.
  destruct (serviceIsListening svc); cbn [negb].
  - rewrite (call_run ref _ _ s svc Hs). done.
  - cbn. by rewrite (list_insert_id _ _ _ Hs).
Qed.

Lemma durationTick_frame o now s :
  services (state (durationTick o now s)) = services s /\
  currentService (state (durationTick o now s)) = currentService s /\
  currentApi (state (durationTick o now s)) = currentApi s.
Proof.
  unfold durationTick.
  cbv [mbind M_bind bind get modify when mret M_ret ret emit].
  destruct (startTime s) as [t|]; [|done].
  destruct (negb _), (onDurationUpdate o); done.
Qed.

Lemma step_inv o st s : inv s -> inv (state (step o st s)).
Proof.
  intros Hinv. pose proof Hinv as [(ref & svc & Hc & Hs & Ha) Hex].
  destruct st as [p fallback now|now timestamp|api now timestamp
                 |l now timestamp|timestamp|now|ref0 rc ev];
    cbn [step].
  - (* start *)
    change (state ((start o p fallback now;; mret ()) s))
      with (state (let '(a, s1, e1) := start o p fallback now s in
                   (tt, s1, e1 ++ []))).
    assert (forall r : Outcome * State * list Effect,
              state (let '(a, s1, e1) := r in (tt, s1, e1 ++ [])) = state r)
      as -> by (by intros [[? ?] ?]).
    destruct (serviceStart p svc) as [[[|reason] svc'] e] eqn:E.
    + destruct (start_resolved_run o p fallback now s ref svc svc' e Hc Hs E)
        as (_ & H1 & H2 & H3 & _).
      eapply (inv_update_current s _ ref svc svc'); try done.
      pose proof (serviceStart_api p svc) as Hk. by rewrite E in Hk.
    + destruct (decide (currentApi s = webSpeech)) as [Hweb|Hweb].
      * rewrite (start_first_rejected o p fallback now s ref svc svc' reason e
                   Hc Hs E Hweb).
        eapply (inv_update_current s _ ref svc svc'); try done.
        pose proof (serviceStart_api p svc) as Hk. by rewrite E in Hk.
      * destruct (serviceStart fallback (newService o webSpeech))
          as [[r2 ws] e2] eqn:E2.
        destruct (start_fallback_run o p fallback now s ref svc svc' ws reason
                    e e2 r2 Hc Hs E Hweb E2) as (_ & Hapi & Hcur & Hsv & _).
        pose proof (serviceStart_api fallback (newService o webSpeech)) as Hw.
        rewrite E2 in Hw. cbn in Hw.
        eapply (inv_append s _ ref svc svc' ws); try done.
        -- by rewrite Hapi, Hw.
        -- pose proof (serviceStart_api p svc) as Hk. by rewrite E in Hk.
        -- intros Hnw.
           pose proof (serviceStart_rejected p svc reason Hnw) as Hr.
           rewrite E in Hr. by apply Hr.
  - (* stop *)
    destruct (stop_run o now timestamp s ref svc Hc Hs) as (H1 & H2 & H3 & _).
    eapply (inv_update_current s _ ref svc); try done. apply serviceStop_api.
  - (* changeApi *)
    destruct (changeApi_run o api now timestamp s ref svc Hc Hs)
      as (Hsv & Hapi & Hcur & _).
    eapply (inv_append s _ ref svc _ (newService o api)); try done.
    + rewrite Hapi. by destruct api.
    + destruct (serviceIsListening svc); [apply serviceStop_api|done].
    + intros Hnw. destruct (serviceIsListening svc) eqn:Hl; [|done].
      by apply (serviceStop_released timestamp svc).
  - (* updateLanguage *)
    destruct (updateLanguage_run o l now timestamp s ref svc Hc Hs)
      as (Hapi & Hrest).
    destruct (hasUpdateLanguage svc); destruct Hrest as [Hsv Hcur].
    + eapply (inv_update_current s _ ref svc); try done.
      rewrite serviceUpdateLanguage_api.
      destruct (serviceIsListening svc); [apply serviceStop_api|done].
    + eapply (inv_append s _ ref svc _ (newService o (currentApi s)));
        try done.
      * rewrite Hapi. by destruct (currentApi s).
      * destruct (serviceIsListening svc); [apply serviceStop_api|done].
      * intros Hnw. destruct (serviceIsListening svc) eqn:Hl; [|done].
        by apply (serviceStop_released timestamp svc).
  - (* forceFinalize *)
    destruct (forceFinalize_run timestamp s ref svc Hc Hs)
      as (H1 & H2 & H3 & _).
    eapply (inv_update_current s _ ref svc); try done.
    destruct (serviceIsListening svc); [apply serviceStop_api|done].
  - (* the interval *)
    cbv [mbind M_bind bind get mret M_ret ret].
    destruct (nonNull (durationInterval s)); [|done].
    destruct (durationTick_frame o now s) as (H1 & H2 & H3).
    destruct (durationTick o now s) as [[[] s1] e1]. cbn in *.
    by apply (inv_frame s).
  - (* an event *)
    destruct (services s !! ref0) as [svc0|] eqn:H0.
    + rewrite (call_run ref0 _ _ s svc0 H0).
      eapply (inv_update_other s _ ref0 svc0); try done.
      * apply deliver_api.
      * apply deliver_listening.
    + unfold call. by rewrite H0.
Qed.

Lemma run_inv o steps : forall s, inv s -> inv (state (run o steps s)).
Proof.
  induction steps as [|st rest IH]; intros s Hs; [done|].
  cbn [run]. cbv [mbind M_bind bind].
  pose proof (step_inv o st s Hs) as H1.
  destruct (step o st s) as [[[] s1] e1]. cbn in H1.
  specialize (IH s1 H1). by destruct (run o rest s1) as [[[] s2] e2].
Qed.

Lemma create_inv o : inv (create o).
Proof.
  split; [apply create_wf|]. intros [|ref] svc H; [|done].
  injection H as <-. done.
Qed.

End SessionInvariant.

Section SessionInvariantTheorem.
Import Js Orchestrator OrchestratorSpec OrchestratorSession.

(** X7.  In every session of the factory (any sequence of calls of its
    methods, callbacks of its interval and events delivered to any of the
    instances it has created, where a call of [start] settles before the
    next step runs), after every step: [currentService] refers to an
    instance the factory created, that instance implements the backend
    [getApi()] returns, [isListening()] is that instance's answer, and
    every instance of the five services that capture audio themselves
    that is listening is the current one; so two of them never listen at
    the same time. *)
Theorem session_invariant (o : Options) (steps : list Step) :
  let s := state (run o steps (create o)) in
  (exists ref svc,
     currentService s = Some ref /\
     services s !! ref = Some svc /\
     serviceApi svc = getApi s /\
     isListening s = serviceIsListening svc) /\
  (forall ref svc,
     services s !! ref = Some svc ->
     serviceApi svc <> webSpeech ->
     serviceIsListening svc = true ->
     currentService s = Some ref) /\
  (forall ref1 svc1 ref2 svc2,
     services s !! ref1 = Some svc1 -> services s !! ref2 = Some svc2 ->
     serviceApi svc1 <> webSpeech -> serviceApi svc2 <> webSpeech ->
     serviceIsListening svc1 = true -> serviceIsListening svc2 = true ->
     ref1 = ref2).
Proof.
  intros s. destruct (run_inv o steps (create o) (create_inv o))
    as [(ref & svc & Hc & Hs & Ha) Hex]. fold s in Hc, Hs, Ha, Hex.
  split; [|split].
  - exists ref, svc. unfold isListening, getApi. by rewrite Hc, Hs.
  - exact Hex.
  - intros ref1 svc1 ref2 svc2 H1 H2 Hw1 Hw2 Hl1 Hl2.
    pose proof (Hex ref1 svc1 H1 Hw1 Hl1).
    pose proof (Hex ref2 svc2 H2 Hw2 Hl2). congruence.
Qed.

End SessionInvariantTheorem.

(** ** The duration of a recording *)

Section Duration.
Import Js Orchestrator OrchestratorSpec OrchestratorSession.

Lemma durationTick_run o now s t :
  startTime s = Some t -> t <> 0%Z ->
  durationTick o now s
  = (tt, set_durationMs (now - t) s,
     if onDurationUpdate o then [OnDurationUpdate (now - t)] else []).
Proof.
  intros Ht Hne. unfold durationTick.
  cbv [mbind M_bind bind get modify when mret M_ret ret emit]. rewrite Ht.
  destruct (Z.eqb_spec t 0); [done|]. by destruct (onDurationUpdate o).
Qed.

Lemma ticks_run o (ticks : list Z) : forall s t,
  startTime s = Some t -> t <> 0%Z ->
  durationInterval s <> None ->
  let s' := state (run o (map IntervalFired ticks) s) in
  s' = set_durationMs (default (durationMs s) ((fun now => now - t)%Z <$> last ticks)) s /\
  effects (run o (map IntervalFired ticks) s)
  = if onDurationUpdate o
    then map (fun now => OnDurationUpdate (now - t)) ticks else [].
Proof.
  induction ticks as [|now rest IH]; intros s t Ht Hne Hi.
  - cbn. split; [by destruct s|by destruct (onDurationUpdate o)].
  - cbn [map run step]. cbv [mbind M_bind bind get].
    destruct (durationInterval s) eqn:Hi'; [|done]. cbn [nonNull].
    rewrite (durationTick_run o now s t Ht Hne).
    destruct (IH (set_durationMs (now - t) s) t Ht Hne) as [H1 H2].
    { cbn. by rewrite Hi'. }
    destruct (run o (map IntervalFired rest) (set_durationMs (now - t) s))
      as [[[] s2] e2]. cbn in H1, H2. cbn [state effects fst snd].
    split.
    + rewrite H1. destruct rest as [|now' rest]; [reflexivity|].
      rewrite last_cons_cons.
      destruct (last (now' :: rest)) eqn:El; [reflexivity|].
      by apply last_None in El.
    + rewrite H2. by destruct (onDurationUpdate o).
Qed.

(** X8.  When [start()] of the factory resolves at time [t0] (not 0) it
    resets the duration to 0; each callback of the interval at time [t]
    then sets the duration to [t - t0] and reports it; [stop()] at time
    [t1] (not 0) sets and reports [t1 - t0], clears the interval, and the
    duration keeps that value: a later callback of the interval does not
    run. *)
Theorem duration_is_time_since_start (o : Options) (p fallback : Platform)
    (t0 : Z) (s : State) (ref : nat) (svc svc' : Service) (e : list Effect)
    (ticks : list Z) (t1 t2 : Z) (timestamp : string) :
  currentService s = Some ref ->
  services s !! ref = Some svc ->
  serviceStart p svc = (Resolved, svc', e) ->
  t0 <> 0%Z -> t1 <> 0%Z ->
  let s1 := state (start o p fallback t0 s) in
  let r2 := run o (map IntervalFired ticks) s1 in
  let r3 := stop o t1 timestamp (state r2) in
  getDuration s1 = 0%Z /\
  getDuration (state r2) = default 0%Z ((fun t => t - t0)%Z <$> last ticks) /\
  effects r2
  = (if onDurationUpdate o
     then map (fun t => OnDurationUpdate (t - t0)) ticks else []) /\
  getDuration (state r3) = (t1 - t0)%Z /\
  (onDurationUpdate o = true -> OnDurationUpdate (t1 - t0) ∈ effects r3) /\
  ClearInterval ∈ effects r3 /\
  step o (IntervalFired t2) (state r3) = (tt, state r3, []).
Proof.
  intros Hc Hs E Ht0 Ht1 s1 r2 r3.
  destruct (start_resolved_run o p fallback t0 s ref svc svc' e Hc Hs E)
    as (_ & Hsv & Hcur & _ & Hst & _ & Hd & Hi & _). fold s1 in Hsv, Hcur, Hst, Hd, Hi.
  destruct (ticks_run o ticks s1 t0 Hst Ht0) as [H2 He2].
  { by rewrite Hi. }
  fold r2 in H2, He2.
  assert (services (state r2) !! ref = Some svc') as Hs2.
  { rewrite H2. cbn. rewrite Hsv. apply list_lookup_insert_eq.
    by eapply lookup_lt_Some. }
  assert (currentService (state r2) = Some ref) as Hc2 by by rewrite H2.
  assert (startTime (state r2) = Some t0) as Hst2 by by rewrite H2.
  assert (durationInterval (state r2) = Some intervalHandle) as Hi2
    by by rewrite H2.
  destruct (stop_run o t1 timestamp (state r2) ref svc' Hc2 Hs2)
    as (_ & _ & _ & _ & _ & Hi3 & Hd3 & He3). fold r3 in Hi3, Hd3, He3.
  rewrite Hst2, Hi2 in *. cbn in Hd3, He3.
  destruct (Z.eqb_spec t0 0) as [|_]; [done|].
  destruct (Z.eqb_spec t1 0) as [|_]; [done|]. cbn in Hd3, He3.
  repeat split.
  - done.
  - unfold getDuration. rewrite H2. cbn. rewrite Hd.
    by destruct (last ticks).
  - done.
  - done.
  - intros Ho. rewrite He3, Ho. rewrite !elem_of_app, !list_elem_of_singleton.
    auto.
  - rewrite He3. rewrite !elem_of_app, !list_elem_of_singleton. auto.
  - cbn [step]. cbv [mbind M_bind bind get]. by rewrite Hi3.
Qed.

Lemma duration_is_time_since_start_witness :
  let s1 := state (start pageOptions granted granted 1000 (create pageOptions)) in
  let r2 := run pageOptions (map IntervalFired [1100; 1200]%Z) s1 in
  let r3 := stop pageOptions 1250 "" (state r2) in
  getDuration (state r2) = 200%Z /\ getDuration (state r3) = 250%Z /\
  effects r2 = [OnDurationUpdate 100; OnDurationUpdate 200].
Proof.
  intros s1 r2 r3.
  destruct (duration_is_time_since_start pageOptions granted granted 1000
              (create pageOptions) 0 (newService pageOptions webSpeech)
              _ _ [1100; 1200]%Z 1250 1300 "" eq_refl eq_refl eq_refl
              ltac:(done) ltac:(done))
    as (_ & H2 & H3 & H4 & _).
  split; [exact H2|]. split; [exact H4|exact H3].
Defined.

End Duration.

(** ** Calling the factory's [start()] while it is listening *)

Section StartAgain.
Import Js Orchestrator OrchestratorSpec.

Lemma serviceStart_listening p svc :
  serviceIsListening svc = true -> serviceStart p svc = (Resolved, svc, []).
Proof.
  destruct svc as [o s|o s|o s|o s|o s|o s]; cbn; intros H;
    [ unfold WebSpeech.start, WebSpeech.isListening in *
    | unfold Realtime.start, Realtime.isListening in *
    | unfold AssemblyAI.start, AssemblyAI.isListening in *
    | unfold Whisper.start, Whisper.isListening in *
    | unfold Nano.start, Nano.isListening in *
    | unfold Google.start, Google.isListening in * ];
    cbv [mbind M_bind bind get]; by rewrite H.
Qed.

(** X9.  When the current service is already listening, [start()] of the
    factory still resolves and leaves every service instance as it was,
    but it is not a no-op: it calls [onTranscriptionStart] again and
    restarts the duration tracking, so the start time becomes the time of
    this call, the duration returns to 0 and the interval is replaced. *)
Theorem start_again_restarts_the_clock (o : Options) (p fallback : Platform)
    (now : Z) (s : State) :
  wf s -> isListening s = true ->
  let r := start o p fallback now s in
  result r = Resolved /\
  services (state r) = services s /\
  currentService (state r) = currentService s /\
  getApi (state r) = getApi s /\
  isListening (state r) = true /\
  startTime (state r) = Some now /\
  getDuration (state r) = 0%Z /\
  effects r
  = (if onTranscriptionStart o then [OnTranscriptionStart] else [])
    ++ (if nonNull (durationInterval s) then [ClearInterval] else [])
    ++ [SetInterval 100].
Proof.
  intros (ref & svc & Hc & Hs & Ha) Hl r.
  assert (serviceIsListening svc = true) as Hl'.
  { unfold isListening in Hl. by rewrite Hc, Hs in Hl. }
  destruct (start_resolved_run o p fallback now s ref svc svc []
              Hc Hs (serviceStart_listening p svc Hl'))
    as (H1 & H2 & H3 & H4 & H5 & _ & H6 & _ & H7). fold r in H1, H2, H3, H4, H5, H6, H7.
  rewrite (list_insert_id _ _ _ Hs) in H2.
  repeat split; try done.
  - congruence.
  - unfold isListening. by rewrite H3, H2, Hs.
Qed.

Lemma start_again_restarts_the_clock_witness :
  let s := state (start pageOptions granted granted 1000 (create pageOptions)) in
  let r := start pageOptions granted granted 5000 s in
  (wf s /\ isListening s = true) /\
  startTime s = Some 1000%Z /\
  startTime (state r) = Some 5000%Z /\
  effects r = [OnTranscriptionStart; ClearInterval; SetInterval 100].
Proof.
  intros s r.
  assert (wf s) as Hwf by apply start_wf, create_wf.
  split; [by split|]. split; [reflexivity|].
  destruct (start_again_restarts_the_clock pageOptions granted granted 5000
              s Hwf eq_refl) as (_ & _ & _ & _ & _ & H1 & _ & H2).
  split; [exact H1|exact H2].
Defined.

End StartAgain.

(** ** Changing the language *)

Section UpdateLanguage.
Import Js Orchestrator OrchestratorSpec.

Lemma beforeDash_no_dash (l : string) :
  ~ In "-"%char (list_ascii_of_string (beforeDash l)).
Proof.
  induction l as [|c l IH]; cbn; [tauto|].
  destruct (Ascii.eqb_spec c "-"); cbn; [tauto|]. intros [H|H]; auto.
Qed.

(** X10.  [updateLanguage(newLanguage)] of the factory reaches only a
    Whisper instance: it stops the current service if it is listening;
    then, if the current service is a Whisper instance, that same
    instance stays current with the part of [newLanguage] before its
    first '-' as its language, which its next upload carries; otherwise
    a fresh instance is created with [createService], which reads the
    language the factory was created with, so the resulting closure does
    not depend on [newLanguage] at all. *)
Theorem updateLanguage_reaches_only_whisper (o : Options)
    (newLanguage : string) (now : Z) (timestamp : string) (s : State)
    (ref : nat) (svc : Service) :
  currentService s = Some ref ->
  services s !! ref = Some svc ->
  let r := updateLanguage o newLanguage now timestamp s in
  (forall wo ws, svc = WhisperInstance wo ws ->
     let ws' := Whisper.set_currentLanguage (beforeDash newLanguage)
                  (if Whisper.isListening ws
                   then state (Whisper.stop wo ws) else ws) in
     currentService (state r) = Some ref /\
     services (state r) = <[ref := WhisperInstance wo ws']> (services s) /\
     Whisper.isListening ws' = false /\
     ~ In "-"%char (list_ascii_of_string (Whisper.currentLanguage ws')) /\
     forall c cs, Whisper.audioChunks ws' = c :: cs ->
       exists wav,
         Fetch "/api/whisper" wav (Some (beforeDash newLanguage))
         ∈ effects (Whisper.finalizeSentence wo ws')) /\
  (hasUpdateLanguage svc = false ->
     currentService (state r) = Some (length (services s)) /\
     services (state r) !! length (services s)
     = Some (newService o (currentApi s)) /\
     forall other,
       state (updateLanguage o other now timestamp s) = state r).
Proof.
  intros Hc Hs r.
  destruct (updateLanguage_run o newLanguage now timestamp s ref svc Hc Hs)
    as (Hapi & Hrest). fold r in Hapi, Hrest.
  split.
  - intros wo ws -> ws'. cbn in Hrest. destruct Hrest as [Hsv Hcur].
    split; [done|]. split.
    { rewrite Hsv. f_equal. unfold Whisper.isListening in *. subst ws'.
      by destruct (Whisper.isCurrentlyListening ws). }
    split.
    { subst ws'. unfold Whisper.isListening. cbn.
      destruct (Whisper.isCurrentlyListening ws) eqn:Hl; [|done].
      apply (Whisper_stop_released wo ws). }
    split; [apply beforeDash_no_dash|].
    intros c cs Hch. eexists.
    rewrite Whisper_finalize_run by by rewrite Hch.
    unfold effects. cbn [snd]. rewrite elem_of_app, list_elem_of_singleton. right. reflexivity.
  - intros Hno. rewrite Hno in Hrest. destruct Hrest as [Hsv Hcur].
    split; [done|]. split.
    { rewrite Hsv. apply list_lookup_middle. by rewrite length_insert. }
    intros other. subst r. unfold updateLanguage.
    cbv [mbind M_bind bind get mret M_ret ret].
    rewrite Hc, Hs, Hno. reflexivity.
Qed.

Lemma updateLanguage_reaches_only_whisper_witness :
  let s := selected whisper in
  let r := updateLanguage pageOptions "de-DE" 0 "" s in
  currentService s = Some 1%nat /\
  exists wo ws',
    services (state r) !! 1%nat = Some (WhisperInstance wo ws') /\
    Whisper.currentLanguage ws' = "de"%string.
Proof.
  intros s r. split; [reflexivity|].
  destruct (updateLanguage_reaches_only_whisper pageOptions "de-DE" 0 ""
              s 1 (newService pageOptions whisper) eq_refl eq_refl)
    as [H _].
  destruct (H _ _ eq_refl) as (_ & Hsv & _).
  do 2 eexists. fold r in Hsv. rewrite Hsv. split; reflexivity.
Defined.

End UpdateLanguage.

(** ** Silence ends an utterance *)

Section Utterance.
Import Js Vad Session.

Lemma fetches_upload (b : bool) url wav language :
  fetches ((if b then [OnTranscriptionStart] else [])
           ++ [Fetch url wav language]) = 1%nat.
Proof. by destruct b. Qed.

Lemma Nano_set_audioChunks_id s :
  Nano.set_audioChunks (Nano.audioChunks s) s = s.
Proof. by destruct s. Qed.

Lemma Nano_pause o (t1 : Z) (qs : list (list Q * Z)) : forall ss,
  nonNull (Nano.processor (NanoSession.adapter ss)) = true ->
  Nano.isSpeaking (Nano.speechState (NanoSession.adapter ss)) = true ->
  Nano.silenceStart (Nano.speechState (NanoSession.adapter ss)) = Some t1 ->
  Forall (fun qt => Float64.gtb (calculateVolume qt.1) Nano.noiseThreshold = false
                    /\ (qt.2 - t1 <= Nano.silenceThreshold)%Z) qs ->
  NanoSession.run o (map (fun qt => NanoSession.AudioProcess qt.1 qt.2) qs) ss
  = ({| NanoSession.adapter :=
          Nano.set_audioChunks
            (Nano.audioChunks (NanoSession.adapter ss) ++ map fst qs)
            (NanoSession.adapter ss);
        NanoSession.inFlight := NanoSession.inFlight ss |}, []).
Proof.
  induction qs as [|[q t] qs IH]; intros ss Hp Hs Ht Hall.
  - cbn. rewrite app_nil_r, Nano_set_audioChunks_id. by destruct ss.
  - apply Forall_cons in Hall as [[Hq Hle] Hall]. cbn in Hq, Hle.
    cbn [map NanoSession.run NanoSession.step fst snd]. rewrite Hp.
    rewrite (Nano_quiet_frame o q t _ Hq Hs), Ht.
    destruct (Z.gtb_spec (t - t1) Nano.silenceThreshold) as [Hgt|_]; [lia|].
    unfold NanoSession.after. cbn [state effects fst snd].
    rewrite IH; [|done|done|done|done].
    cbn. rewrite Nat.add_0_r, <- app_assoc. done.
Qed.

(** X11.  The AssemblyAI-Nano service cuts an utterance at a pause.  A
    frame is loud when its volume, as [calculateVolume] computes it in
    binary64, is above the noise threshold 0.01, and quiet otherwise.
    After a loud frame, the first quiet frame starts the pause at its
    time [t1]; quiet frames that arrive within 1500 ms of [t1] are only
    buffered and nothing is sent; the first quiet frame that arrives
    more than 1500 ms after [t1] sends one request, whose WAV file holds
    every frame buffered so far in order, and empties the buffer. *)
Theorem Nano_pause_ends_the_utterance (o : Nano.Options)
    (ss : NanoSession.State) (speech q1 q2 : list Q) (t0 t1 t2 : Z)
    (qs : list (list Q * Z)) :
  nonNull (Nano.processor (NanoSession.adapter ss)) = true ->
  Float64.gtb (calculateVolume speech) Nano.noiseThreshold = true ->
  Float64.gtb (calculateVolume q1) Nano.noiseThreshold = false ->
  Forall (fun qt => Float64.gtb (calculateVolume qt.1) Nano.noiseThreshold = false
                    /\ (qt.2 - t1 <= 1500)%Z) qs ->
  Float64.gtb (calculateVolume q2) Nano.noiseThreshold = false ->
  (1500 < t2 - t1)%Z ->
  let frames := Nano.audioChunks (NanoSession.adapter ss)
                ++ speech :: q1 :: map fst qs in
  let r := NanoSession.run o
             (NanoSession.AudioProcess speech t0
              :: NanoSession.AudioProcess q1 t1
              :: map (fun qt => NanoSession.AudioProcess qt.1 qt.2) qs) ss in
  let r' := NanoSession.step o (NanoSession.AudioProcess q2 t2) r.1 in
  (r.2 = [] /\
   Nano.audioChunks (NanoSession.adapter r.1) = frames /\
   Nano.isSpeaking (Nano.speechState (NanoSession.adapter r.1)) = true /\
   NanoSession.inFlight r.1 = NanoSession.inFlight ss) /\
  (r'.2 = (if Nano.onTranscriptionStart o then [OnTranscriptionStart] else [])
          ++ [Fetch "/api/assemblyai/transcribe"
                (header (length (concat (frames ++ [q2]))) (Nano.sampleRate o)
                 ++ pcmBytes (concat (frames ++ [q2])))
                None] /\
   Nano.audioChunks (NanoSession.adapter r'.1) = [] /\
   Nano.isSpeaking (Nano.speechState (NanoSession.adapter r'.1)) = false /\
   NanoSession.inFlight r'.1 = S (NanoSession.inFlight ss)).
Proof.
  intros Hp Hsp Hq1 Hqs Hq2 Ht frames r r'.
  assert (r = ({| NanoSession.adapter :=
                    Nano.set_audioChunks frames
                      (Nano.set_silenceStart (Some t1)
                         (Nano.set_lastSpeechTime t0
                            (Nano.set_isSpeaking true (NanoSession.adapter ss))));
                  NanoSession.inFlight := NanoSession.inFlight ss |}, []))
    as Hr.
  { subst r. cbn [NanoSession.run NanoSession.step]. rewrite Hp.
    rewrite (Nano_speech_frame o speech t0 _ Hsp).
    unfold NanoSession.after at 1. cbn [state effects fst snd].
    cbn [NanoSession.adapter Nano.processor Nano.set_silenceStart
         Nano.set_lastSpeechTime Nano.set_isSpeaking Nano.set_audioChunks
         Nano.set_speechState]. rewrite Hp.
    rewrite (Nano_quiet_frame o q1 t1) by done.
    cbn [Nano.silenceStart Nano.speechState Nano.set_silenceStart
         Nano.set_lastSpeechTime Nano.set_isSpeaking Nano.set_audioChunks
         Nano.set_speechState].
    unfold NanoSession.after. cbn [state effects fst snd].
    rewrite (Nano_pause o t1 qs); [| done | done | done | done].
    cbn. rewrite !Nat.add_0_r. subst frames.
    rewrite <- !app_assoc. done. }
  rewrite Hr. cbn [fst snd]. split; [done|].
  subst r'. rewrite Hr. cbn [fst NanoSession.step NanoSession.adapter].
  cbn [Nano.processor Nano.set_audioChunks Nano.set_silenceStart
       Nano.set_lastSpeechTime Nano.set_isSpeaking Nano.set_speechState].
  rewrite Hp.
  rewrite (Nano_quiet_frame o q2 t2) by done.
  cbn [Nano.silenceStart Nano.speechState Nano.set_audioChunks
       Nano.set_silenceStart Nano.set_lastSpeechTime Nano.set_isSpeaking
       Nano.set_speechState].
  destruct (Z.gtb_spec (t2 - t1) Nano.silenceThreshold) as [_|Hle];
    [|unfold Nano.silenceThreshold in Hle; lia].
  rewrite Nano_finalize_run by (destruct frames; done).
  unfold NanoSession.after. cbn [state effects fst snd].
  cbn [Nano.audioChunks Nano.set_audioChunks]. split; [done|].
  split; [done|]. split; [done|].
  cbn [NanoSession.inFlight]. rewrite fetches_upload. lia.
Qed.

Lemma Nano_pause_ends_the_utterance_witness :
  let ss := (NanoSession.run NanoSession.options
               [NanoSession.Start OrchestratorSpec.granted]
               NanoSession.init).1 in
  let r := NanoSession.run NanoSession.options
             [NanoSession.AudioProcess loud 0;
              NanoSession.AudioProcess quiet 100;
              NanoSession.AudioProcess quiet 900;
              NanoSession.AudioProcess quiet 1600] ss in
  let r' := NanoSession.step NanoSession.options
              (NanoSession.AudioProcess quiet 1601) r.1 in
  r.2 = [] /\
  Nano.audioChunks (NanoSession.adapter r.1) = [loud; quiet; quiet; quiet] /\
  Nano.audioChunks (NanoSession.adapter r'.1) = [] /\
  NanoSession.inFlight r'.1 = 1%nat.
Proof.
  intros ss r r'.
  destruct (Nano_pause_ends_the_utterance NanoSession.options ss
              loud quiet quiet 0 100 1601 [(quiet, 900%Z); (quiet, 1600%Z)])
    as ((H1 & H2 & _) & (_ & H3 & _ & H4)).
  - reflexivity.
  - reflexivity.
  - reflexivity.
  - repeat constructor; cbn; lia.
  - reflexivity.
  - lia.
  - split; [exact H1|]. split; [exact H2|]. split; [exact H3|exact H4].
Defined.

End Utterance.

(** ** The transcript of the Web Speech service *)

Section WebSpeechTranscript.
Import Js WebSpeech WebSpeechResults.

Lemma string_app_assoc (a b c : string) :
  ((a ++ b) ++ c = a ++ (b ++ c))%string.
Proof. induction a as [|x a IH]; cbn; [done|]. by rewrite IH. Qed.

Lemma string_app_nil_r (a : string) : (a ++ "")%string = a.
Proof. induction a as [|x a IH]; cbn; [done|]. by rewrite IH. Qed.

Lemma onresultEvent_run event s :
  onresultEvent event s
  = (tt, set_fullTranscript (fullTranscript s ++ appended event) s,
     if truthy (collect event).1
     then [OnTranscriptUpdate (trim (fullTranscript s ++ " " ++ (collect event).1))]
     else if truthy (collect event).2
     then [OnTranscriptUpdate (trim (fullTranscript s ++ " " ++ (collect event).2))]
     else []).
Proof.
  unfold onresultEvent, appended, onresult.
  destruct (collect event) as [f i]. cbn [fst snd].
  cbv [mbind M_bind bind get modify mret M_ret ret emit].
  destruct (truthy f); [done|].
  rewrite string_app_nil_r.
  destruct (truthy i); by destruct s.
Qed.

(** X12.  The Web Speech service stores final results only.  After any
    sequence of result events the stored transcript is the one before,
    followed, for each event that had final text, by a space and that
    text, in the order of the events; interim text is shown (once, in the
    update of its event) but never stored, and an event that has final
    text does not show its interim text.  The handler changes neither the
    recogniser nor the listening flag, and all it does to its caller is
    to call [onTranscriptUpdate]. *)
Theorem WebSpeech_stores_final_results (events : list SpeechRecognitionEvent)
    (s : State) :
  let r := run events s in
  fullTranscript (state r)
  = (fullTranscript s ++ concatenation (map appended events))%string /\
  recognition (state r) = recognition s /\
  listening (state r) = listening s /\
  Forall (fun e => Session.isTranscriptUpdate e = true) (effects r) /\
  (forall event, events = [event] ->
     effects r
     = if truthy (collect event).1
       then [OnTranscriptUpdate
               (trim (fullTranscript s ++ " " ++ (collect event).1))]
       else if truthy (collect event).2
       then [OnTranscriptUpdate
               (trim (fullTranscript s ++ " " ++ (collect event).2))]
       else []).
Proof.
  intros r. subst r.
  assert (forall s,
            let r := run events s in
            fullTranscript (state r)
            = (fullTranscript s ++ concatenation (map appended events))%string /\
            recognition (state r) = recognition s /\
            listening (state r) = listening s /\
            Forall (fun e => Session.isTranscriptUpdate e = true) (effects r))
    as Hrun.
  { clear s. induction events as [|event rest IH]; intros s r.
    - subst r. cbn. rewrite string_app_nil_r. repeat split; try done.
    - subst r. cbn [run]. cbv [mbind M_bind bind].
      rewrite onresultEvent_run.
      destruct (IH (set_fullTranscript (fullTranscript s ++ appended event) s))
        as (H1 & H2 & H3 & H4).
      destruct (run rest _) as [[[] s2] e2]. cbn in H1, H2, H3, H4.
      cbn [state effects fst snd map concatenation].
      split; [by rewrite H1, string_app_assoc|].
      split; [done|]. split; [done|].
      apply Forall_app. split; [|done].
      destruct (truthy (collect event).1); [by repeat constructor|].
      destruct (truthy (collect event).2); by repeat constructor. }
  destruct (Hrun s) as (H1 & H2 & H3 & H4).
  repeat split; try done.
  intros event ->. cbn [run]. cbv [mbind M_bind bind mret M_ret ret].
  rewrite onresultEvent_run. cbn. by rewrite app_nil_r.
Qed.

End WebSpeechTranscript.

(** ** The pause clock of the Realtime service *)

Section PauseClock.
Import Js Vad.

(** X13.  In the Realtime service speech that resumes does not restart
    the pause clock: once a quiet frame has started a pause at time
    [t1], a frame above the threshold leaves [silenceStart] as it is, and
    the next quiet frame that arrives more than [silenceThreshold] after
    [t1] finalizes the sentence, however recent the last speech.  The
    AssemblyAI-Nano service clears [silenceStart] on every frame above
    its threshold, so three frames that are quiet, loud and quiet for
    it send nothing there and the pause starts again at the third
    frame.  (Each service judges a frame by its own test, computed in
    binary64: the mean magnitude against the threshold of the options
    in the Realtime service, [calculateVolume] against 0.01 in the
    AssemblyAI-Nano service.) *)
Theorem Realtime_pause_clock_is_not_reset
    (quiet1 speech quiet2 : list Q) (t1 t2 t3 : Z) :
  (forall (o : Realtime.Options) (s : Realtime.State) (timestamp : string),
     Realtime.isSpeaking (Realtime.speechState s) = true ->
     Realtime.silenceStart (Realtime.speechState s) = None ->
     Float64.gtb (average quiet1) (Realtime.noiseThreshold o) = false ->
     Float64.gtb (average speech) (Realtime.noiseThreshold o) = true ->
     Float64.gtb (average quiet2) (Realtime.noiseThreshold o) = false ->
     (Realtime.silenceThreshold o < t3 - t1)%Z ->
     let s1 := state (Realtime.processAudioData o quiet1 t1 timestamp s) in
     let s2 := state (Realtime.processAudioData o speech t2 timestamp s1) in
     let r3 := Realtime.processAudioData o quiet2 t3 timestamp s2 in
     Realtime.silenceStart (Realtime.speechState s2) = Some t1 /\
     Realtime.lastSpeechTime (Realtime.speechState s2) = t2 /\
     effects r3
     = [OnTranscriptUpdate
          (Realtime.fullTranscript s
           ++ "[Speech detected at " ++ timestamp ++ "] ")] /\
     Realtime.isSpeaking (Realtime.speechState (state r3)) = false) /\
  (forall (o : Nano.Options) (s : Nano.State),
     Nano.isSpeaking (Nano.speechState s) = true ->
     Nano.silenceStart (Nano.speechState s) = None ->
     Float64.gtb (calculateVolume quiet1) Nano.noiseThreshold = false ->
     Float64.gtb (calculateVolume speech) Nano.noiseThreshold = true ->
     Float64.gtb (calculateVolume quiet2) Nano.noiseThreshold = false ->
     let s1 := state (Nano.processAudioData o quiet1 t1 s) in
     let s2 := state (Nano.processAudioData o speech t2 s1) in
     let r3 := Nano.processAudioData o quiet2 t3 s2 in
     Nano.silenceStart (Nano.speechState s2) = None /\
     effects r3 = [] /\
     Nano.silenceStart (Nano.speechState (state r3)) = Some t3 /\
     Nano.isSpeaking (Nano.speechState (state r3)) = true).
Proof.
  split.
  - intros o s timestamp Hs Hn Hq1 Hsp Hq2 Ht s1 s2 r3.
    subst s1 s2 r3. unfold Realtime.processAudioData.
    cbv [mbind M_bind bind get modify when mret M_ret ret emit].
    rewrite Hq1, Hs, Hn. cbn. rewrite Hsp. cbn. rewrite Hs. cbn.
    rewrite Hq2. cbn. rewrite Hs. cbn.
    destruct (Z.gtb_spec (t3 - t1) (Realtime.silenceThreshold o)); [|lia].
    unfold Realtime.finalizeSentence.
    cbv [mbind M_bind bind get modify when mret M_ret ret emit]. cbn.
    rewrite Hs. done.
  - intros o s Hs Hn Hq1 Hsp Hq2 s1 s2 r3. subst s1 s2 r3.
    rewrite (Nano_quiet_frame o quiet1 t1 s Hq1 Hs), Hn.
    cbn [state fst snd].
    rewrite (Nano_speech_frame o speech t2 _ Hsp). cbn [state fst snd].
    rewrite (Nano_quiet_frame o quiet2 t3) by done. done.
Qed.

Lemma Realtime_pause_clock_is_not_reset_witness :
  let o := {| Realtime.sampleRate := 16000; Realtime.bufferSize := 4096;
              Realtime.noiseThreshold := Realtime.defaultNoiseThreshold;
              Realtime.silenceThreshold := Realtime.defaultSilenceThreshold |} in
  let s := Realtime.set_isSpeaking true Realtime.create in
  let s1 := state (Realtime.processAudioData o Session.quiet 0 "12:00:00" s) in
  let s2 := state (Realtime.processAudioData o Session.loud 1500 "12:00:00" s1) in
  effects (Realtime.processAudioData o Session.quiet 1501 "12:00:00" s2)
  = [OnTranscriptUpdate "[Speech detected at 12:00:00] "].
Proof.
  intros o s s1 s2.
  destruct (Realtime_pause_clock_is_not_reset Session.quiet Session.loud
              Session.quiet 0 1500 1501) as [H _].
  destruct (H o s "12:00:00"%string eq_refl eq_refl eq_refl eq_refl eq_refl
              ltac:(by vm_compute)) as (_ & _ & He & _).
  exact He.
Defined.

End PauseClock.

(** ** The recording cycle of the Google service *)

Section GoogleCycle.
Import Js Session.

Lemma Google_processAudioData_idle o inputData now s :
  Google.recordedChunks s = [] ->
  effects (Google.processAudioData o inputData now s) = [] /\
  Google.recordedChunks (state (Google.processAudioData o inputData now s)) = [] /\
  Google.audioChunks (state (Google.processAudioData o inputData now s))
  = Google.audioChunks s ++ [inputData].
Proof.
  intros Hr. unfold Google.processAudioData.
  cbv [mbind M_bind bind get modify when mret M_ret ret emit].
  destruct (Float64.gtb _ _); [done|]. cbn.
  destruct (Google.isSpeaking _); [|done].
  destruct (Google.silenceStart _) as [since|]; [|done].
  destruct (now - since >? _)%Z; [|done].
  by rewrite Google_finalize_empty.
Qed.

(** X14.  The Google service sends what its MediaRecorder recorded, never
    the frames of its audio processor.  While the recorder has delivered
    no data, a frame sends nothing, whatever its volume and however long
    the pause: it is only added to [audioChunks].  A recording ends with
    the 10 s timeout: the recorder is stopped, the data it delivers is
    sent to '/api/google/transcribe' with the language of the options,
    and when that request settles, with a transcript or with a failure,
    a new recorder is started with a new timeout, which puts the service
    back in the state the cycle started from. *)
Theorem Google_recording_cycle (o : Google.Options) (s : Google.State)
    (data : list Z) (result : FetchResult) :
  Google.isListening s = true ->
  Google.mediaStream s <> None ->
  Google.mediaRecorder s = Some Google.Recording ->
  Google.isRecording (Google.speechState s) = true ->
  Google.recordedChunks s = [] ->
  data <> [] ->
  (forall inputData now,
     let r := Google.processAudioData o inputData now s in
     effects r = [] /\
     Google.audioChunks (state r) = Google.audioChunks s ++ [inputData]) /\
  let r1 := Google.recordingTimeout s in
  let r2 := Google.dataAvailable data (state r1) in
  let r3 := Google.recorderStopped o (state r2) in
  let r4 := Google.fetchSettled true result (state r3) in
  effects r1 = [RecorderStop] /\
  effects r2 = [] /\
  effects r3 = [Fetch "/api/google/transcribe" data (Some (Google.language o))] /\
  (exists settled, effects r4 = settled ++ [RecorderStart; SetTimeout 10000]) /\
  Google.isListening (state r4) = true /\
  Google.mediaStream (state r4) = Google.mediaStream s /\
  Google.mediaRecorder (state r4) = Some Google.Recording /\
  Google.isRecording (Google.speechState (state r4)) = true /\
  Google.recordedChunks (state r4) = [].
Proof.
  intros Hl Hm Hrec Hir Hch Hd. split.
  { intros inputData now r. subst r.
    destruct (Google_processAudioData_idle o inputData now s Hch)
      as (H1 & _ & H2). done. }
  intros r1 r2 r3 r4. subst r1 r2 r3 r4.
  unfold Google.isListening in *.
  unfold Google.recordingTimeout.
  cbv [mbind M_bind bind get modify when mret M_ret ret emit].
  rewrite Hrec. cbn [state effects fst snd].
  unfold Google.dataAvailable.
  destruct data as [|b data]; [done|]. cbn [length Nat.ltb Nat.leb when].
  cbv [modify]. cbn [state effects fst snd].
  unfold Google.recorderStopped.
  cbv [mbind M_bind bind get modify when mret M_ret ret emit].
  cbn [Google.isRecording Google.speechState Google.set_recordedChunks
       Google.set_mediaRecorder]. rewrite Hir.
  rewrite Google_finalize_run by (cbn; rewrite Hch; done).
  cbn [state effects fst snd Google.recordedChunks Google.set_recordedChunks
       Google.set_mediaRecorder]. rewrite Hch. cbn [app concat].
  rewrite app_nil_r.
  split; [done|]. split; [done|]. split; [done|].
  unfold Google.fetchSettled, Google.startRecording.
  destruct (Google.mediaStream s) as [m|] eqn:Hms; [|done].
  destruct result as [| | |[text|]];
    cbv [mbind M_bind bind get modify when mret M_ret ret emit];
    try destruct (truthy text);
    repeat (progress (cbn; rewrite ?Hl, ?Hms)).
  all: split; [|done].
  all: first [by eexists [_]|by exists []].
Qed.

Lemma Google_recording_cycle_witness :
  let o := {| Google.language := "en-US"; Google.sampleRate := 16000;
              Google.bufferSize := 4096 |} in
  let s := state (Google.start o true OrchestratorSpec.granted Google.create) in
  let s2 := state (Google.dataAvailable [26; 69; 223; 163]%Z
                     (state (Google.recordingTimeout s))) in
  Google.isListening s = true /\
  effects (Google.recorderStopped o s2)
  = [Fetch "/api/google/transcribe" [26; 69; 223; 163]%Z (Some "en-US"%string)].
Proof.
  intros o s s2. split; [reflexivity|].
  destruct (Google_recording_cycle o s [26; 69; 223; 163]%Z FetchRejected
              eq_refl ltac:(done) eq_refl eq_refl eq_refl ltac:(done))
    as (_ & _ & _ & H & _).
  exact H.
Defined.

End GoogleCycle.

(** ** The duration shown by the component *)

Section FormatDuration.
Import Display.

Lemma twoDigits_all :
  forallb (fun n => String.eqb (padStart (toString (Z.of_nat n)) 2 "0")
                               (twoDigits (Z.of_nat n)))
          (seq 0 100) = true.
Proof. vm_compute. reflexivity. Qed.

Lemma padStart_twoDigits (n : Z) :
  (0 <= n < 100)%Z -> padStart (toString n) 2 "0" = twoDigits n.
Proof.
  intros H. pose proof twoDigits_all as Hall.
  rewrite forallb_forall in Hall.
  specialize (Hall (Z.to_nat n)). rewrite Z2Nat.id in Hall by lia.
  apply String.eqb_eq, Hall, in_seq. lia.
Qed.

Lemma digit_inj (a b : Z) :
  (0 <= a < 10)%Z -> (0 <= b < 10)%Z -> digit a = digit b -> a = b.
Proof.
  intros Ha Hb H. unfold digit in H.
  apply (f_equal nat_of_ascii) in H.
  rewrite !nat_ascii_embedding in H by lia. lia.
Qed.

Lemma twoDigits_inj (a b : Z) :
  (0 <= a < 100)%Z -> (0 <= b < 100)%Z -> twoDigits a = twoDigits b -> a = b.
Proof.
  intros Ha Hb H. unfold twoDigits in H. injection H as H1 H0.
  apply (f_equal nat_of_ascii) in H1, H0. unfold digit in H1, H0.
  rewrite !nat_ascii_embedding in H1, H0
    by (Z.to_euclidean_division_equations; lia).
  Z.to_euclidean_division_equations. lia.
Qed.

Lemma formatDuration_fields (ms : Z) :
  (0 <= ms < 6000000)%Z ->
  formatDuration ms
  = (twoDigits (ms / 60000) ++ ":" ++ twoDigits (ms / 1000 mod 60) ++ "."
     ++ twoDigits (ms mod 1000 / 10))%string.
Proof.
  intros H. unfold formatDuration.
  rewrite Z.rem_mod_nonneg by (try apply Z.div_pos; lia).
  rewrite (Z.rem_mod_nonneg ms 1000) by lia.
  rewrite Z.div_div by lia. change (1000 * 60)%Z with 60000%Z.
  rewrite !padStart_twoDigits; [done| | |];
    Z.to_euclidean_division_equations; lia.
Qed.

(** X15.  For a duration from 0 up to (not including) 100 minutes,
    [formatDuration] returns exactly eight characters, 'mm:ss.cc': the
    two decimal digits of the whole minutes, of the seconds within the
    minute and of the hundredths of the second, each padded with a zero.
    Two such durations are shown alike only if they agree up to the
    hundredth of a second. *)
Theorem formatDuration_mm_ss_cc (ms : Z) :
  (0 <= ms < 6000000)%Z ->
  formatDuration ms
  = (twoDigits (ms / 60000) ++ ":" ++ twoDigits (ms / 1000 mod 60) ++ "."
     ++ twoDigits (ms mod 1000 / 10))%string /\
  String.length (formatDuration ms) = 8%nat /\
  (ms / 60000 < 100)%Z /\ (ms / 1000 mod 60 < 60)%Z /\
  (ms mod 1000 / 10 < 100)%Z /\
  forall ms', (0 <= ms' < 6000000)%Z ->
    formatDuration ms' = formatDuration ms -> (ms' / 10 = ms / 10)%Z.
Proof.
  intros H. split; [by apply formatDuration_fields|].
  split; [by rewrite formatDuration_fields|].
  split; [Z.to_euclidean_division_equations; lia|].
  split; [Z.to_euclidean_division_equations; lia|].
  split; [Z.to_euclidean_division_equations; lia|].
  intros ms' H' E. rewrite !formatDuration_fields in E by done.
  unfold twoDigits in E. cbn in E.
  injection E as M1 M0 S1 S0 C1 C0.
  assert (ms' / 60000 = ms / 60000)%Z as EM.
  { apply twoDigits_inj; [| |unfold twoDigits; congruence];
      Z.to_euclidean_division_equations; lia. }
  assert (ms' / 1000 mod 60 = ms / 1000 mod 60)%Z as ES.
  { apply twoDigits_inj; [| |unfold twoDigits; congruence];
      Z.to_euclidean_division_equations; lia. }
  assert (ms' mod 1000 / 10 = ms mod 1000 / 10)%Z as EC.
  { apply twoDigits_inj; [| |unfold twoDigits; congruence];
      Z.to_euclidean_division_equations; lia. }
  clear M1 M0 S1 S0 C1 C0.
  Z.to_euclidean_division_equations. lia.
Qed.

Lemma formatDuration_mm_ss_cc_witness :
  (0 <= 83456 < 6000000)%Z /\ formatDuration 83456 = "01:23.45"%string.
Proof.
  split; [lia|].
  destruct (formatDuration_mm_ss_cc 83456 ltac:(lia)) as [H _].
  rewrite H. reflexivity.
Defined.

End FormatDuration.

(** ** The level of the audio meter *)

Section AudioLevel.
Import Display.

Lemma audioLevel_sum (dataArray : list Z) : forall acc : Q,
  Forall (fun b => (0 <= b <= 255)%Z) dataArray ->
  (acc <= fold_left (fun sum b => sum + (inject_Z b - 128) / 128
                                         * ((inject_Z b - 128) / 128))
                    dataArray acc
       <= acc + inject_Z (Z.of_nat (length dataArray)))%Q.
Proof.
  induction dataArray as [|b l IH]; intros acc Hall.
  - cbn [fold_left length]. change (inject_Z (Z.of_nat 0)) with 0%Q.
    split; Lqa.lra.
  - apply Forall_cons in Hall as [Hb Hall]. cbn [fold_left length].
    destruct (IH (acc + (inject_Z b - 128) / 128 * ((inject_Z b - 128) / 128))%Q Hall)
      as [Hlo Hhi].
    assert (-1 <= (inject_Z b - 128) / 128 <= 1)%Q as [Hv0 Hv1].
    { assert (0 <= inject_Z b <= 255)%Q as [H0 H1].
      { split; [change 0%Q with (inject_Z 0)|change 255%Q with (inject_Z 255)];
          rewrite <- Zle_Qle; lia. }
      split.
      - apply Qle_shift_div_l; [done|]. Lqa.lra.
      - apply Qle_shift_div_r; [done|]. Lqa.lra. }
    set (v := ((inject_Z b - 128) / 128)%Q) in *.
    assert (0 <= v * v <= 1)%Q as [Hs0 Hs1] by (split; Lqa.nra).
    rewrite Nat2Z.inj_succ, <- Z.add_1_r, inject_Z_plus.
    change (inject_Z 1) with 1%Q. split; Lqa.lra.
Qed.

(** X16.  The level [updateAudioLevel] computes from a non-empty array of
    bytes is a number from 0 to 1, and it is 0 when every byte is 128,
    the value of silence. *)
Theorem audioLevel_range (dataArray : list Z) :
  dataArray <> [] ->
  Forall (fun b => (0 <= b <= 255)%Z) dataArray ->
  (0 <= radicand (audioLevel dataArray) <= 1)%Q /\
  (0 <= Root_val (audioLevel dataArray) <= 1)%R /\
  (Forall (fun b => b = 128%Z) dataArray ->
   Root_val (audioLevel dataArray) = 0%R).
Proof.
  intros Hne Hall.
  assert (0 < inject_Z (Z.of_nat (length dataArray)))%Q as Hn.
  { change 0%Q with (inject_Z 0). rewrite <- Zlt_Qlt.
    destruct dataArray; [done|]. cbn [length]. lia. }
  destruct (audioLevel_sum dataArray 0 Hall) as [Hlo Hhi].
  assert (0 <= radicand (audioLevel dataArray) <= 1)%Q as Hrad.
  { unfold audioLevel. cbv zeta. cbn [radicand]. split.
    - apply Qle_shift_div_l; [done|]. Lqa.lra.
    - apply Qle_shift_div_r; [done|]. Lqa.lra. }
  split; [done|]. destruct Hrad as [H0 H1].
  apply Qle_Rle in H0, H1. rewrite RMicromega.Q2R_0 in H0.
  rewrite RMicromega.Q2R_1 in H1.
  split.
  - unfold Root_val. split; [apply sqrt_pos|].
    apply Rle_trans with (sqrt 1); [apply sqrt_le_1; lra|].
    rewrite sqrt_1. lra.
  - intros H128. unfold Root_val.
    rewrite (Qeq_eqR (radicand (audioLevel dataArray)) 0);
      [rewrite RMicromega.Q2R_0; apply sqrt_0|].
    unfold audioLevel. cbv zeta. cbn [radicand].
    assert (forall acc : Q,
              fold_left (fun sum b => sum + (inject_Z b - 128) / 128
                                            * ((inject_Z b - 128) / 128))%Q
                        dataArray acc
              == acc)%Q as Hsum.
    { clear -H128. induction H128 as [|b l -> _ IH]; intros acc; [done|].
      cbn [fold_left]. rewrite IH.
      assert ((inject_Z 128 - 128) / 128 == 0)%Q as -> by by vm_compute.
      Lqa.lra. }
    rewrite Hsum. unfold Qdiv. Lqa.lra.
Qed.

Lemma audioLevel_range_witness :
  [128; 255; 0; 128]%Z <> [] /\
  (0 <= Root_val (audioLevel [128; 255; 0; 128]%Z) <= 1)%R.
Proof.
  split; [done|].
  apply (audioLevel_range [128; 255; 0; 128]%Z); [done|].
  repeat constructor; lia.
Defined.

End AudioLevel.

(** ** Splitting a stream of events *)

Section Split.
Import EventStream.

Lemma string_ind2 (P : string -> Prop) :
  P EmptyString ->
  (forall c, P (String c EmptyString)) ->
  (forall c c' s, P s -> P (String c' s) -> P (String c (String c' s))) ->
  forall s, P s.
Proof.
  intros H0 H1 H2 s.
  assert (P s /\ forall c, P (String c s)) as [H _]; [|exact H].
  induction s as [|c' s [IH1 IH2]]; [split; [exact H0|exact H1]|].
  split; [apply IH2|]. intros c. apply H2; [exact IH1|apply IH2].
Qed.

Lemma split_cons (c c' : ascii) (s : string) :
  split (String c (String c' s))
  = if Ascii.eqb c LF && Ascii.eqb c' LF
    then EmptyString :: split s
    else consFirst c (split (String c' s)).
Proof. reflexivity. Qed.

Lemma split_nonempty (s : string) : split s <> [].
Proof.
  induction s as [|c|c c' s IH1 IH2] using string_ind2; [done|done|].
  rewrite split_cons. destruct (Ascii.eqb c LF && Ascii.eqb c' LF); [done|].
  by destruct (split (String c' s)).
Qed.

Lemma string_app_assoc' (a b c : string) :
  ((a ++ b) ++ c = a ++ (b ++ c))%string.
Proof. induction a as [|x a IH]; cbn; [done|]. by rewrite IH. Qed.

Lemma string_app_nil_r' (a : string) : (a ++ "")%string = a.
Proof. induction a as [|x a IH]; cbn; [done|]. by rewrite IH. Qed.

(** Nothing is lost by [split]. *)
Lemma join_split (s : string) : join (split s) = s.
Proof.
  induction s as [|c|c c' s IH1 IH2] using string_ind2; [done|done|].
  rewrite split_cons. destruct (Ascii.eqb c LF && Ascii.eqb c' LF) eqn:E.
  - apply andb_prop in E as [E1 E2].
    apply Ascii.eqb_eq in E1, E2. subst c c'.
    pose proof (split_nonempty s) as Hne.
    destruct (split s) as [|p ps] eqn:Es; [done|].
    change (join ("" :: p :: ps))%string
      with (String LF (String LF (join (p :: ps)))).
    by rewrite IH1.
  - pose proof (split_nonempty (String c' s)) as Hne.
    destruct (split (String c' s)) as [|p ps]; [done|].
    destruct ps as [|p' ps]; cbn [consFirst join] in *.
    + by rewrite IH2.
    + cbn [append]. by rewrite IH2.
Qed.

Lemma removelast_cons {A} (x : A) (l : list A) :
  l <> [] -> removelast (x :: l) = x :: removelast l.
Proof. by destruct l. Qed.

Lemma last_cons_nonempty {A} (x : A) (l : list A) :
  l <> [] -> last (x :: l) = last l.
Proof. by destruct l. Qed.

(** The pieces found in a prefix are found again when text is added;
    only the last piece, which is still open, is split again. *)
Lemma split_app (a b : string) :
  split (a ++ b)
  = removelast (split a) ++ split (default EmptyString (last (split a)) ++ b).
Proof.
  induction a as [|c|c c' a IH1 IH2] using string_ind2; [done|done|].
  cbn [append]. rewrite !split_cons.
  destruct (Ascii.eqb c LF && Ascii.eqb c' LF) eqn:E.
  - rewrite IH1.
    rewrite removelast_cons, last_cons_nonempty by apply split_nonempty.
    done.
  - change (String c' (a ++ b)) with (String c' a ++ b)%string.
    rewrite IH2.
    pose proof (join_split (String c' a)) as Hj.
    destruct (split (String c' a)) as [|p ps] eqn:Es.
    { by apply split_nonempty in Es. }
    destruct ps as [|p' ps].
    + cbn [join] in Hj. subst p.
      cbn [removelast last default from_option id app consFirst append].
      unfold Datatypes.id. cbn [append].
      by rewrite split_cons, E.
    + cbn [consFirst]. rewrite !removelast_cons, !last_cons_nonempty by done.
      done.
Qed.

(** The open piece holds no separator. *)
Lemma split_last (s : string) :
  split (default EmptyString (last (split s)))
  = [default EmptyString (last (split s))].
Proof.
  induction s as [|c|c c' s IH1 IH2] using string_ind2; [done|done|].
  rewrite split_cons. destruct (Ascii.eqb c LF && Ascii.eqb c' LF) eqn:E.
  - by rewrite last_cons_nonempty by apply split_nonempty.
  - pose proof (join_split (String c' s)) as Hj.
    destruct (split (String c' s)) as [|p ps] eqn:Es.
    { by apply split_nonempty in Es. }
    destruct ps as [|p' ps].
    + cbn [join] in Hj. subst p.
      cbn [consFirst last default from_option id]. unfold Datatypes.id.
      by rewrite split_cons, E, Es.
    + cbn [consFirst]. rewrite last_cons_nonempty by done.
      by rewrite last_cons_nonempty in IH2 by done.
Qed.

End Split.

(** ** Reading the event stream in chunks *)

Section Chunks.
Import EventStream.
Variable parse : string -> Parsed.

Lemma prefix_slice (p line : string) :
  String.prefix p line = true -> line = (p ++ slice (String.length p) line)%string.
Proof.
  revert line. induction p as [|a p IH]; intros line H; [done|].
  destruct line as [|b line]; [done|]. cbn in H.
  destruct (ascii_dec a b) as [->|]; [|done].
  cbn. f_equal. by apply IH.
Qed.

(** The line of the event [[DONE]]. *)
Lemma done_line (line : string) :
  String.prefix "data: " line && String.eqb (slice 6 line) "[DONE]" = true
  <-> line = "data: [DONE]"%string.
Proof.
  split; [|by intros ->].
  intros H. apply andb_prop in H as [H1 H2].
  apply prefix_slice in H1. apply String.eqb_eq in H2.
  cbn [String.length] in H1. by rewrite H2 in H1.
Qed.

Lemma processLines_cons (line : string) (rest : list string) (full : string) :
  line <> "data: [DONE]"%string ->
  processLines parse (line :: rest) full
  = let '(full1, events1) := processLines parse [line] full in
    let '(final, events) := processLines parse rest full1 in
    (final, events1 ++ events).
Proof.
  intros Hne. cbn [processLines].
  destruct (String.prefix "data: " line) eqn:Hp.
  - destruct (String.eqb (slice 6 line) "[DONE]") eqn:Hd.
    { exfalso. apply Hne, done_line. by rewrite Hp, Hd. }
    destruct (parse (slice 6 line)); cbn;
      by destruct (processLines parse rest _).
  - by destruct (processLines parse rest full).
Qed.

Lemma processLines_app (l1 l2 : list string) : forall full,
  ~ In "data: [DONE]"%string l1 ->
  processLines parse (l1 ++ l2) full
  = let '(full1, events1) := processLines parse l1 full in
    let '(final, events) := processLines parse l2 full1 in
    (final, events1 ++ events).
Proof.
  induction l1 as [|line l1 IH]; intros full Hno.
  - cbn. by destruct (processLines parse l2 full).
  - cbn [app]. cbn [In] in Hno.
    rewrite (processLines_cons line (l1 ++ l2)) by tauto.
    rewrite (processLines_cons line l1) by tauto.
    destruct (processLines parse [line] full) as [full1 e1].
    rewrite IH by tauto.
    destruct (processLines parse l1 full1) as [full2 e2].
    destruct (processLines parse l2 full2) as [full3 e3].
    by rewrite app_assoc.
Qed.

Lemma doneLast_app (l1 l2 : list string) :
  doneLast (l1 ++ l2) ->
  doneLast l2 /\ (l2 <> [] -> ~ In "data: [DONE]"%string l1).
Proof.
  intros H. split.
  - intros i Hi. unfold doneLast, doneLine in *.
    specialize (H (length l1 + i)%nat).
    rewrite lookup_app_r, length_app in H by lia.
    replace (length l1 + i - length l1)%nat with i in H by lia.
    specialize (H Hi). lia.
  - intros Hne Hin. unfold doneLast, doneLine in *.
    apply list_elem_of_In, list_elem_of_lookup in Hin as [i Hi].
    specialize (H i). rewrite lookup_app_l, length_app in H
      by by eapply lookup_lt_Some.
    specialize (H Hi). apply lookup_lt_Some in Hi.
    destruct l2; [done|]. cbn in H. lia.
Qed.

Lemma removelast_app_nonempty {A} (l1 l2 : list A) :
  l2 <> [] -> removelast (l1 ++ l2) = l1 ++ removelast l2.
Proof. intros H. by apply removelast_app. Qed.

Lemma last_app_nonempty {A} (l1 l2 : list A) :
  l2 <> [] -> last (l1 ++ l2) = last l2.
Proof.
  intros H. rewrite last_app. destruct (last l2) as [x|] eqn:E; [done|].
  by apply last_None in E.
Qed.

Lemma readAll_readChunk (chunks : list string) : forall st,
  split (buffer st) = [buffer st] ->
  doneLast (removelast (split (buffer st ++ text chunks))) ->
  readAll parse chunks st = readChunk parse (text chunks) st.
Proof.
  induction chunks as [|value rest IH]; intros st Hb Hd.
  - cbn [readAll text]. unfold readChunk.
    rewrite string_app_nil_r', Hb. cbn. by destruct st.
  - cbn [readAll text] in *. unfold readChunk at 1.
    rewrite <- string_app_assoc', split_app in Hd.
    rewrite removelast_app_nonempty in Hd by apply split_nonempty.
    apply doneLast_app in Hd as [Hd2 Hd1].
    set (l1 := removelast (split (buffer st ++ value))) in *.
    set (b1 := default EmptyString (last (split (buffer st ++ value)))) in *.
    destruct (processLines parse l1 (fullResponse st)) as [full1 e1] eqn:E1.
    rewrite (IH {| buffer := b1; fullResponse := full1 |});
      [|apply split_last|exact Hd2].
    unfold readChunk. cbn [buffer fullResponse].
    rewrite <- string_app_assoc', (split_app (buffer st ++ value)).
    fold l1 b1.
    rewrite removelast_app_nonempty, last_app_nonempty by apply split_nonempty.
    destruct (removelast (split (b1 ++ text rest))) as [|x l2] eqn:E2.
    + rewrite app_nil_r, E1. cbn. by rewrite app_nil_r.
    + rewrite processLines_app by (apply Hd1; done). rewrite E1.
      by destruct (processLines parse (x :: l2) full1).
Qed.

(** X17.  The loop that reads the streamed response does not depend on
    how the text arrives in chunks: when the event [[DONE]] occurs at
    most as the last complete event of the text, reading the chunks one
    by one calls [onMessageUpdate] with the same messages in the same
    order, logs the same parse errors, and ends with the same response
    and the same unfinished rest in the buffer, as reading the whole text
    in one chunk; so two ways of cutting one text give the same result. *)
Theorem readAll_chunking (chunks : list string) :
  doneLast (removelast (split (text chunks))) ->
  readAll parse chunks init = readChunk parse (text chunks) init /\
  forall chunks', text chunks' = text chunks ->
    readAll parse chunks' init = readAll parse chunks init.
Proof.
  intros Hd. split.
  - by apply readAll_readChunk.
  - intros chunks' E. rewrite !readAll_readChunk; [by rewrite E|done..|].
    cbn [init buffer append]. by rewrite E.
Qed.

End Chunks.

Section ChunksExample.
Import EventStream.

Lemma readAll_chunking_witness :
  let parse := fun data => Content data in
  let chunks := ["data: Hel"; "lo" ++ String LF (String LF "da"); "ta: !";
                 String LF ""; String LF "data: [DO";
                 "NE]" ++ String LF (String LF "")]%string in
  doneLast (removelast (split (text chunks))) /\
  readAll parse chunks init
  = ({| buffer := ""; fullResponse := "Hello!" |},
     [OnMessageUpdate "Hello"; OnMessageUpdate "Hello!"]).
Proof.
  intros parse chunks.
  assert (doneLast (removelast (split (text chunks)))) as Hd.
  { intros [|[|[|i]]]; cbn; done. }
  split; [exact Hd|].
  destruct (readAll_chunking parse chunks Hd) as [-> _]. reflexivity.
Defined.

End ChunksExample.

(** ** The streamed completion, from the route to the reader *)

Section RoundTrip.
Import EventStream OpenAIRoute.
Variables (parse : string -> Parsed) (stringify : string -> string).

Lemma split_line (line rest : string) :
  noLF line = true ->
  split (line ++ String LF (String LF rest)) = line :: split rest.
Proof.
  induction line as [|c line IH]; intros H; [done|].
  cbn [noLF] in H. apply andb_prop in H as [Hc H].
  cbn [append].
  destruct line as [|c' line].
  - cbn [append]. rewrite split_cons.
    destruct (Ascii.eqb c LF); [done|]. cbn [andb].
    change (String LF (String LF rest)) with ("" ++ String LF (String LF rest))%string.
    by rewrite IH.
  - cbn [append]. rewrite split_cons.
    destruct (Ascii.eqb c LF); [done|]. cbn [andb].
    change (String c' (line ++ String LF (String LF rest)))
      with (String c' line ++ String LF (String LF rest))%string.
    by rewrite IH.
Qed.

Lemma noLF_app (a b : string) : noLF (a ++ b) = noLF a && noLF b.
Proof.
  induction a as [|c a IH]; [done|]. cbn. by rewrite IH, andb_assoc.
Qed.

Lemma split_event (data rest : string) :
  noLF data = true ->
  split (event data ++ rest) = ("data: " ++ data)%string :: split rest.
Proof.
  intros H.
  assert (event data ++ rest
          = ("data: " ++ data) ++ String LF (String LF rest))%string as ->.
  { unfold event. by rewrite !string_app_assoc'. }
  apply split_line. by rewrite noLF_app, H.
Qed.

Lemma split_stream (contents : list string) :
  Forall (fun content => noLF (stringify content) = true) contents ->
  split (text (map (fun content => event (stringify content)) contents
               ++ [event "[DONE]"]))
  = map (fun content => "data: " ++ stringify content)%string contents
    ++ [doneLine; EmptyString].
Proof.
  induction 1 as [|content contents Hc _ IH].
  - reflexivity.
  - cbn [map app text]. rewrite split_event by done. by rewrite IH.
Qed.

Lemma processLines_data (data : string) (rest : list string) (full : string) :
  data <> "[DONE]"%string ->
  processLines parse (("data: " ++ data)%string :: rest) full
  = match parse data with
    | Content text =>
        let '(final, events) := processLines parse rest (full ++ text) in
        (final, OnMessageUpdate (full ++ text) :: events)
    | Falsy => processLines parse rest full
    | Throws =>
        let '(final, events) := processLines parse rest full in
        (final, ConsoleError "Error parsing SSE data:" :: events)
    end.
Proof.
  intros Hd. cbn [processLines].
  assert (String.prefix "data: " ("data: " ++ data) = true) as ->
    by (cbn; by destruct data).
  change (slice 6 ("data: " ++ data)) with data.
  destruct (String.eqb_spec data "[DONE]") as [|_]; [done|].
  by destruct (parse data).
Qed.

Lemma processLines_stream (contents : list string) : forall full,
  Forall (fun content => stringify content <> "[DONE]"%string
                         /\ parse (stringify content) = Content content)
         contents ->
  processLines parse
    (map (fun content => "data: " ++ stringify content)%string contents
     ++ [doneLine]) full
  = (text (full :: contents),
     map OnMessageUpdate (responses full contents)).
Proof.
  induction contents as [|content contents IH]; intros full Hall.
  - cbn. by rewrite string_app_nil_r'.
  - apply Forall_cons in Hall as [[Hd Hp] Hall].
    cbn [map app]. rewrite processLines_data by done.
    rewrite Hp, IH by done. cbn [responses map text].
    by rewrite string_app_assoc'.
Qed.

Lemma text_filter (deltas : list string) :
  text (filter (fun content => Js.truthy content = true) deltas) = text deltas.
Proof.
  induction deltas as [|[|c content] deltas IH]; [done|..].
  - rewrite filter_cons_False by done. done.
  - rewrite filter_cons_True by done. cbn [text]. by rewrite IH.
Qed.

(** X18.  What the route streams is what the reader shows.  The route
    sends one event for each delta whose content is not empty and then
    the event [[DONE]].  If [JSON.stringify] puts no line feed in its
    output and never returns '[DONE]', and [JSON.parse] gives back the
    content, then however the text of the stream is cut into chunks, the
    reader calls [onMessageUpdate] once for each such delta, in order,
    each time with all the contents so far put together, logs no error,
    and ends with the contents of all the deltas as its response and an
    empty buffer. *)
Theorem stream_round_trip (deltas chunks : list string) :
  Forall (fun content =>
            Js.truthy content = true ->
            noLF (stringify content) = true /\
            stringify content <> "[DONE]"%string /\
            parse (stringify content) = Content content) deltas ->
  text chunks = text (stream stringify deltas) ->
  readAll parse chunks init
  = ({| buffer := EmptyString; fullResponse := text deltas |},
     map OnMessageUpdate
         (responses EmptyString
            (filter (fun content => Js.truthy content = true) deltas))).
Proof.
  intros Hall E.
  set (contents := filter (fun content => Js.truthy content = true) deltas).
  assert (Forall (fun content =>
                    noLF (stringify content) = true /\
                    stringify content <> "[DONE]"%string /\
                    parse (stringify content) = Content content) contents)
    as Hc.
  { apply Forall_forall. intros content Hin.
    apply list_elem_of_filter in Hin as [Ht Hin].
    rewrite Forall_forall in Hall. by apply Hall. }
  assert (split (text chunks)
          = map (fun content => "data: " ++ stringify content)%string contents
            ++ [doneLine; EmptyString]) as Hs.
  { rewrite E. unfold stream. fold contents. apply split_stream.
    eapply Forall_impl; [exact Hc|]. by intros content (? & _). }
  assert (removelast (split (text chunks))
          = map (fun content => "data: " ++ stringify content)%string contents
            ++ [doneLine]) as Hl.
  { rewrite Hs.
    change [doneLine; EmptyString] with ([doneLine] ++ [EmptyString]).
    rewrite app_assoc. apply removelast_last. }
  rewrite (readAll_readChunk parse chunks init); [|done|].
  2:{ cbn [init buffer append]. rewrite Hl. intros i Hi. rewrite length_app, length_map. cbn.
    destruct (decide (i < length contents)%nat) as [Hlt|Hge].
    - exfalso. rewrite lookup_app_l in Hi by by rewrite length_map.
      rewrite list_lookup_fmap in Hi.
      destruct (contents !! i) as [content|] eqn:Ei; [|done].
      assert (stringify content = "[DONE]"%string) as Hi'
        by (unfold doneLine in Hi; cbn in Hi; congruence).
      rewrite Forall_forall in Hc.
      destruct (Hc content) as (_ & Hd & _); [|done].
      by eapply list_elem_of_lookup_2.
    - apply lookup_lt_Some in Hi as Hlt.
      rewrite length_app, length_map in Hlt. cbn in Hlt. lia. }
  unfold readChunk. cbn [init buffer fullResponse append].
  rewrite Hl, Hs, processLines_stream.
  - rewrite last_app. cbn [last default from_option]. unfold Datatypes.id.
    cbn [text append]. fold contents. unfold contents at 1.
    by rewrite text_filter.
  - eapply Forall_impl; [exact Hc|]. by intros content (_ & ? & ?).
Qed.

End RoundTrip.

Section RoundTripExample.
Import EventStream OpenAIRoute.

Lemma stream_round_trip_witness :
  let stringify := fun content => ("{" ++ content ++ "}")%string in
  let parse := fun data =>
    match data with
    | String "{" rest => Content (String.substring 0 (String.length rest - 1) rest)
    | _ => Throws
    end in
  let deltas := ["Hel"; ""; "lo"; "!"]%string in
  let whole := text (stream stringify deltas) in
  readAll parse [String.substring 0 10 whole;
                 String.substring 10 1 whole;
                 String.substring 11 100 whole] init
  = ({| buffer := ""; fullResponse := "Hello!" |},
     [OnMessageUpdate "Hel"; OnMessageUpdate "Hello";
      OnMessageUpdate "Hello!"]).
Proof.
  intros stringify parse deltas whole.
  apply (stream_round_trip parse stringify deltas).
  - repeat constructor; intros; done.
  - reflexivity.
Defined.

End RoundTripExample.

(** ** The ChatGPT service: [isProcessing()] and the requests in flight *)

Section ChatGPTInvariant.
Import Js ChatGPT ChatGPTSession.

Lemma step_consistent ev ss : consistent ss -> consistent (step ev ss).1.
Proof.
  intros (Hp & Hc & Hf).
  destruct ss as [[p c n] fl]. cbn in *.
  destruct ev as [message prompt| |controller how]; cbn.
  - unfold sendMessage. destruct (negb (truthy (trim message))); cbn.
    { done. }
    destruct p; cbn.
    + unfold abort. cbn. destruct c as [c|]; cbn.
      * split; [done|]. split.
        -- intros c' [= <-]. split; [apply list_elem_of_here|done].
        -- intros c' Hin. apply elem_of_cons in Hin as [->|Hin]; cbn; [lia|].
           specialize (Hf c' Hin). lia.
      * split; [done|]. split.
        -- intros c' [= <-]. split; [apply list_elem_of_here|done].
        -- intros c' Hin. apply elem_of_cons in Hin as [->|Hin]; cbn; [lia|].
           specialize (Hf c' Hin). lia.
    + split; [done|]. split.
      * intros c' [= <-]. split; [apply list_elem_of_here|done].
      * intros c' Hin. apply elem_of_cons in Hin as [->|Hin]; cbn; [lia|].
        specialize (Hf c' Hin). lia.
  - unfold abort. cbn. destruct c as [c|]; cbn; split; try done.
    all: split; [done|apply Hf].
  - destruct (bool_decide (controller ∈ fl)); [|done].
    destruct how; cbn; split; try done.
    all: split; [done|].
    all: intros c' Hin; apply list_elem_of_filter in Hin as [_ Hin]; by apply Hf.
Qed.

Lemma run_consistent evs : forall ss, consistent ss -> consistent (run evs ss).1.
Proof.
  induction evs as [|ev evs IH]; intros ss H; [done|].
  cbn [run]. pose proof (step_consistent ev ss H) as H1.
  destruct (step ev ss) as [ss1 e1]. cbn in H1.
  specialize (IH ss1 H1). by destruct (run evs ss1) as [ss2 e2].
Qed.

(** X19.  In every session of the ChatGPT service, whenever
    [isProcessing()] is true a call of [sendMessage] is in flight, the
    one made last, and it is the call [abort()] would abort.  The
    converse does not hold: a second [sendMessage] aborts the first call,
    and when the first call then settles, its [finally] block clears the
    state of the second; from then on [isProcessing()] is false and
    [abort()] aborts nothing although the second request is in flight.
    A message that is empty after [trim()] is refused before anything
    changes. *)
Theorem isProcessing_implies_in_flight :
  (forall evs,
     let ss := (run evs init).1 in
     isProcessing (service ss) = true ->
     exists c, abortController (service ss) = Some c /\
               c ∈ inFlight ss /\ S c = created (service ss) /\
               (step CallAbort ss).2 = [Abort c]) /\
  (forall a b pa pb,
     truthy (trim a) = true -> truthy (trim b) = true ->
     let r := run [SendMessage a pa; SendMessage b pb; Settle 0 AbortError]
                  init in
     r.2 = [Fetch a pa 0; Abort 0; Fetch b pb 1] /\
     inFlight r.1 = [1%nat] /\
     isProcessing (service r.1) = false /\
     (step CallAbort r.1).2 = []) /\
  (forall message systemPrompt s,
     truthy (trim message) = false ->
     sendMessage message systemPrompt s
     = (Thrown "Message cannot be empty", s, [])).
Proof.
  split; [|split].
  - intros evs ss Hp.
    destruct (run_consistent evs init) as (H1 & H2 & _).
    { split; [done|]. split; [done|]. intros c Hc. by apply elem_of_nil in Hc. }
    fold ss in H1, H2. apply H1 in Hp.
    destruct (abortController (service ss)) as [c|] eqn:Ec; [|done].
    exists c. destruct (H2 c eq_refl) as [Hin Hs].
    repeat split; try done.
    cbn. unfold abort. by rewrite Ec.
  - intros a b pa pb Ha Hb r. subst r. cbn.
    unfold sendMessage. rewrite Ha, Hb. cbn. done.
  - intros message systemPrompt s H. unfold sendMessage. by rewrite H.
Qed.

Lemma isProcessing_implies_in_flight_witness :
  let r := run [SendMessage "Hello" None; SendMessage "Hi" None;
                Settle 0 AbortError] init in
  (* a space, a no-break space (U+00A0) and a line separator (U+2028) *)
  let blank := String " " (String "194" (String "160"
                 (String "226" (String "128" (String "168" EmptyString))))) in
  (r.2 = [Fetch "Hello" None 0; Abort 0; Fetch "Hi" None 1] /\
   isProcessing (service r.1) = false /\
   (step CallAbort r.1).2 = []) /\
  sendMessage blank None (service init)
  = (Thrown "Message cannot be empty", service init, []).
Proof.
  intros r blank.
  destruct isProcessing_implies_in_flight as (_ & H & Hblank).
  destruct (H "Hello"%string "Hi"%string None None eq_refl eq_refl)
    as (H1 & _ & H2 & H3).
  split; [split; [exact H1|]; split; [exact H2|exact H3]|].
  apply Hblank. reflexivity.
Defined.

End ChatGPTInvariant.

(** ** [forceFinalize()] *)

Section ForceFinalize.
Import Js Orchestrator OrchestratorSpec OrchestratorSession.

(** X20.  [forceFinalize()] of the factory does nothing when the current
    service is not listening.  When it is listening, the service is
    stopped exactly as by the service's own [stop()] (a Whisper instance
    with frames in its buffer sends them), but unlike the factory's
    [stop()] the duration tracking is left running: the start time and
    the interval stay, no duration is reported, and the next callback of
    the interval still advances the duration although no service is
    listening. *)
Theorem forceFinalize_keeps_the_clock (o : Options) (timestamp : string)
    (s : State) (ref : nat) (svc : Service) :
  currentService s = Some ref ->
  services s !! ref = Some svc ->
  let r := forceFinalize timestamp s in
  (serviceIsListening svc = false -> r = (tt, s, [])) /\
  (serviceIsListening svc = true ->
     effects r = effects (serviceStop timestamp svc) /\
     services (state r) = <[ref := state (serviceStop timestamp svc)]> (services s) /\
     startTime (state r) = startTime s /\
     durationInterval (state r) = durationInterval s /\
     getDuration (state r) = getDuration s /\
     (forall wo ws c cs, svc = WhisperInstance wo ws ->
        Whisper.audioChunks ws = c :: cs ->
        exists wav, Fetch "/api/whisper" wav (Some (Whisper.currentLanguage ws))
                    ∈ effects r) /\
     (forall t0 now, startTime s = Some t0 -> t0 <> 0%Z ->
        durationInterval s <> None ->
        getDuration (state (step o (IntervalFired now) (state r)))
        = (now - t0)%Z)).
Proof.
  intros Hc Hs r.
  destruct (forceFinalize_run timestamp s ref svc Hc Hs)
    as (H1 & H2 & H3 & H4 & H5 & H6 & H7). fold r in H1, H2, H3, H4, H5, H6, H7.
  split.
  - intros Hl. subst r. unfold forceFinalize, isListening.
    cbv [mbind M_bind bind get mret M_ret ret]. by rewrite Hc, Hs, Hl.
  - intros Hl. rewrite Hl in *.
    repeat split; try done.
    + intros wo ws c cs -> Hch. rewrite H7. cbn.
      unfold Whisper.isListening in Hl. cbn in Hl.
      eexists. apply Whisper_stop_sends_buffer; [done|by rewrite Hch].
    + intros t0 now Ht Hne Hi. cbn [step].
      cbv [mbind M_bind bind get]. rewrite H6.
      destruct (durationInterval s); [|done]. cbn [nonNull].
      rewrite (durationTick_run o now (state r) t0); [done|congruence|done].
Qed.

Lemma forceFinalize_keeps_the_clock_witness :
  let s := state (start pageOptions granted granted 1000 (selected whisper)) in
  let r := forceFinalize "" s in
  currentService s = Some 1%nat /\ isListening s = true /\
  isListening (state r) = false /\
  durationInterval (state r) = Some intervalHandle /\
  getDuration (state (step pageOptions (IntervalFired 5000) (state r))) = 4000%Z.
Proof.
  intros s r. subst r. split; [reflexivity|]. split; [reflexivity|].
  split; [reflexivity|].
  destruct (services s !! 1%nat) as [svc|] eqn:Es; [|done].
  destruct (forceFinalize_keeps_the_clock pageOptions "" s 1 svc eq_refl Es)
    as [_ H].
  assert (serviceIsListening svc = true) as Hl.
  { vm_compute in Es. injection Es as <-. reflexivity. }
  destruct (H Hl) as (_ & _ & _ & Hi & _ & _ & Ht).
  split; [by rewrite Hi|].
  apply (Ht 1000%Z 5000%Z); done.
Defined.

End ForceFinalize.
